(** * Aldersbach dashboard: embedding of the transaction pipeline of
    [src/script.js] (class [AlderbachDashboard]) and of the currency
    conversion of the export module ([src/unnamed/part_001], [ExportManager]).

    Numbers: the JavaScript numbers that the code computes with are embedded
    as rationals [Q] (exact arithmetic; the code's rates [1/30], [1/240] ...
    are the rationals they approximate), plus an explicit [NaN].  Strings are
    Stdlib [string]s; [localeCompare] on the strings the code compares (ISO
    dates, the sentinel ["9999"]) is embedded as code-unit order
    [String.compare]. *)

From Stdlib Require Import String Ascii List ZArith QArith Bool Lia.
From Stdlib Require Import Sorting.Permutation Sorting.Sorted.
Import ListNotations.
Open Scope string_scope.

(** ** JavaScript values *)
Module Js.

  (** A JavaScript number: a finite value or [NaN]. *)
Inductive num := Num (q : Q) | NaN.

  (** The values the embedded code handles. *)
Inductive val :=
  | Undefined
  | Null
  | Bool (b : bool)
  | Number (n : num)
  | Str (s : string)
  | Function      (* a function object, e.g. [Object.prototype.toString] *)
  | Object.       (* a plain object *)

  (** [ToNumber] on the values that reach an arithmetic operator. *)
Definition to_number (v : val) : num :=
    match v with
    | Undefined => NaN
    | Null => Num 0
    | Bool b => Num (if b then 1 else 0)
    | Number n => n
    | Str _ => NaN        (* only non-numeric strings reach it here *)
    | Function => NaN     (* ToPrimitive gives the source text *)
    | Object => NaN       (* ToPrimitive gives "[object Object]" *)
    end.

Definition num_truthy (n : num) : bool :=
    match n with Num q => negb (Qeq_bool q 0) | NaN => false end.

  (** ToBoolean. *)
Definition truthy (v : val) : bool :=
    match v with
    | Undefined | Null => false
    | Bool b => b
    | Number n => num_truthy n
    | Str s => negb (String.eqb s "")
    | Function | Object => true
    end.

  (** [a || b] *)
Definition or (a b : val) : val := if truthy a then a else b.

Definition mul (a b : num) : num :=
    match a, b with Num x, Num y => Num (x * y) | _, _ => NaN end.
Definition add (a b : num) : num :=
    match a, b with Num x, Num y => Num (x + y) | _, _ => NaN end.
Definition sub (a b : num) : num :=
    match a, b with Num x, Num y => Num (x - y) | _, _ => NaN end.

  (** Equality of numbers up to [Qeq] ([NaN] only equal to itself here,
      to state results; JavaScript's [===] is not meant). *)
Definition num_equiv (a b : num) : Prop :=
    match a, b with Num x, Num y => (x == y)%Q | NaN, NaN => True | _, _ => False end.

  (** Names inherited by every object literal from [Object.prototype]. *)
Definition object_prototype_keys : list string :=
    ["constructor"; "__defineGetter__"; "__defineSetter__"; "hasOwnProperty";
     "__lookupGetter__"; "__lookupSetter__"; "isPrototypeOf";
     "propertyIsEnumerable"; "toString"; "valueOf"; "__proto__";
     "toLocaleString"].

Fixpoint assoc (k : string) (l : list (string * val)) : option val :=
    match l with
    | [] => None
    | (k', v) :: l' => if String.eqb k k' then Some v else assoc k l'
    end.

  (** Property read [o[k]] on an object literal with own properties [own]:
      own property first, then the prototype chain ([Object.prototype],
      whose members are functions, except the [__proto__] accessor that
      yields [Object.prototype] itself). *)
Definition get (own : list (string * val)) (k : string) : val :=
    match assoc k own with
    | Some v => v
    | None =>
        if existsb (String.eqb k) object_prototype_keys then
          (if String.eqb k "__proto__" then Object else Function)
        else Undefined
    end.

  (** [hasOwnProperty] *)
Definition has_own (own : list (string * val)) (k : string) : bool :=
    match assoc k own with Some _ => true | None => false end.

End Js.

(** [a < b] on rationals. *)
Definition Qlt_bool (a b : Q) : bool := negb (Qle_bool b a).

(** ** Currency conversion *)

(** [isValidCurrency]: [validCurrencies.includes(currency)]. *)
Definition validCurrencies : list string := ["f"; "s"; "d"; "gr"; "t"; "l"; "p"].

Definition isValidCurrency (currency : string) : bool :=
  existsb (String.eqb currency) validCurrencies.

Definition rate (q : Q) : Js.val := Js.Number (Js.Num q).

(** The [rates] literal of [convertToFlorin] (script.js). *)
Definition rates : list (string * Js.val) :=
  [("f", rate 1); ("s", rate (1 # 30)); ("d", rate (1 # 240));
   ("gr", rate (1 # 20)); ("t", rate (1 # 8)); ("l", rate (1 # 4));
   ("p", rate (1 # 240))].

(** [convertToFlorin(amount, currency)] (script.js). *)
Definition convertToFlorin (amount : Q) (currency : string) : Js.num :=
  match Js.get rates currency with
  | Js.Undefined => Js.Num 0
  | r => Js.mul (Js.Num amount) (Js.to_number r)
  end.

(** The [conversionRates] literal of [ExportManager.convertToFlorins]. *)
Definition conversionRates : list (string * Js.val) :=
  [("f", rate 1); ("s", rate (5 # 100)); ("d", rate (4167 # 1000000));
   ("gr", rate (625 # 10000)); ("t", rate (5 # 10)); ("l", rate 1);
   ("p", rate (4167 # 1000000))].

(** [ExportManager.convertToFlorins(amount, currency)] (part_001). *)
Definition convertToFlorins (amount : Q) (currency : string) : Js.num :=
  if negb (Js.truthy (Js.Number (Js.Num amount))) || negb (Js.truthy (Js.Str currency))
  then Js.Num 0
  else Js.mul (Js.Num amount)
              (Js.to_number (Js.or (Js.get conversionRates currency) (rate 1))).

(** ** Characters and strings *)

Definition is_digit (c : ascii) : bool :=
  let n := nat_of_ascii c in (48 <=? n)%nat && (n <=? 57)%nat.

Definition digit_value (c : ascii) : nat := nat_of_ascii c - 48.

(** Value of a string of decimal digits (as [parseInt] reads them). *)
Fixpoint digits_value_acc (acc : N) (s : string) : N :=
  match s with
  | EmptyString => acc
  | String c s' => digits_value_acc (acc * 10 + N.of_nat (digit_value c))%N s'
  end.

Definition digits_value (s : string) : N := digits_value_acc 0%N s.

Fixpoint all_digits (s : string) : bool :=
  match s with
  | EmptyString => true
  | String c s' => is_digit c && all_digits s'
  end.

Definition digit_char (n : N) : ascii := ascii_of_N (48 + n).

(** Decimal rendering of a number ([fuel] bounds the number of digits). *)
Fixpoint digits_rev (fuel : nat) (n : N) : list ascii :=
  match fuel with
  | O => []
  | S f => digit_char (n mod 10) :: (if (n <? 10)%N then [] else digits_rev f (n / 10))
  end.

Definition string_of_N (n : N) : string :=
  string_of_list_ascii (rev (digits_rev (S (N.size_nat n)) n)).

(** ... padded with zeros to [width] characters. *)
Definition pad_N (width : nat) (n : N) : string :=
  let s := string_of_N n in
  append (string_of_list_ascii (repeat "0"%char (width - String.length s))) s.

(** JavaScript white space as [trim] removes it (ASCII part). *)
Definition is_ws (c : ascii) : bool :=
  match nat_of_ascii c with 9 | 10 | 11 | 12 | 13 | 32 => true | _ => false end%nat.

Fixpoint trim_left (s : string) : string :=
  match s with
  | String c s' => if is_ws c then trim_left s' else s
  | EmptyString => EmptyString
  end.

Definition trim (s : string) : string :=
  string_of_list_ascii (rev (list_ascii_of_string
    (trim_left (string_of_list_ascii (rev (list_ascii_of_string (trim_left s))))))).

(** [toLowerCase] on the UTF-8 bytes of the text: ASCII letters and the
    two-byte Latin-1 capitals U+00C0..U+00DE (but U+00D7). *)
Fixpoint toLowerCase (s : string) : string :=
  match s with
  | EmptyString => EmptyString
  | String c s' =>
      let n := nat_of_ascii c in
      if ((65 <=? n) && (n <=? 90))%nat then String (ascii_of_nat (n + 32)) (toLowerCase s')
      else if (n =? 195)%nat then
        match s' with
        | String c2 s'' =>
            let m := nat_of_ascii c2 in
            if ((128 <=? m) && (m <=? 158) && negb (m =? 151))%nat
            then String c (String (ascii_of_nat (m + 32)) (toLowerCase s''))
            else String c (String c2 (toLowerCase s''))
        | EmptyString => String c EmptyString
        end
      else String c (toLowerCase s')
  end.

(** [s.includes(t)] *)
Definition includes (s t : string) : bool :=
  match String.index 0 t s with Some _ => true | None => false end.

(** [s.split(sep).pop()]: the text after the last [sep]. *)
Fixpoint after_last (sep : ascii) (s : string) (cur : string) : string :=
  match s with
  | EmptyString => cur
  | String c s' =>
      if Ascii.eqb c sep then after_last sep s' EmptyString
      else after_last sep s' (append cur (String c EmptyString))
  end.

Definition split_pop (sep : ascii) (s : string) : string := after_last sep s EmptyString.

(** [s.substring(0, n)] *)
Definition prefix_n (n : nat) (s : string) : string := substring 0 n s.

(** ** Calendar arithmetic of [Date] (proleptic Gregorian, UTC time values
    in milliseconds) *)

Section Calendar.
Local Open Scope Z_scope.

Definition ms_per_day : Z := 86400000.

(** Days from 1970-01-01 to the civil date [y-m-d]. *)
Definition days_from_civil (y m d : Z) : Z :=
  let y' := if (m <=? 2)%Z then y - 1 else y in
  let era := y' / 400 in
  let yoe := y' - era * 400 in
  let doy := (153 * (if (m >? 2)%Z then m - 3 else m + 9) + 2) / 5 + d - 1 in
  let doe := yoe * 365 + yoe / 4 - yoe / 100 + doy in
  era * 146097 + doe - 719468.

(** The civil date [(y, m, d)] of a day number. *)
Definition civil_from_days (z0 : Z) : Z * Z * Z :=
  let z := z0 + 719468 in
  let era := z / 146097 in
  let doe := z - era * 146097 in
  let yoe := (doe - doe / 1460 + doe / 36524 - doe / 146096) / 365 in
  let y := yoe + era * 400 in
  let doy := doe - (365 * yoe + yoe / 4 - yoe / 100) in
  let mp := (5 * doy + 2) / 153 in
  let d := doy - (153 * mp + 2) / 5 + 1 in
  let m := if (mp <? 10)%Z then mp + 3 else mp - 9 in
  ((if (m <=? 2)%Z then y + 1 else y), m, d).

Definition year_of_time (t : Z) : Z := fst (fst (civil_from_days (t / ms_per_day))).

(** [date.toISOString().split('T')[0]] for a valid time value. *)
Definition iso_date_part (t : Z) : string :=
  let '(y, m, d) := civil_from_days (t / ms_per_day) in
  let ys := if ((0 <=? y) && (y <=? 9999))%Z then pad_N 4 (Z.to_N y)
            else append (if (y <? 0)%Z then "-" else "+") (pad_N 6 (Z.to_N (Z.abs y))) in
  ys ++ "-" ++ pad_N 2 (Z.to_N m) ++ "-" ++ pad_N 2 (Z.to_N d).

End Calendar.

(** ** The engine environment

    What the code takes from the JavaScript engine and from its regular
    expressions: [Date] parsing, the local time zone, and the regex-based
    name extractors. *)
Record Env := {
  (** [new Date(s).getTime()]; [None] for [NaN] *)
  date_parse : string -> option Z;
  (** local time zone offset (ms) at a UTC time value, as [getFullYear] uses it *)
  local_offset : Z -> Z;
  (** the matches of [extractPeopleAndPlaces]'s regular expression *)
  people_regex : string -> list string;
  (** the person and place matches of [extractEntitiesFromText]'s patterns *)
  entity_regex : string -> list string * list string
}.

(** [date.getFullYear()] *)
Definition getFullYear (env : Env) (t : Z) : Z := year_of_time (t + local_offset env t).

(** [/^\d{4}-\d{2}-\d{2}$/.test(s)] *)
Definition iso_shape (s : string) : bool :=
  (String.length s =? 10)%nat
  && all_digits (substring 0 4 s) && String.eqb (substring 4 1 s) "-"
  && all_digits (substring 5 2 s) && String.eqb (substring 7 1 s) "-"
  && all_digits (substring 8 2 s).

(** [validateAndParseDate(dateString)] *)
Definition validateAndParseDate (env : Env) (dateString : string) : string :=
  if String.eqb dateString "" then "" else
  let year := Z.of_N (digits_value (prefix_n 4 dateString)) in
  if iso_shape dateString && (1200 <=? year)%Z && (year <=? 1800)%Z then dateString
  else
    match date_parse env dateString with
    | Some t =>
        let y := getFullYear env t in
        if ((1200 <=? y) && (y <=? 1800))%Z then iso_date_part t else ""
    | None => ""
    end.

(** ** Numeric validation *)

(** Result of [parseFloat]. *)
Inductive float_result := FNum (q : Q) | FInfinity (neg : bool) | FNaN.

Fixpoint take_digits (s : string) : string * string :=
  match s with
  | String c s' =>
      if is_digit c then let '(d, r) := take_digits s' in (String c d, r) else ("", s)
  | EmptyString => ("", "")
  end.

(** [10^e * m] as a rational, for an integer exponent [e]. *)
Definition scale10 (m : N) (e : Z) : Q :=
  if (0 <=? e)%Z then inject_Z (Z.of_N m * 10 ^ e) else Qmake (Z.of_N m) (Z.to_pos (10 ^ (- e))).

(** [parseFloat(s)]: the longest prefix of [s] (after leading white space)
    that is a decimal literal [[+-]digits[.digits][(e|E)[+-]digits]] or
    [[+-]Infinity]. *)
Definition parseFloat (s0 : string) : float_result :=
  let s := trim_left s0 in
  let '(neg, s1) := match s with
                    | String "+" r => (false, r)
                    | String "-" r => (true, r)
                    | _ => (false, s)
                    end in
  if String.prefix "Infinity" s1 then FInfinity neg else
  let '(ip, r1) := take_digits s1 in
  let '(fp, r2) := match r1 with String "." r => take_digits r | _ => ("", r1) end in
  if String.eqb ip "" && String.eqb fp "" then FNaN else
  let e := match r2 with
           | String c r =>
               if Ascii.eqb c "e" || Ascii.eqb c "E" then
                 let '(eneg, r') := match r with
                                    | String "+" r'' => (false, r'')
                                    | String "-" r'' => (true, r'')
                                    | _ => (false, r)
                                    end in
                 let '(ed, _) := take_digits r' in
                 if String.eqb ed "" then 0%Z
                 else (if eneg then Z.opp else id) (Z.of_N (digits_value ed))
               else 0%Z
           | EmptyString => 0%Z
           end in
  let q := scale10 (digits_value (ip ++ fp)) (e - Z.of_nat (String.length fp)) in
  FNum (if neg then - q else q)%Q.

(** [validateNumericValue(valueString)]: [null] is [None]. *)
Definition validateNumericValue (valueString : string) : option Q :=
  if String.eqb valueString "" || String.eqb (trim valueString) "" then None else
  match parseFloat (trim valueString) with
  | FNum q => if Qlt_le_dec q 0 then None
              else if Qlt_le_dec 100000 q then None else Some q
  | FInfinity _ | FNaN => None
  end.

(** ** Records and transactions *)

(** A [bk:Money] element as [parseXMLData] reads it: the text of its
    [quantity] child ([getTextContent], trimmed) and the [rdf:resource]
    attribute of its [unit] child ([None] when there is no unit element or
    no attribute). *)
Record RawMoney := {
  quantityText : string;
  unitResource : option string
}.

(** A [bk:Transaction] element: the trimmed texts of its [entry] and [when]
    children, its money elements in document order, and its [outerHTML]. *)
Record RawTransaction := {
  entryText : string;
  whenText : string;
  money : list RawMoney;
  outerHTML : string
}.

Record Amount := {
  amount : Q;
  currency : string
}.

(** The object literal pushed by [parseXMLData]. *)
Record Transaction := {
  id : nat;
  originalId : string;
  date : string;
  entry : string;
  amounts : list Amount;
  totalFlorinValue : Js.num;
  type : string;
  people : list string;
  rawXML : string
}.

(** [extractPeopleAndPlaces(text)] *)
Definition extractPeopleAndPlaces (env : Env) (text : string) : list string :=
  filter (fun m => (2 <? String.length m)%nat
                   && negb (existsb (String.eqb m) ["Item"; "Maii"; "Aprilis"; "Anno"]))
         (people_regex env text).

(** One iteration of [moneyElements.forEach]: state [(amounts, totalFlorinValue)]. *)
Definition money_step (acc : list Amount * Js.num) (m : RawMoney) : list Amount * Js.num :=
  let '(amounts, total) := acc in
  let currency := match unitResource m with
                  | Some r => if Js.truthy (Js.Str r) then split_pop "#" r else "unknown"
                  | None => "unknown"
                  end in
  if Js.truthy (Js.Str (quantityText m)) && negb (String.eqb currency "unknown") then
    match validateNumericValue (quantityText m) with
    | Some a =>
        if isValidCurrency currency
        then (app amounts [{| amount := a; currency := currency |}],
              Js.add total (convertToFlorin a currency))
        else (amounts, total)
    | None => (amounts, total)
    end
  else (amounts, total).

(** The transaction type from the lower-cased entry. *)
Definition transaction_type (entry : string) : string :=
  let entryLower := toLowerCase entry in
  if includes entryLower "recepimus" || includes entryLower "einnahmen" then "income"
  else if includes entryLower "fÃ¼r" || includes entryLower "dabimus" then "expense"
  else "trade".

(** The body of [transactions.forEach((transaction, index) => ...)]: the
    object pushed, if any, when [this.transactions.length] is [len]. *)
Definition parse_record (env : Env) (index len : nat) (r : RawTransaction)
  : option Transaction :=
  let entry := entryText r in
  let when := validateAndParseDate env (whenText r) in
  let '(amounts, total) := fold_left money_step (money r) ([], Js.Num 0) in
  let type := transaction_type entry in
  let people := extractPeopleAndPlaces env entry in
  if Js.truthy (Js.Str entry) then
    Some {| id := len;
            originalId := "T" ++ string_of_N (N.of_nat (index + 1));
            date := if Js.truthy (Js.Str when) then when else "";
            entry := entry;
            amounts := amounts;
            totalFlorinValue := total;
            type := type;
            people := people;
            rawXML := outerHTML r |}
  else None.

(** One iteration of the loop on the array [this.transactions]. *)
Definition parse_step (env : Env) (index : nat) (r : RawTransaction)
  (ts : list Transaction) : list Transaction :=
  match parse_record env index (length ts) r with
  | Some t => app ts [t]
  | None => ts
  end.

Fixpoint parse_loop (env : Env) (index : nat) (recs : list RawTransaction)
  (ts : list Transaction) : list Transaction :=
  match recs with
  | [] => ts
  | r :: rs => parse_loop env (S index) rs (parse_step env index r ts)
  end.

(** [parseXMLData]: [this.transactions = []] followed by the loop; the
    value of [this.transactions] when it returns. *)
Definition parseXMLData (env : Env) (recs : list RawTransaction) : list Transaction :=
  parse_loop env 0 recs [].

(** The successive values of [this.transactions] during the loop. *)
Fixpoint parse_trace (env : Env) (index : nat) (recs : list RawTransaction)
  (ts : list Transaction) : list (list Transaction) :=
  ts :: match recs with
        | [] => []
        | r :: rs => parse_trace env (S index) rs (parse_step env index r ts)
        end.

(** The successive values of [this.transactions] during a call of
    [parseXMLData] that starts with the collection [old]: [old], then the
    new empty array, then its value after each record. *)
Definition load_trace (env : Env) (old : list Transaction) (recs : list RawTransaction)
  : list (list Transaction) :=
  old :: parse_trace env 0 recs [].

(** ** Sorting

    [Array.prototype.sort] with a consistent comparator returns the stable
    sort of the array by that comparator; [js_sort] is that stable sort,
    written as an insertion sort.  A comparator result [NaN] counts as [+0]. *)

Definition num_lt0 (n : Js.num) : bool :=
  match n with Js.Num q => Qlt_bool q 0 | Js.NaN => false end.

Fixpoint insert_by {A} (cmp : A -> A -> Js.num) (x : A) (l : list A) : list A :=
  match l with
  | [] => [x]
  | y :: ys => if num_lt0 (cmp x y) then x :: y :: ys else y :: insert_by cmp x ys
  end.

Definition js_sort {A} (cmp : A -> A -> Js.num) (l : list A) : list A :=
  fold_left (fun acc x => insert_by cmp x acc) l [].

(** [a.localeCompare(b)] on the strings compared here (code-unit order). *)
Definition localeCompare (a b : string) : Js.num :=
  match String.compare a b with
  | Lt => Js.Num (-1) | Eq => Js.Num 0 | Gt => Js.Num 1
  end.

(** [s || '9999'] for a string field. *)
Definition or_str (s d : string) : string := if Js.truthy (Js.Str s) then s else d.

(** ** [applyFilters] (the definition at script.js 1421, which overrides
    the earlier one) *)




(** ** [aggregateCurrencyData] *)

Fixpoint update_key (k : string) (f : Js.num -> Js.num) (l : list (string * Js.num))
  : list (string * Js.num) :=
  match l with
  | [] => []
  | (k', v) :: l' => if String.eqb k k' then (k', f v) :: l' else (k', v) :: update_key k f l'
  end.

(** The [totals] object literal [{ f: 0, s: 0, d: 0, gr: 0 }]. *)
Definition currency_totals0 : list (string * Js.num) :=
  [("f", Js.Num 0); ("s", Js.Num 0); ("d", Js.Num 0); ("gr", Js.Num 0)].

Definition own_props (l : list (string * Js.num)) : list (string * Js.val) :=
  map (fun '(k, v) => (k, Js.Number v)) l.

Definition tally_amount (metric : string) (totals : list (string * Js.num)) (a : Amount)
  : list (string * Js.num) :=
  if Js.has_own (own_props totals) (currency a) then
    if String.eqb metric "value"
    then update_key (currency a) (fun v => Js.add v (convertToFlorin (amount a) (currency a))) totals
    else update_key (currency a) (fun v => Js.add v (Js.Num 1)) totals
  else totals.

(** [aggregateCurrencyData(transactions, metric)]: the own properties of
    the returned [totals] object, in insertion order. *)
Definition aggregateCurrencyData (transactions : list Transaction) (metric : string)
  : list (string * Js.num) :=
  fold_left (fun totals t => fold_left (tally_amount metric) (amounts t) totals)
            transactions currency_totals0.

(** ** The histogram of [updateHistogramChart] *)

(** [allAmounts]: the amounts of the filtered transactions in the selected
    currency (or all). *)
Definition histogram_amounts (filtered : list Transaction) (selectedCurrency : string)
  : list Q :=
  flat_map (fun t => map amount (filter (fun a => String.eqb selectedCurrency "all"
                                                  || String.eqb (currency a) selectedCurrency)
                                        (amounts t)))
           filtered.

(** [Math.min], [Math.max] on two finite numbers. *)
Definition qmin (a b : Q) : Q := if Qle_bool a b then a else b.
Definition qmax (a b : Q) : Q := if Qle_bool a b then b else a.

(** [Math.min(...l)], [Math.max(...l)] on a non-empty list [x :: l]. *)
Definition qmin_list (x : Q) (l : list Q) : Q := fold_left qmin l x.
Definition qmax_list (x : Q) (l : list Q) : Q := fold_left qmax l x.

(** Whether [amount] is counted in bucket [i] ([rangeStart], [rangeEnd]
    as the loop computes them). *)
Definition in_bucket (minAmount bucketSize : Q) (bucketCount i : nat) (a : Q) : bool :=
  let rangeStart := (minAmount + inject_Z (Z.of_nat i) * bucketSize)%Q in
  let rangeEnd := (minAmount + inject_Z (Z.of_nat (i + 1)) * bucketSize)%Q in
  (Qle_bool rangeStart a && Qlt_bool a rangeEnd)
  || ((i =? bucketCount - 1)%nat && Qle_bool rangeStart a).

(** The chart data [(labels, buckets)]: a label is the pair
    [(rangeStart, rangeEnd)] that the code prints with [toFixed(1)]. *)
Definition histogram (allAmounts : list Q) (bucketCount : nat)
  : list (Q * Q) * list nat :=
  let amounts := filter (fun a => Qlt_bool 0 a) allAmounts in
  match amounts with
  | [] => ([], [])
  | a0 :: rest =>
      let minAmount := qmin_list a0 rest in
      let maxAmount := qmax_list a0 rest in
      let bucketSize := ((maxAmount - minAmount) / inject_Z (Z.of_nat bucketCount))%Q in
      (map (fun i => ((minAmount + inject_Z (Z.of_nat i) * bucketSize)%Q,
                      (minAmount + inject_Z (Z.of_nat (i + 1)) * bucketSize)%Q))
           (seq 0 bucketCount),
       map (fun i => length (filter (in_bucket minAmount bucketSize bucketCount i) amounts))
           (seq 0 bucketCount))
  end.

(** ** Related transactions ([loadRelatedTab])

    Objects are compared by reference ([t === transaction]): an object of
    [this.transactions] is a transaction record at a heap location. *)
Record Ref := {
  loc : nat;
  obj : Transaction
}.

(** Property read [t[k]] on a transaction object literal. *)
Definition tx_get (t : Transaction) (k : string) : Js.val :=
  Js.get [("id", Js.Number (Js.Num (inject_Z (Z.of_nat (id t)))));
          ("originalId", Js.Str (originalId t));
          ("date", Js.Str (date t));
          ("entry", Js.Str (entry t));
          ("amounts", Js.Object);
          ("totalFlorinValue", Js.Number (totalFlorinValue t));
          ("type", Js.Str (type t));
          ("people", Js.Object);
          ("rawXML", Js.Str (rawXML t))] k.

Record Entities := {
  ent_people : list string;
  ent_places : list string;
  ent_commodities : list string
}.

(** [extractEntitiesFromText(text)] *)
Definition extractEntitiesFromText (env : Env) (text : string) : Entities :=
  if negb (Js.truthy (Js.Str text)) then
    {| ent_people := []; ent_places := []; ent_commodities := [] |}
  else
    let '(ps, pls) := entity_regex env text in
    {| ent_people := ps; ent_places := pls;
       ent_commodities := filter (includes text)
                            ["Korn"; "Weizen"; "Gerste"; "Wein"; "Bier"; "Holz"; "Salz"] |}.

(** [Math.abs(date1 - date2) / (1000 * 60 * 60 * 24)] *)
Definition days_diff (env : Env) (d1 d2 : string) : option Q :=
  match date_parse env d1, date_parse env d2 with
  | Some t1, Some t2 => Some (inject_Z (Z.abs (t1 - t2)) / inject_Z ms_per_day)%Q
  | _, _ => None
  end.

(** The score the filter callback computes for candidate [t]. *)
Definition related_score (env : Env) (transaction t : Transaction) : nat :=
  let currentEntities := extractEntitiesFromText env (or_str (entry transaction) "") in
  let s_date : nat :=
    if Js.truthy (Js.Str (date transaction)) && Js.truthy (Js.Str (date t)) then
      match days_diff env (date transaction) (date t) with
      | Some dd => ((if Qle_bool dd (7 # 1) then 2 else 0) + (if Qle_bool dd (1 # 1) then 3 else 0))%nat
      | None => 0%nat
      end
    else 0%nat in
  let s_value : nat :=
    if Js.num_truthy (totalFlorinValue transaction) && Js.num_truthy (totalFlorinValue t) then
      match totalFlorinValue transaction, totalFlorinValue t with
      | Js.Num x, Js.Num y => if Qlt_bool (8 # 10) (qmin x y / qmax x y) then 2%nat else 0%nat
      | _, _ => 0%nat
      end
    else 0%nat in
  let s_currency : nat :=
    let transCurrencies := map currency (amounts transaction) in
    let tCurrencies := map currency (amounts t) in
    if existsb (fun c => existsb (String.eqb c) tCurrencies) transCurrencies then 1%nat else 0%nat in
  let s_entities : nat :=
    if Js.truthy (Js.Str (entry t)) && (0 <? length (ent_people currentEntities))%nat then
      let relatedEntities := extractEntitiesFromText env (entry t) in
      let sharedPeople :=
        existsb (fun p => existsb (fun rp => includes (toLowerCase rp) (toLowerCase p)
                                             || includes (toLowerCase p) (toLowerCase rp))
                                  (ent_people relatedEntities))
                (ent_people currentEntities) in
      let sharedPlaces :=
        existsb (fun p => existsb (fun rp => String.eqb (toLowerCase rp) (toLowerCase p))
                                  (ent_places relatedEntities))
                (ent_places currentEntities) in
      let sharedCommodities :=
        existsb (fun c => existsb (String.eqb c) (ent_commodities relatedEntities))
                (ent_commodities currentEntities) in
      ((if sharedPeople then 3 else 0) + (if sharedPlaces then 2 else 0)
       + (if sharedCommodities then 1 else 0))%nat
    else 0%nat in
  (s_date + s_value + s_currency + s_entities)%nat.

(** The value returned by the [filter] callback: [false], the object
    [{ transaction: t, score: score }], or [null]. *)
Definition related_callback (env : Env) (transaction : Ref) (t : Ref) : Js.val :=
  if (loc t =? loc transaction)%nat then Js.Bool false
  else if (0 <? related_score env (obj transaction) (obj t))%nat then Js.Object
  else Js.Null.

(** The comparator [(a, b) => b.score - a.score] on the array elements. *)
Definition related_comparator (a b : Ref) : Js.num :=
  Js.sub (Js.to_number (tx_get (obj b) "score")) (Js.to_number (tx_get (obj a) "score")).

(** The array [related] of [loadRelatedTab(transaction)], over the pool
    [this.transactions]: [filter], [filter(r => r !== null)], [sort],
    [slice(0, 5)]. *)
Definition loadRelatedTab (env : Env) (transaction : Ref) (pool : list Ref) : list Ref :=
  let step1 := filter (fun t => Js.truthy (related_callback env transaction t)) pool in
  let step2 := filter (fun _ => true) step1 in
  let step3 := js_sort related_comparator step2 in
  firstn 5 step3.

(** ** Concrete environments and inputs *)

Definition is_leap (y : Z) : bool :=
  (Z.eqb (y mod 4) 0 && negb (Z.eqb (y mod 100) 0)) || Z.eqb (y mod 400) 0.

Definition month_days (y m : Z) : Z :=
  match m with
  | 2%Z => if is_leap y then 29 else 28
  | 4%Z | 6%Z | 9%Z | 11%Z => 30
  | _ => 31
  end%Z.

Definition num_at (s : string) (from len : nat) : Z := Z.of_N (digits_value (substring from len s)).

(** [new Date(s).getTime()] for the two forms [YYYY-MM-DD] and
    [YYYY-MM-DDTHH:mm:ssZ] of ECMAScript's Date Time String Format (both
    read as UTC); [None] for every other string.  It stands for the engine
    at strings of these two forms only. *)
Definition es_date_parse (s : string) : option Z :=
  let ok_date (x : string) :=
    iso_shape x && (1 <=? num_at x 5 2)%Z && (num_at x 5 2 <=? 12)%Z
    && (1 <=? num_at x 8 2)%Z && (num_at x 8 2 <=? month_days (num_at x 0 4) (num_at x 5 2))%Z in
  let day (x : string) := days_from_civil (num_at x 0 4) (num_at x 5 2) (num_at x 8 2) in
  if ok_date s then Some (day s * ms_per_day)%Z
  else if (String.length s =? 20)%nat && ok_date (substring 0 10 s)
          && String.eqb (substring 10 1 s) "T" && all_digits (substring 11 2 s)
          && String.eqb (substring 13 1 s) ":" && all_digits (substring 14 2 s)
          && String.eqb (substring 16 1 s) ":" && all_digits (substring 17 2 s)
          && String.eqb (substring 19 1 s) "Z"
          && (num_at s 11 2 <=? 23)%Z && (num_at s 14 2 <=? 59)%Z && (num_at s 17 2 <=? 59)%Z
  then Some (day (substring 0 10 s) * ms_per_day
             + ((num_at s 11 2 * 60 + num_at s 14 2) * 60 + num_at s 17 2) * 1000)%Z
  else None.

(** A browser whose local time is UTC; the name patterns find nothing (as
    on the lower-case entries used below). *)
Definition env_utc : Env := {|
  date_parse := es_date_parse;
  local_offset := fun _ => 0%Z;
  people_regex := fun _ => [];
  entity_regex := fun _ => ([], [])
|}.

(** A browser in the Europe/Berlin zone, whose offset before 1893 is the
    local mean time +0:53:28. *)
Definition env_berlin : Env := {|
  date_parse := es_date_parse;
  local_offset := fun _ => 3208000%Z;
  people_regex := fun _ => [];
  entity_regex := fun _ => ([], [])
|}.

(** A record with entry [e], date text [w] and one amount [q] of unit [u]. *)
Definition raw (e w q u : string) : RawTransaction := {|
  entryText := e;
  whenText := w;
  money := [{| quantityText := q; unitResource := Some ("http://gams.uni-graz.at/context:depcha.aldersbach#" ++ u) |}];
  outerHTML := "<bk:Transaction/>"
|}.

(** A transaction object of the collection. *)
Definition tx (n : nat) (d e : string) (ams : list Amount) (v : Q) : Transaction := {|
  id := n; originalId := "T" ++ string_of_N (N.of_nat (n + 1)); date := d; entry := e;
  amounts := ams; totalFlorinValue := Js.Num v; type := "trade"; people := [];
  rawXML := "<bk:Transaction/>"
|}.

Definition amt (q : Q) (c : string) : Amount := {| amount := q; currency := c |}.


(** A target and two candidates of the related tab: the first candidate
    shares only the currency (score 1), the second also has the same value
    (score 3). *)
Definition rel_target : Ref := {| loc := 0; obj := tx 0 "" "item" [amt 1 "f"] 1 |}.
Definition rel_c1 : Ref := {| loc := 1; obj := tx 1 "" "item" [amt 2 "f"] 2 |}.
Definition rel_c2 : Ref := {| loc := 2; obj := tx 2 "" "item" [amt 1 "f"] 1 |}.
Definition rel_pool : list Ref := [rel_target; rel_c1; rel_c2].

(** Three records: a dated one, one without entry text (skipped), and one
    without date. *)
Definition recs0 : list RawTransaction :=
  [raw "item" "1500-01-01" "18" "f"; raw "" "" "1" "f"; raw "b" "" "240" "d"].

Definition tx_default : Transaction := tx 0 "" "" [] 0.

(** A collection of three transactions loaded before. *)
Definition old3 : list Transaction := [tx 0 "" "a" [] 0; tx 1 "" "b" [] 0; tx 2 "" "c" [] 0].

(** The amount a currency tally adds for [a]: its florin value or 1. *)
Definition currency_value (metric : string) (a : Amount) : Js.num :=
  if String.eqb metric "value" then convertToFlorin (amount a) (currency a) else Js.Num 1.

(** [totals[k]] on the returned object, if it is an own property. *)
Fixpoint lookup_num (k : string) (l : list (string * Js.num)) : option Js.num :=
  match l with
  | [] => None
  | (k', v) :: l' => if String.eqb k k' then Some v else lookup_num k l'
  end.

(** The tally of code [k]: [0] plus, in order, what each amount of code
    [k] of the transactions adds. *)
Definition tally_spec (ts : list Transaction) (metric k : string) : Js.num :=
  fold_left (fun acc a => Js.add acc (currency_value metric a))
            (filter (fun a => String.eqb (currency a) k) (flat_map amounts ts)) (Js.Num 0).

(** Scenario B: one transaction whose only amount is 240 denarii. *)
Definition tx_240d : Transaction := tx 0 "" "item" [amt 240 "d"] 1.


(** ** The transaction table: [renderTransactions], [updatePagination],
    [changePage] *)

(** [String(n)] for an integer. *)
Definition string_of_Z (z : Z) : string :=
  if (z <? 0)%Z then "-" ++ string_of_N (Z.abs_N z) else string_of_N (Z.to_N z).

(** [l.slice(start, end)] *)
Definition js_slice {A} (l : list A) (start end_ : Z) : list A :=
  let len := Z.of_nat (length l) in
  let rel s := if (s <? 0)%Z then Z.max (len + s) 0 else Z.min s len in
  let from := rel start in
  let to := rel end_ in
  firstn (Z.to_nat (to - from)) (skipn (Z.to_nat from) l).

(** [this.transactionsPerPage], set once by the constructor. *)
Definition transactionsPerPage : Z := 50.

(** [pageTransactions] of [renderTransactions]. *)
Definition page_transactions (filtered : list Transaction) (currentPage : Z) : list Transaction :=
  let start := ((currentPage - 1) * transactionsPerPage)%Z in
  let end_ := (start + transactionsPerPage)%Z in
  js_slice filtered start end_.

(** What [renderTransactions] writes into the table body: the
    "No transactions found" row, or one row per transaction of the page. *)
Inductive TableBody :=
  | NoTransactionsRow
  | TransactionRows (page : list Transaction).

Definition renderTransactions (filtered : list Transaction) (currentPage : Z) : TableBody :=
  if (length filtered =? 0)%nat then NoTransactionsRow
  else TransactionRows (page_transactions filtered currentPage).

(** [Math.ceil(this.filteredTransactions.length / this.transactionsPerPage)] *)
Definition totalPages (filtered : list Transaction) : Z :=
  ((Z.of_nat (length filtered) + transactionsPerPage - 1) / transactionsPerPage)%Z.

(** The state of the two buttons and the page label. *)
Record PaginationView := {
  prevDisabled : bool;
  nextDisabled : bool;
  pageInfo : string
}.

Definition updatePagination (filtered : list Transaction) (currentPage : Z) : PaginationView :=
  let total := totalPages filtered in
  {| prevDisabled := (currentPage <=? 1)%Z;
     nextDisabled := (total <=? currentPage)%Z;
     pageInfo := "Page " ++ string_of_Z currentPage ++ " of " ++ string_of_Z total |}.

(** [changePage(direction)]: the new [currentPage]. *)
Definition changePage (currentPage direction : Z) : Z := (currentPage + direction)%Z.

(** A click on the "Previous" or "Next" button, bound by [bindEvents] to
    [changePage(-1)] and [changePage(1)]. *)
Inductive PageButton := PrevButton | NextButton.

(** The page after a click, with the buttons in the state the last
    [updatePagination] left them in; a disabled button fires no click. *)
Definition page_click (filtered : list Transaction) (currentPage : Z) (b : PageButton) : Z :=
  match b with
  | PrevButton => if prevDisabled (updatePagination filtered currentPage) then currentPage
                  else changePage currentPage (-1)
  | NextButton => if nextDisabled (updatePagination filtered currentPage) then currentPage
                  else changePage currentPage 1
  end.

(** ** [updateStats] *)

(** The comparison of [Array.prototype.sort] without a comparator, on
    strings: code-unit order. *)
Definition default_sort_compare (a b : string) : Js.num :=
  match String.compare a b with
  | Lt => Js.Num (-1) | Eq => Js.Num 0 | Gt => Js.Num 1
  end.

(** [[...new Set(l)]]: the distinct elements in order of first occurrence. *)
Definition js_set (l : list string) : list string :=
  fold_left (fun s x => if existsb (String.eqb x) s then s else app s [x]) l [].

(** The values [updateStats] writes into the four counters (before their
    formatting with [toLocaleString] and [toFixed(0)]). *)
Record DashboardStats := {
  totalTransactionsCount : nat;
  totalValueNum : Js.num;
  dateRangeText : string;
  uniquePeopleCount : nat
}.

Definition date_range_text (dates : list string) : string :=
  match dates with
  | [] => "N/A"
  | [d] => d
  | d :: _ => d ++ " to " ++ last dates ""
  end.

Definition updateStats (transactions : list Transaction) : DashboardStats :=
  let totalValue := fold_left (fun sum t => Js.add sum (totalFlorinValue t)) transactions (Js.Num 0) in
  let dates := js_sort default_sort_compare
                 (map date (filter (fun t => Js.truthy (Js.Str (date t))) transactions)) in
  let allPeople := js_set (flat_map people transactions) in
  {| totalTransactionsCount := length transactions;
     totalValueNum := totalValue;
     dateRangeText := date_range_text dates;
     uniquePeopleCount := length allPeople |}.

(** ** Local time of [Date] *)

Section LocalTime.
Local Open Scope Z_scope.

(** [TimeClip]: a time value is valid within 8.64e15 ms of the epoch. *)
Definition time_valid (t : Z) : bool := Z.abs t <=? 8640000000000000.

Definition local_time (env : Env) (t : Z) : Z := t + local_offset env t.

(** [date.getMonth()], [date.getDate()], [date.getDay()] *)
Definition getMonth (env : Env) (t : Z) : Z :=
  snd (fst (civil_from_days (local_time env t / ms_per_day))) - 1.

Definition getDate (env : Env) (t : Z) : Z :=
  snd (civil_from_days (local_time env t / ms_per_day)).

Definition getDay (env : Env) (t : Z) : Z := (local_time env t / ms_per_day + 4) mod 7.

(** [UTC(l)] of a local time value: [l] minus the zone's offset, taken at
    the instant [l - offset(l)] (exact where the offset is the same at
    both instants, e.g. for a fixed offset). *)
Definition utc_of_local (env : Env) (l : Z) : Z := l - local_offset env (l - local_offset env l).

End LocalTime.

(** ** [aggregateTimelineData] *)

(** [String(n).padStart(2, '0')] for a month number. *)
Definition pad2 (n : Z) : string := pad_N 2 (Z.to_N n).

(** The key of a transaction with time value [tm] ([None]: an invalid
    date); [None] as result: [toISOString] throws a [RangeError]. *)
Definition timeline_key (env : Env) (unit : string) (tm : option Z) : option string :=
  match tm with
  | None =>
      if String.eqb unit "month" then Some "NaN-NaN-01"
      else if String.eqb unit "year" then Some "NaN-01-01"
      else None
  | Some t =>
      if String.eqb unit "day" then Some (iso_date_part t)
      else if String.eqb unit "week" then
        let weekStart := utc_of_local env (local_time env t - getDay env t * ms_per_day)%Z in
        if time_valid weekStart then Some (iso_date_part weekStart) else None
      else if String.eqb unit "month" then
        Some (string_of_Z (getFullYear env t) ++ "-" ++ pad2 (getMonth env t + 1) ++ "-01")
      else if String.eqb unit "year" then
        Some (string_of_Z (getFullYear env t) ++ "-01-01")
      else Some (iso_date_part t)
  end.

(** [data.has(key)], [data.set(key, 0)], [data.set(key, data.get(key) + v)]
    on a [Map] kept as its entries in insertion order. *)
Definition map_add (key : string) (v : Js.num) (data : list (string * Js.num))
  : list (string * Js.num) :=
  let data := if existsb (fun e => String.eqb (fst e) key) data then data
              else app data [(key, Js.Num 0)] in
  update_key key (fun x => Js.add x v) data.

(** One iteration of [transactions.forEach]; [None]: an exception. *)
Definition timeline_step (env : Env) (unit : string)
  (acc : option (list (string * Js.num))) (t : Transaction) : option (list (string * Js.num)) :=
  match acc with
  | None => None
  | Some data =>
      if negb (Js.truthy (Js.Str (date t))) then Some data
      else match timeline_key env unit (date_parse env (date t)) with
           | Some key => Some (map_add key (totalFlorinValue t) data)
           | None => None
           end
  end.

(** [aggregateTimelineData(transactions, unit)]: the points [(x, y)];
    [None]: the call throws. *)
Definition aggregateTimelineData (env : Env) (transactions : list Transaction) (unit : string)
  : option (list (string * Js.num)) :=
  match fold_left (timeline_step env unit) transactions (Some []) with
  | Some data => Some (js_sort (fun a b => localeCompare (fst a) (fst b)) data)
  | None => None
  end.

(** ** [updateSeasonalChart] *)

(** The group of a dated transaction in the view: month, quarter or day
    of the week. *)
Definition seasonal_group (env : Env) (view : string) (t : Z) : Z :=
  if String.eqb view "monthly" then getMonth env t
  else if String.eqb view "quarterly" then (getMonth env t / 3)%Z
  else getDay env t.

Definition seasonal_labels (view : string) : list string :=
  if String.eqb view "monthly" then
    ["Jan"; "Feb"; "Mar"; "Apr"; "May"; "Jun"; "Jul"; "Aug"; "Sep"; "Oct"; "Nov"; "Dec"]
  else if String.eqb view "quarterly" then ["Q1"; "Q2"; "Q3"; "Q4"]
  else if String.eqb view "weekday" then ["Sun"; "Mon"; "Tue"; "Wed"; "Thu"; "Fri"; "Sat"]
  else [].

(** [t.totalFlorinValue || 0] *)
Definition value_or_0 (t : Transaction) : Q :=
  match totalFlorinValue t with
  | Js.Num q => if Js.num_truthy (Js.Num q) then q else 0
  | Js.NaN => 0
  end.

(** The [{ total, count }] entry [i] of the map after adding [t]. *)
Definition seasonal_add (i : nat) (v : Q) (data : list (Q * nat)) : list (Q * nat) :=
  map (fun '(j, e) => if (j =? i)%nat then ((fst e + v)%Q, S (snd e)) else e)
      (combine (seq 0 (length data)) data).

(** One iteration of [this.filteredTransactions.forEach]; [None]: the
    [TypeError] of [data.total] when [monthlyData.get(...)] is [undefined]
    (an invalid date gives the key [NaN]). *)
Definition seasonal_step (env : Env) (view : string) (acc : option (list (Q * nat)))
  (t : Transaction) : option (list (Q * nat)) :=
  match acc with
  | None => None
  | Some data =>
      if negb (Js.truthy (Js.Str (date t))) then Some data
      else match date_parse env (date t) with
           | Some tm =>
               let g := seasonal_group env view tm in
               if ((0 <=? g)%Z && (Z.to_nat g <? length data)%nat)
               then Some (seasonal_add (Z.to_nat g) (value_or_0 t) data)
               else None
           | None => None
           end
  end.

(** [updateSeasonalChart()]: [(labels, avgValues, counts)] of the chart
    (empty for a view other than the three); [None]: it throws. *)
Definition updateSeasonalChart (env : Env) (view : string) (filtered : list Transaction)
  : option (list string * list Q * list nat) :=
  let labels := seasonal_labels view in
  let init := map (fun _ => (0%Q, 0%nat)) labels in
  if (length labels =? 0)%nat then Some ([], [], []) else
  match fold_left (seasonal_step env view) filtered (Some init) with
  | Some data =>
      Some (labels,
            map (fun e => if (0 <? snd e)%nat then (fst e / inject_Z (Z.of_nat (snd e)))%Q else 0%Q) data,
            map snd data)
  | None => None
  end.

(** ** The tooltip helpers [getTransactionCountForDate],
    [getAverageAmountForDate] *)

(** The time value of [new Date(v)]; [None] for [NaN]. *)
Definition date_of_val (env : Env) (v : Js.val) : option Z :=
  match v with
  | Js.Undefined => None
  | Js.Null => Some 0%Z
  | Js.Bool b => Some (if b then 1 else 0)%Z
  | Js.Number (Js.Num q) =>
      let z := (Z.sgn (Qnum q) * (Z.abs (Qnum q) / Zpos (Qden q)))%Z in
      if time_valid z then Some z else None
  | Js.Number Js.NaN => None
  | Js.Str s => date_parse env s
  | Js.Function | Js.Object => None  (* their string forms are no dates *)
  end.

(** The filter callback: [None] when [toISOString] throws. *)
Definition same_day_when (env : Env) (dateStr : string) (t : Transaction) : option bool :=
  let w := tx_get t "when" in
  if negb (Js.truthy w) then Some false
  else match date_of_val env w with
       | Some u => Some (String.eqb (iso_date_part u) dateStr)
       | None => None
       end.

Fixpoint filter_opt {A} (f : A -> option bool) (l : list A) : option (list A) :=
  match l with
  | [] => Some []
  | x :: l' =>
      match f x, filter_opt f l' with
      | Some b, Some r => Some (if b then x :: r else r)
      | _, _ => None
      end
  end.

(** [getTransactionCountForDate(timestamp)]; [None]: it throws. *)
Definition getTransactionCountForDate (env : Env) (timestamp : Z) (filtered : list Transaction)
  : option nat :=
  if negb (time_valid timestamp) then None else
  let dateStr := iso_date_part timestamp in
  option_map (@length Transaction) (filter_opt (same_day_when env dateStr) filtered).

(** [getAverageAmountForDate(timestamp)]; [None]: it throws. *)
Definition getAverageAmountForDate (env : Env) (timestamp : Z) (filtered : list Transaction)
  : option Js.num :=
  if negb (time_valid timestamp) then None else
  let dateStr := iso_date_part timestamp in
  match filter_opt (same_day_when env dateStr) filtered with
  | None => None
  | Some [] => Some (Js.Num 0)
  | Some day =>
      let total := fold_left (fun sum t => Js.add sum (Js.to_number (Js.or (tx_get t "amount") (Js.Number (Js.Num 0)))))
                             day (Js.Num 0) in
      Some match total with
           | Js.Num q => Js.Num (q / inject_Z (Z.of_nat (length day)))
           | Js.NaN => Js.NaN
           end
  end.

(** ** The export module ([src/unnamed/part_001], [ExportManager]) on the
    dashboard's transaction objects

    [handleCSVExport] and [handleJSONExport] hand [this.filteredTransactions],
    the objects built by [parseXMLData], to [exportToCSV] and [exportToJSON];
    their properties are read with [tx_get]. *)

(** What the export code takes from the engine besides [Env]: [String] of
    a number and of the function values met, [Number] of a string, and the
    matches of [extractEntities]'s two regular expressions. *)
Record ExportEnv := {
  number_string : Js.num -> string;
  function_string : string;
  string_number : string -> Js.num;
  (** [text.match(namePattern) || []] *)
  name_matches : string -> list string;
  (** the successive [match[1]] of [placePattern.exec(text)] *)
  place_matches : string -> list string
}.

(** [ToString] *)
Definition x_to_string (xe : ExportEnv) (v : Js.val) : string :=
  match v with
  | Js.Undefined => "undefined"
  | Js.Null => "null"
  | Js.Bool b => if b then "true" else "false"
  | Js.Number n => number_string xe n
  | Js.Str s => s
  | Js.Function => function_string xe
  | Js.Object => "[object Object]"
  end.

(** [ToNumber] *)
Definition x_to_number (xe : ExportEnv) (v : Js.val) : Js.num :=
  match v with
  | Js.Str s => string_number xe s
  | _ => Js.to_number v
  end.

(** [convertToFlorins(amount, currency)] on any two values. *)
Definition convertToFlorins_val (xe : ExportEnv) (amount currency : Js.val) : Js.num :=
  if negb (Js.truthy amount) || negb (Js.truthy currency) then Js.Num 0
  else Js.mul (x_to_number xe amount)
              (x_to_number xe (Js.or (Js.get conversionRates (x_to_string xe currency))
                                     (Js.Number (Js.Num 1)))).

Definition quote_char : ascii := "034"%char.
Definition newline_char : ascii := "010"%char.

(** [str.replace] with the global regex of the double quote and the
    replacement of two double quotes *)
Fixpoint replace_quotes (s : string) : string :=
  match s with
  | EmptyString => EmptyString
  | String c s' =>
      if Ascii.eqb c quote_char then String quote_char (String quote_char (replace_quotes s'))
      else String c (replace_quotes s')
  end.

(** [escapeCSV(str)] *)
Definition escapeCSV (str : string) : string :=
  if includes str "," || includes str (String quote_char EmptyString)
     || includes str (String newline_char EmptyString)
  then String quote_char (append (replace_quotes str) (String quote_char EmptyString))
  else str.

Definition commodities : list string :=
  ["Korn"; "Weizen"; "Gerste"; "Hafer"; "Wein"; "Bier"; "Holz"; "Salz"; "Fleisch"; "Käse"].

(** [extractEntities(text)] *)
Definition extractEntities (xe : ExportEnv) (text : string) : list string :=
  js_set (app (name_matches xe text)
              (app (place_matches xe text) (filter (fun c => includes text c) commodities))).

Definition q_abs (q : Q) : Q := Qmake (Z.abs (Qnum q)) (Qden q).

(** [x.toFixed(2)] *)
Definition toFixed2 (xe : ExportEnv) (x : Js.num) : string :=
  match x with
  | Js.NaN => "NaN"
  | Js.Num q =>
      if Qle_bool (inject_Z (10 ^ 21)) (q_abs q) then number_string xe x
      else
        let n := Z.to_N (Qnum (q_abs q * 100 + (1 # 2)) / Zpos (Qden (q_abs q * 100 + (1 # 2))))%Z in
        let ds := pad_N 3 n in
        let k := String.length ds in
        (if Qlt_bool q 0 then "-" else "")
          ++ substring 0 (k - 2) ds ++ "." ++ substring (k - 2) 2 ds
  end.

(** [arr.join(sep)]: [undefined] and [null] give the empty string. *)
Definition join_vals (xe : ExportEnv) (sep : string) (l : list Js.val) : string :=
  String.concat sep (map (fun v => match v with
                                   | Js.Undefined | Js.Null => ""
                                   | _ => x_to_string xe v
                                   end) l).

(** The row of [exportToCSV] for [t]; [None]: the callback throws ([str.includes]
    of a non-string). *)
Definition csv_row (xe : ExportEnv) (t : Transaction) : option string :=
  let date := Js.or (Js.or (tx_get t "when") (tx_get t "date")) (Js.Str "") in
  match Js.or (tx_get t "entry") (Js.Str "") with
  | Js.Str e =>
      let entry := escapeCSV e in
      let amount := Js.or (tx_get t "amount") (Js.Str "") in
      let currency := Js.or (tx_get t "currency") (Js.Str "") in
      let type := Js.or (tx_get t "type") (Js.Str "Transfer") in
      let florinEquiv := toFixed2 xe (convertToFlorins_val xe (tx_get t "amount") (tx_get t "currency")) in
      let entities := String.concat "; " (extractEntities xe e) in
      let uri := Js.or (tx_get t "uri") (Js.Str "") in
      Some (join_vals xe "," [date; Js.Str entry; amount; currency; type;
                              Js.Str florinEquiv; Js.Str entities; uri])
  | _ => None
  end.

Fixpoint map_opt {A B} (f : A -> option B) (l : list A) : option (list B) :=
  match l with
  | [] => Some []
  | x :: l' =>
      match f x with
      | Some y => match map_opt f l' with Some r => Some (y :: r) | None => None end
      | None => None
      end
  end.

Definition csv_headers : list string :=
  ["Date"; "Entry (German)"; "Amount"; "Currency"; "Type"; "Florin Equivalent";
   "People/Places"; "URI"].

(** U+FEFF in UTF-8 *)
Definition BOM : string := String "239"%char (String "187"%char (String "191"%char EmptyString)).

(** [exportToCSV(transactions)]: the text of the [Blob] it downloads when
    it returns [true]; [None] when it returns [false]. *)
Definition exportToCSV (xe : ExportEnv) (transactions : list Transaction) : option string :=
  match map_opt (csv_row xe) transactions with
  | Some rows =>
      Some (BOM ++ String.concat (String newline_char EmptyString)
                                 (String.concat "," csv_headers :: rows))
  | None => None
  end.

(** *** [exportToJSON] *)

(** [date.toISOString()] for a valid time value. *)
Definition iso_string (t : Z) : string :=
  let r := (t mod ms_per_day)%Z in
  iso_date_part t ++ "T" ++ pad2 (r / 3600000) ++ ":" ++ pad2 ((r / 60000) mod 60)
  ++ ":" ++ pad2 ((r / 1000) mod 60) ++ "." ++ pad_N 3 (Z.to_N (r mod 1000)) ++ "Z".

Definition zmin_list (z : Z) (l : list Z) : Z := fold_left Z.min l z.
Definition zmax_list (z : Z) (l : list Z) : Z := fold_left Z.max l z.

(** [getDateRange(transactions)]: [Some None] for [null], [None]: it throws
    ([Math.min] is [NaN] as soon as one date is invalid, and
    [toISOString] throws on it). *)
Definition getDateRange (env : Env) (transactions : list Transaction)
  : option (option (string * string)) :=
  let ds := filter Js.truthy (map (fun t => Js.or (tx_get t "when") (tx_get t "date")) transactions) in
  match map (date_of_val env) ds with
  | [] => Some None
  | d0 :: rest =>
      match map_opt (fun o => o) (d0 :: rest) with
      | Some (z :: zs) => Some (Some (iso_string (zmin_list z zs), iso_string (zmax_list z zs)))
      | _ => None
      end
  end.

(** SameValueZero on the values of this embedding. *)
Definition same_value_zero (a b : Js.val) : bool :=
  match a, b with
  | Js.Undefined, Js.Undefined | Js.Null, Js.Null => true
  | Js.Bool x, Js.Bool y => Bool.eqb x y
  | Js.Number (Js.Num x), Js.Number (Js.Num y) => Qeq_bool x y
  | Js.Number Js.NaN, Js.Number Js.NaN => true
  | Js.Str x, Js.Str y => String.eqb x y
  | Js.Function, Js.Function | Js.Object, Js.Object => true
  | _, _ => false
  end.

(** [[...new Set(l)]] on values. *)
Definition js_set_vals (l : list Js.val) : list Js.val :=
  fold_left (fun s x => if existsb (same_value_zero x) s then s else app s [x]) l [].

(** [getUniqueCurrencies(transactions)] *)
Definition getUniqueCurrencies (transactions : list Transaction) : list Js.val :=
  js_set_vals (filter Js.truthy (map (fun t => tx_get t "currency") transactions)).

(** [calculateTotalValue(transactions)] *)
Definition calculateTotalValue (xe : ExportEnv) (transactions : list Transaction) : Js.num :=
  fold_left (fun sum t => Js.add sum (convertToFlorins_val xe (tx_get t "amount") (tx_get t "currency")))
            transactions (Js.Num 0).

(** [n / k] for a count [k > 0] *)
Definition js_div_count (n : Js.num) (k : nat) : Js.num :=
  match n with
  | Js.Num q => Js.Num (q / inject_Z (Z.of_nat k))
  | Js.NaN => Js.NaN
  end.

(** [calculateAverageTransaction(transactions)] *)
Definition calculateAverageTransaction (xe : ExportEnv) (transactions : list Transaction) : Js.num :=
  let total := calculateTotalValue xe transactions in
  if (0 <? length transactions)%nat then js_div_count total (length transactions) else Js.Num 0.

(** One step of [getCurrencyDistribution]: the own entries
    [key -> (count, totalValue)] of [distribution] in insertion order.  A
    key that names an [Object.prototype] member reads a truthy inherited
    value, so no own entry is made and the increments go to that inherited
    object, not to [distribution]. *)
Definition distribution_step (xe : ExportEnv) (distribution : list (string * (nat * Js.num)))
  (t : Transaction) : list (string * (nat * Js.num)) :=
  let c := tx_get t "currency" in
  if negb (Js.truthy c) then distribution else
  let key := x_to_string xe c in
  let v := convertToFlorins_val xe (tx_get t "amount") c in
  match find (fun e => String.eqb (fst e) key) distribution with
  | Some _ =>
      map (fun e => if String.eqb (fst e) key then (key, (S (fst (snd e)), Js.add (snd (snd e)) v)) else e)
          distribution
  | None =>
      if existsb (String.eqb key) Js.object_prototype_keys then distribution
      else app distribution [(key, (1%nat, Js.add (Js.Num 0) v))]
  end.

(** [getCurrencyDistribution(transactions)] *)
Definition getCurrencyDistribution (xe : ExportEnv) (transactions : list Transaction)
  : list (string * (nat * Js.num)) :=
  fold_left (distribution_step xe) transactions [].

(** One step of [getMonthlyAverages]: entries [monthKey -> (count, total)];
    the keys "YYYY-MM" or "NaN-NaN" never name an [Object.prototype] member. *)
Definition monthly_step (env : Env) (xe : ExportEnv) (monthlyData : list (string * (nat * Js.num)))
  (t : Transaction) : list (string * (nat * Js.num)) :=
  let w := tx_get t "when" in
  if negb (Js.truthy w) then monthlyData else
  let monthKey := match date_of_val env w with
                  | Some d => string_of_Z (getFullYear env d) ++ "-" ++ pad2 (getMonth env d + 1)
                  | None => "NaN-NaN"
                  end in
  let v := convertToFlorins_val xe (tx_get t "amount") (tx_get t "currency") in
  if existsb (fun e => String.eqb (fst e) monthKey) monthlyData
  then map (fun e => if String.eqb (fst e) monthKey then (monthKey, (S (fst (snd e)), Js.add (snd (snd e)) v)) else e)
           monthlyData
  else app monthlyData [(monthKey, (1%nat, Js.add (Js.Num 0) v))].

(** [getMonthlyAverages(transactions)]: [key -> (count, total, average)]. *)
Definition getMonthlyAverages (env : Env) (xe : ExportEnv) (transactions : list Transaction)
  : list (string * (nat * Js.num * Js.num)) :=
  map (fun '(k, (c, tot)) => (k, (c, tot, if (0 <? c)%nat then js_div_count tot c else Js.Num 0)))
      (fold_left (monthly_step env xe) transactions []).

(** An element of the [transactions] array of the JSON export. *)
Record JsonRow := {
  j_date : Js.val; j_entry : Js.val; j_amount : Js.val; j_currency : Js.val; j_type : Js.val;
  j_florinEquivalent : Js.num; j_entities : list string; j_uri : Js.val; j_raw : Js.val
}.

(** The callback of [transactions.map] in [exportToJSON]; [None]: it
    throws ([text.match] of a non-string). *)
Definition json_row (xe : ExportEnv) (t : Transaction) : option JsonRow :=
  let date := Js.or (Js.or (tx_get t "when") (tx_get t "date")) Js.Null in
  let entry := Js.or (tx_get t "entry") (Js.Str "") in
  let amount := Js.or (tx_get t "amount") Js.Null in
  let currency := Js.or (tx_get t "currency") Js.Null in
  let type := Js.or (tx_get t "type") (Js.Str "Transfer") in
  let florin := convertToFlorins_val xe (tx_get t "amount") (tx_get t "currency") in
  match entry with
  | Js.Str e =>
      Some {| j_date := date; j_entry := entry; j_amount := amount; j_currency := currency;
              j_type := type; j_florinEquivalent := florin; j_entities := extractEntities xe e;
              j_uri := Js.or (tx_get t "uri") Js.Null; j_raw := Js.or (tx_get t "raw") Js.Null |}
  | _ => None
  end.

(** The [exportData] object of [exportToJSON] (without [exportDate],
    [source] and the caller's [metadata] entries). *)
Record JsonExport := {
  recordCount : nat;
  dateRange : option (string * string);
  currencies : list Js.val;
  rows : list JsonRow;
  totalValue : Js.num;
  averageTransaction : Js.num;
  currencyDistribution : list (string * (nat * Js.num));
  monthlyAverages : list (string * (nat * Js.num * Js.num))
}.

(** [exportToJSON(transactions, metadata)]: the data it writes when it
    returns [true]; [None] when it returns [false]. *)
Definition exportToJSON (env : Env) (xe : ExportEnv) (transactions : list Transaction)
  : option JsonExport :=
  match getDateRange env transactions with
  | None => None
  | Some range =>
      let cur := getUniqueCurrencies transactions in
      match map_opt (json_row xe) transactions with
      | None => None
      | Some rs =>
          Some {| recordCount := length transactions; dateRange := range; currencies := cur;
                  rows := rs;
                  totalValue := calculateTotalValue xe transactions;
                  averageTransaction := calculateAverageTransaction xe transactions;
                  currencyDistribution := getCurrencyDistribution xe transactions;
                  monthlyAverages := getMonthlyAverages env xe transactions |}
      end
  end.

(** *** A reader of the CSV format (RFC 4180), to read rows back *)

(** A text [escapeCSV] leaves as it is: no comma, double quote or line break. *)
Definition csv_plain (s : string) : bool :=
  negb (includes s "," || includes s (String quote_char EmptyString)
        || includes s (String newline_char EmptyString)).

(** The rest of a quoted field after its opening quote: its content and
    what follows the closing quote. *)
Fixpoint read_quoted (s : string) : option (string * string) :=
  match s with
  | EmptyString => None
  | String c s' =>
      if Ascii.eqb c quote_char then
        match s' with
        | String c2 s'' =>
            if Ascii.eqb c2 quote_char
            then option_map (fun p => (String quote_char (fst p), snd p)) (read_quoted s'')
            else Some (EmptyString, s')
        | EmptyString => Some (EmptyString, EmptyString)
        end
      else option_map (fun p => (String c (fst p), snd p)) (read_quoted s')
  end.

(** An unquoted field: up to the next comma or line break. *)
Fixpoint read_plain (s : string) : string * string :=
  match s with
  | EmptyString => (EmptyString, EmptyString)
  | String c s' =>
      if Ascii.eqb c ","%char || Ascii.eqb c newline_char then (EmptyString, s)
      else let p := read_plain s' in (String c (fst p), snd p)
  end.

Definition read_field (s : string) : option (string * string) :=
  match s with
  | String c s' => if Ascii.eqb c quote_char then read_quoted s' else Some (read_plain s)
  | EmptyString => Some (EmptyString, EmptyString)
  end.

(** The fields of one record and the text after its line break. *)
Fixpoint read_row_fuel (fuel : nat) (s : string) : option (list string * string) :=
  match fuel with
  | O => None
  | S fuel' =>
      match read_field s with
      | None => None
      | Some (f, rest) =>
          match rest with
          | EmptyString => Some ([f], EmptyString)
          | String c r =>
              if Ascii.eqb c ","%char
              then option_map (fun p => (f :: fst p, snd p)) (read_row_fuel fuel' r)
              else if Ascii.eqb c newline_char then Some ([f], r)
              else None
          end
      end
  end.

Definition read_row (s : string) : option (list string * string) :=
  read_row_fuel (S (String.length s)) s.

(** A record written as [exportToCSV] writes it: fields escaped, joined with commas. *)
Definition csv_line (fs : list string) : string := String.concat "," (map escapeCSV fs).

(** All the records of a text, one per line. *)
Fixpoint read_rows_fuel (fuel : nat) (s : string) : option (list (list string)) :=
  match fuel with
  | O => None
  | S fuel' =>
      match read_row s with
      | None => None
      | Some (fs, EmptyString) => Some [fs]
      | Some (fs, r) => option_map (cons fs) (read_rows_fuel fuel' r)
      end
  end.

Definition read_rows (s : string) : option (list (list string)) :=
  read_rows_fuel (S (String.length s)) s.

(** ** The PDF report ([src/pdfExporter.js], [PDFExporter]) *)

(** The [rates] literal of [PDFExporter.convertToFlorins]. *)
Definition pdf_rates : list (string * Js.val) :=
  [("f", rate 1); ("s", rate (5 # 100)); ("d", rate (4167 # 1000000));
   ("gr", rate (625 # 10000)); ("t", rate (5 # 10)); ("l", rate 1);
   ("p", rate (4167 # 1000000))].

(** [PDFExporter.convertToFlorins(amount, currency)] *)
Definition pdf_convertToFlorins (amount : Q) (currency : string) : Js.num :=
  Js.mul (Js.Num amount) (Js.to_number (Js.or (Js.get pdf_rates currency) (rate 1))).

(** One iteration of [t.amounts.forEach] in [PDFExporter.getCurrencyDistribution]:
    the own entries [currency -> (count, totalValue)] of [distribution] in
    insertion order, and [totalCount].  A currency that names an
    [Object.prototype] member reads a truthy inherited value: no own entry
    is made, the increments go to that inherited object, and [totalCount]
    still grows. *)
Definition pdf_distribution_step (acc : list (string * (nat * Js.num)) * nat) (a : Amount)
  : list (string * (nat * Js.num)) * nat :=
  let '(distribution, totalCount) := acc in
  let c := currency a in
  let v := pdf_convertToFlorins (amount a) c in
  match find (fun e => String.eqb (fst e) c) distribution with
  | Some _ =>
      (map (fun e => if String.eqb (fst e) c then (c, (S (fst (snd e)), Js.add (snd (snd e)) v)) else e)
           distribution, S totalCount)
  | None =>
      if existsb (String.eqb c) Js.object_prototype_keys then (distribution, S totalCount)
      else (app distribution [(c, (1%nat, Js.add (Js.Num 0) v))], S totalCount)
  end.

(** [PDFExporter.getCurrencyDistribution(transactions)]: entries
    [currency -> (count, totalValue, percentage)].  The percentage
    [(count / totalCount) * 100] is rounded twice in binary floating point,
    which the rational numbers of this model do not reproduce, so that
    operation is the parameter [percent count totalCount]. *)
Definition pdf_getCurrencyDistribution (percent : nat -> nat -> Js.num) (transactions : list Transaction)
  : list (string * (nat * Js.num * Js.num)) :=
  let '(distribution, totalCount) :=
    fold_left (fun acc t => fold_left pdf_distribution_step (amounts t) acc) transactions ([], 0%nat) in
  map (fun '(k, (c, v)) => (k, (c, v, percent c totalCount))) distribution.

(** [truncateText(text, maxLength)] ([text.length] in code units; a
    [substring] end below 0 is taken as 0, as [maxLength - 3] on [nat]). *)
Definition truncateText (text : string) (maxLength : nat) : string :=
  if (String.length text <=? maxLength)%nat then text
  else (substring 0 (maxLength - 3) text ++ "...").

(** A row of [tableData] in [addTransactionTable]. *)
Definition pdf_table_row (xe : ExportEnv) (t : Transaction) : list string :=
  [or_str (date t) "N/A";
   truncateText (or_str (entry t) "") 40;
   match amounts t with
   | [] => "N/A"
   | _ => String.concat ", "
            (map (fun a => number_string xe (Js.Num (amount a)) ++ " " ++ currency a) (amounts t))
   end;
   or_str (type t) "Unknown"].

(** [tableData] of [addTransactionTable]: the first 100 transactions. *)
Definition pdf_table_data (xe : ExportEnv) (transactions : list Transaction) : list (list string) :=
  map (pdf_table_row xe) (firstn 100 transactions).

(** The note written under the table, if any ([autoTable]: whether
    [doc.autoTable] is present; without it nothing is drawn). *)
Definition pdf_table_note (autoTable : bool) (transactions : list Transaction) : option string :=
  if autoTable && (100 <? length transactions)%nat then
    Some ("Note: Showing first 100 of " ++ string_of_N (N.of_nat (length transactions))
          ++ " transactions. Export to CSV for complete data.")
  else None.

(** What [calculateStatistics] needs of the engine beyond the values: the
    source text of an inherited [Object.prototype] method (a key like
    [toString] reads it), and [String.prototype.toUpperCase]. *)
Record PdfEnv := {
  fn_source : string -> string;
  upper : string -> string
}.

(** [v + 1] for the value [v] that [currencyCount[k] || 0] reads. *)
Definition js_plus_one (pe : PdfEnv) (k : string) (v : Js.val) : Js.val :=
  match v with
  | Js.Number n => Js.Number (Js.add n (Js.Num 1))
  | Js.Str s => Js.Str (s ++ "1")
  | Js.Function => Js.Str (fn_source pe k ++ "1")
  | Js.Object => Js.Str "[object Object]1"
  | Js.Bool b => Js.Number (Js.Num (if b then 2 else 1))
  | Js.Null => Js.Number (Js.Num 1)
  | Js.Undefined => Js.Number Js.NaN
  end.

(** [o[k] = v] on the own properties of an object literal. *)
Fixpoint set_own (own : list (string * Js.val)) (k : string) (v : Js.val) : list (string * Js.val) :=
  match own with
  | [] => [(k, v)]
  | (k', v') :: r => if String.eqb k k' then (k', v) :: r else (k', v') :: set_own r k v
  end.

(** One iteration of [t.amounts.forEach] in [calculateStatistics]:
    [currencyCount[a.currency] = (currencyCount[a.currency] || 0) + 1].
    Assigning a string to [__proto__] does nothing. *)
Definition currency_count_step (pe : PdfEnv) (own : list (string * Js.val)) (a : Amount)
  : list (string * Js.val) :=
  let c := currency a in
  let v := js_plus_one pe c (Js.or (Js.get own c) (Js.Number (Js.Num 0))) in
  if String.eqb c "__proto__" then own else set_own own c v.

(** A key that is an array index (a canonical decimal below 2^32 - 1). *)
Definition is_array_index (k : string) : bool :=
  negb (String.eqb k "") && all_digits k
  && (String.eqb k "0" || negb (String.prefix "0" k))
  && (digits_value k <? 4294967295)%N.

(** [Object.entries(o)]: the array-index keys in increasing order, then the
    other keys in insertion order. *)
Definition object_entries (own : list (string * Js.val)) : list (string * Js.val) :=
  js_sort (fun x y => Js.Num (inject_Z (Z.of_N (digits_value (fst x)) - Z.of_N (digits_value (fst y)))))
          (filter (fun e => is_array_index (fst e)) own)
  ++ filter (fun e => negb (is_array_index (fst e))) own.

(** The [names] literal of [getCurrencyName]. *)
Definition pdf_currency_names : list (string * Js.val) :=
  [("f", Js.Str "Florin"); ("s", Js.Str "Shilling"); ("d", Js.Str "Denarius");
   ("gr", Js.Str "Groschen"); ("t", Js.Str "Taler"); ("l", Js.Str "Pound");
   ("p", Js.Str "Pfennig")].

(** [getCurrencyName(code)] *)
Definition getCurrencyName (pe : PdfEnv) (code : string) : Js.val :=
  Js.or (Js.get pdf_currency_names code) (Js.Str (upper pe code)).

(** The [stats] object of [calculateStatistics]. *)
Record PdfStats := {
  totalCount : nat;
  stats_totalValue : Js.num;
  averageValue : Js.num;
  stats_dateRange : string;
  uniqueEntities : nat;
  mostCommonCurrency : Js.val
}.

(** [calculateStatistics(transactions)] *)
Definition calculateStatistics (pe : PdfEnv) (transactions : list Transaction) : PdfStats :=
  match transactions with
  | [] => {| totalCount := 0; stats_totalValue := Js.Num 0; averageValue := Js.Num 0;
             stats_dateRange := "N/A"; uniqueEntities := 0; mostCommonCurrency := Js.Str "N/A" |}
  | _ =>
      let totalValue :=
        fold_left (fun sum t => Js.add sum (Js.to_number (Js.or (Js.Number (totalFlorinValue t))
                                                                (Js.Number (Js.Num 0)))))
                  transactions (Js.Num 0) in
      let averageValue := js_div_count totalValue (length transactions) in
      let dates := js_sort default_sort_compare
                     (map date (filter (fun t => Js.truthy (Js.Str (date t))) transactions)) in
      let dateRange := match dates with
                       | [] => "N/A"
                       | d :: _ => d ++ " to " ++ last dates ""
                       end in
      let entities := js_set (flat_map people transactions) in
      let currencyCount :=
        fold_left (fun own t => fold_left (currency_count_step pe) (amounts t) own) transactions [] in
      let mostCommon :=
        match js_sort (fun a b => Js.sub (Js.to_number (snd b)) (Js.to_number (snd a)))
                      (object_entries currencyCount) with
        | [] => Js.Str "N/A"
        | (k, _) :: _ => getCurrencyName pe k
        end in
      {| totalCount := length transactions; stats_totalValue := totalValue;
         averageValue := averageValue; stats_dateRange := dateRange;
         uniqueEntities := length entities; mostCommonCurrency := mostCommon |}
  end.

(** ** The logger ([src/logger.js], [AlderbachLogger] and [ChartTester]) *)

(** A stored critical log; its [data] and [timestamp] are not modelled. *)
Record LogEntry := {
  level : string;
  message : string
}.

(** [this.metrics] *)
Record Metrics := {
  dataLoads : nat;
  chartUpdates : nat;
  searches : nat;
  exports : nat;
  errors : nat
}.

(** The state a logger method reads and writes: its level, its metrics and
    the array stored under [aldersbach_logs] in [localStorage] (taken to be
    written by this logger only, and writable). *)
Record Logger := {
  logLevel : nat;
  metrics : Metrics;
  stored : list LogEntry
}.

(** [getLogLevel()], from the [debug] URL parameter and the host name. *)
Definition getLogLevel (debugParam : option string) (hostname : string) : nat :=
  match debugParam with
  | Some p =>
      if String.eqb p "verbose" then 4
      else if String.eqb p "info" then 3
      else if String.eqb p "warn" then 2
      else if String.eqb p "error" then 1
      else if String.eqb hostname "localhost" then 3 else 2
  | None => if String.eqb hostname "localhost" then 3 else 2
  end.

(** [getNumericLevel(level)] on the level names passed in this file. *)
Definition getNumericLevel (level : string) : nat :=
  if String.eqb level "debug" then 4
  else if String.eqb level "info" then 3
  else if String.eqb level "warn" then 2
  else if String.eqb level "error" then 1
  else 0.

(** [storeCriticalLog(logEntry)]: push, then keep the last 100. *)
Definition storeCriticalLog (stored : list LogEntry) (logEntry : LogEntry) : list LogEntry :=
  let s := (stored ++ [logEntry])%list in
  if (100 <? length s)%nat then skipn (length s - 100) s else s.

Definition with_metrics (lg : Logger) (m : Metrics) : Logger :=
  {| logLevel := logLevel lg; metrics := m; stored := stored lg |}.

Definition with_stored (lg : Logger) (s : list LogEntry) : Logger :=
  {| logLevel := logLevel lg; metrics := metrics lg; stored := s |}.

(** [log(level, message)]: the console output is not modelled. *)
Definition log (lg : Logger) (level message : string) : Logger :=
  if (logLevel lg <? getNumericLevel level)%nat then lg
  else if String.eqb level "error" || String.eqb level "warn"
       then with_stored lg (storeCriticalLog (stored lg) {| level := level; message := message |})
       else lg.

Definition bump_errors (m : Metrics) : Metrics :=
  {| dataLoads := dataLoads m; chartUpdates := chartUpdates m; searches := searches m;
     exports := exports m; errors := S (errors m) |}.

Definition debug (lg : Logger) (message : string) : Logger := log lg "debug" message.

Definition info (lg : Logger) (message : string) : Logger := log lg "info" message.

Definition warn (lg : Logger) (message : string) : Logger :=
  let lg' := log lg "warn" message in with_metrics lg' (bump_errors (metrics lg')).

Definition error (lg : Logger) (message : string) : Logger :=
  let lg' := log lg "error" message in with_metrics lg' (bump_errors (metrics lg')).

Definition success (lg : Logger) (message : string) : Logger := log lg "info" ("✓ " ++ message).

(** [this.metrics[metric]++] when [this.metrics.hasOwnProperty(metric)]. *)
Definition metric_incr (m : Metrics) (metric : string) : option Metrics :=
  if String.eqb metric "dataLoads" then
    Some {| dataLoads := S (dataLoads m); chartUpdates := chartUpdates m; searches := searches m;
            exports := exports m; errors := errors m |}
  else if String.eqb metric "chartUpdates" then
    Some {| dataLoads := dataLoads m; chartUpdates := S (chartUpdates m); searches := searches m;
            exports := exports m; errors := errors m |}
  else if String.eqb metric "searches" then
    Some {| dataLoads := dataLoads m; chartUpdates := chartUpdates m; searches := S (searches m);
            exports := exports m; errors := errors m |}
  else if String.eqb metric "exports" then
    Some {| dataLoads := dataLoads m; chartUpdates := chartUpdates m; searches := searches m;
            exports := S (exports m); errors := errors m |}
  else if String.eqb metric "errors" then Some (bump_errors m)
  else None.

(** [incrementMetric(metric)] *)
Definition incrementMetric (lg : Logger) (metric : string) : Logger :=
  match metric_incr (metrics lg) metric with
  | Some m => debug (with_metrics lg m) ("Metric incremented: " ++ metric)
  | None => lg
  end.

Definition logDataLoad (lg : Logger) : Logger :=
  success (incrementMetric lg "dataLoads") "Data loaded successfully".

Definition logChartUpdate (lg : Logger) : Logger :=
  debug (incrementMetric lg "chartUpdates") "Chart updated".

Definition logSearch (lg : Logger) : Logger :=
  debug (incrementMetric lg "searches") "Search performed".

Definition logExport (lg : Logger) : Logger :=
  success (incrementMetric lg "exports") "Export completed".

(** [endTimer(timerId, operation)] once the measure has given [duration]
    (rounded, so a natural number). *)
Definition endTimer (lg : Logger) (duration : nat) (operation : string) : Logger :=
  if (100 <? duration)%nat then warn lg ("Slow " ++ operation)
  else debug lg (operation ++ " completed").

(** [clearLogs()] *)
Definition clearLogs (lg : Logger) : Logger := info (with_stored lg []) "Stored logs cleared".

(** The calls a page makes on [window.Logger]. *)
Inductive LogEvent :=
| EvDebug (message : string)
| EvInfo (message : string)
| EvWarn (message : string)
| EvError (message : string)
| EvSuccess (message : string)
| EvIncrement (metric : string)
| EvDataLoad
| EvChartUpdate
| EvSearch
| EvExport
| EvEndTimer (duration : nat) (operation : string)
| EvClearLogs.

Definition logger_step (lg : Logger) (ev : LogEvent) : Logger :=
  match ev with
  | EvDebug m => debug lg m
  | EvInfo m => info lg m
  | EvWarn m => warn lg m
  | EvError m => error lg m
  | EvSuccess m => success lg m
  | EvIncrement metric => incrementMetric lg metric
  | EvDataLoad => logDataLoad lg
  | EvChartUpdate => logChartUpdate lg
  | EvSearch => logSearch lg
  | EvExport => logExport lg
  | EvEndTimer d op => endTimer lg d op
  | EvClearLogs => clearLogs lg
  end.

Definition logger_run (lg : Logger) (evs : list LogEvent) : Logger := fold_left logger_step evs lg.








(** ** Sample inputs of the dashboard views *)

(** An environment of the export in which no text has name or place
    matches and numbers print as [0]. *)
Definition xe_sample : ExportEnv := {|
  number_string := fun _ => "0";
  function_string := "function () { [native code] }";
  string_number := fun _ => Js.NaN;
  name_matches := fun _ => [];
  place_matches := fun _ => []
|}.

(** An engine for the PDF report whose inherited methods print as native
    code and whose [toUpperCase] is the identity (only reached for codes
    that are not in the [names] table). *)
Definition pe_sample : PdfEnv := {|
  fn_source := fun k => ("function " ++ k ++ "() { [native code] }")%string;
  upper := fun s => s
|}.

(** Two transactions with shillings and florins: two of each. *)
Definition pdf_tx_sample : list Transaction :=
  [tx 0 "1500-01-02" "a" [amt 2 "s"; amt 30 "f"] 3; tx 1 "" "b" [amt 1 "f"; amt 4 "s"] 1].

(** A fresh logger on a server host opened with [?debug=error]. *)
Definition logger_sample : Logger := {|
  logLevel := getLogLevel (Some "error") "chpollin.github.io";
  metrics := {| dataLoads := 0; chartUpdates := 0; searches := 0; exports := 0; errors := 0 |};
  stored := []
|}.

(** A warning, an error, a clear, a slow timer, an error and a manual
    increment of [errors]. *)
Definition logger_events_sample : list LogEvent :=
  [EvWarn "Long task detected"; EvError "Global error caught"; EvClearLogs;
   EvEndTimer 250 "render"; EvError "Chart failed"; EvIncrement "errors"].


(** Sixty undated transactions: two pages of the table. *)
Definition tx_page_sample : list Transaction := map (fun n => tx n "" "item" [] 1) (seq 0 60).

(** Four dated transactions in three months of two years, and an undated one. *)
Definition tx_dated_sample : list Transaction :=
  [tx 0 "1500-01-01" "a" [] 2; tx 1 "1500-01-20" "b" [] 3; tx 2 "" "c" [] 4;
   tx 3 "1499-12-31" "d" [] 1; tx 4 "1500-04-02" "e" [] 5].

(** A record whose date text has the ISO shape and a year in range but the
    month 13. *)
Definition recs_bad_date : list RawTransaction := [raw "item" "1500-13-01" "1" "f"].

(** A transaction of 1 January 1970, the day of the time value 0. *)
Definition tx_epoch_day : Transaction := tx 0 "1970-01-01" "item" [amt 5 "f"] 5.
(** * Properties *)

Open Scope nat_scope.
Open Scope list_scope.

(** ** The stable sort *)
Section JsSort.
  Variable A : Type.
  Variable cmp : A -> A -> Js.num.

Lemma insert_by_perm (x : A) (l : list A) : Permutation (insert_by cmp x l) (x :: l).
  Proof.
    induction l as [|y ys IH]; simpl; [reflexivity|].
    destruct (num_lt0 (cmp x y)); [reflexivity|].
    rewrite IH. apply perm_swap.
  Qed.

Lemma js_sort_perm_acc (l acc : list A) :
    Permutation (fold_left (fun acc x => insert_by cmp x acc) l acc) (l ++ acc).
  Proof.
    revert acc; induction l as [|x l IH]; intros acc; simpl; [reflexivity|].
    rewrite IH, insert_by_perm. symmetry. apply Permutation_middle.
  Qed.

Lemma js_sort_perm (l : list A) : Permutation (js_sort cmp l) l.
  Proof. unfold js_sort. rewrite js_sort_perm_acc, app_nil_r. reflexivity. Qed.

Lemma js_sort_noop (Hnan : forall x y, num_lt0 (cmp x y) = false) (l : list A) :
    js_sort cmp l = l.
  Proof.
    assert (Hins : forall x acc, insert_by cmp x acc = app acc [x]).
    { intros x acc; induction acc as [|y ys IH]; simpl; [reflexivity|].
      rewrite Hnan, IH. reflexivity. }
    unfold js_sort.
    change l with (app [] l) at 2.
    generalize (@nil A) as acc.
    induction l as [|x l IH]; intros acc; simpl; [symmetry; apply app_nil_r|].
    rewrite Hins, IH, <- app_assoc. reflexivity.
  Qed.

  Variable R : A -> A -> Prop.
  Hypothesis cmp_lt : forall x y, num_lt0 (cmp x y) = true -> R x y.
  Hypothesis cmp_ge : forall x y, num_lt0 (cmp x y) = false -> R y x.

Lemma insert_by_hdrel (x y : A) (l : list A) :
    HdRel R y l -> R y x -> HdRel R y (insert_by cmp x l).
  Proof.
    intros Hh Hyx. destruct l as [|z zs]; simpl.
    - constructor; assumption.
    - destruct (num_lt0 (cmp x z)); constructor; [assumption|].
      inversion Hh; assumption.
  Qed.

Lemma insert_by_sorted (x : A) (l : list A) : Sorted R l -> Sorted R (insert_by cmp x l).
  Proof.
    induction l as [|y ys IH]; intros Hs; simpl.
    - repeat constructor.
    - destruct (num_lt0 (cmp x y)) eqn:E.
      + constructor; [assumption|]. constructor. apply cmp_lt; assumption.
      + apply Sorted_inv in Hs as [Hys Hh].
        constructor; [apply IH; assumption|].
        apply insert_by_hdrel; [assumption|]. apply cmp_ge; assumption.
  Qed.

Lemma js_sort_sorted (l : list A) : Sorted R (js_sort cmp l).
  Proof.
    unfold js_sort.
    assert (Hacc : forall acc, Sorted R acc ->
                   Sorted R (fold_left (fun acc x => insert_by cmp x acc) l acc)).
    { induction l as [|x l IH]; intros acc Hs; simpl; [assumption|].
      apply IH, insert_by_sorted, Hs. }
    apply Hacc; constructor.
  Qed.
End JsSort.

Lemma in_firstn_in {A} (n : nat) (l : list A) (x : A) : In x (firstn n l) -> In x l.
Proof.
  revert l; induction n as [|n IH]; intros [|y l] H; simpl in *; try contradiction.
  destruct H as [H|H]; [left; assumption|right; apply IH; assumption].
Qed.

(** ** Sorting by date *)









(** ** Related transactions *)

Lemma related_comparator_nan (a b : Ref) : num_lt0 (related_comparator a b) = false.
Proof. reflexivity. Qed.

(** The [related] array is the prefix of length 5 of the pool's objects
    other than the target whose score is positive, in pool order. *)
Lemma loadRelatedTab_pool_order (env : Env) (target : Ref) (pool : list Ref) :
  loadRelatedTab env target pool
  = firstn 5 (filter (fun t => negb (loc t =? loc target)%nat
                               && (0 <? related_score env (obj target) (obj t))%nat) pool).
Proof.
  unfold loadRelatedTab.
  assert (Hid : forall l : list Ref, filter (fun _ => true) l = l)
    by (induction l; simpl; congruence).
  rewrite Hid.
  rewrite (js_sort_noop _ _ related_comparator_nan).
  f_equal.
  induction pool as [|t pool IH]; simpl; [reflexivity|].
  rewrite IH. unfold related_callback.
  destruct (loc t =? loc target)%nat; simpl; [reflexivity|].
  destruct (0 <? related_score env (obj target) (obj t))%nat; reflexivity.
Qed.

(** C5 (code_bug): on the pool [target; c1; c2] where [c1] scores 1 and
    [c2] scores 3, the related list is [c1; c2]: the transaction objects
    themselves, in pool order, not [{transaction, score}] pairs sorted by
    descending score. *)
Theorem loadRelatedTab_not_sorted_by_score :
  loadRelatedTab env_utc rel_target rel_pool = [rel_c1; rel_c2]
  /\ related_score env_utc (obj rel_target) (obj rel_c1) = 1%nat
  /\ related_score env_utc (obj rel_target) (obj rel_c2) = 3%nat.
Proof. vm_compute. repeat split. Qed.

(** C6: the related list never contains the target object itself, and
    never a candidate of score 0. *)
Theorem loadRelatedTab_excludes (env : Env) (target : Ref) (pool : list Ref) (r : Ref)
  (Hin : In r (loadRelatedTab env target pool)) :
  loc r <> loc target /\ (0 < related_score env (obj target) (obj r))%nat.
Proof.
  rewrite loadRelatedTab_pool_order in Hin.
  apply in_firstn_in, filter_In in Hin as [_ Hp].
  apply andb_prop in Hp as [H1 H2].
  apply negb_true_iff, Nat.eqb_neq in H1.
  apply Nat.ltb_lt in H2. split; assumption.
Qed.

Lemma loadRelatedTab_excludes_witness :
  In rel_c1 (loadRelatedTab env_utc rel_target rel_pool)
  /\ loc rel_c1 <> loc rel_target
  /\ (0 < related_score env_utc (obj rel_target) (obj rel_c1))%nat.
Proof.
  assert (H : In rel_c1 (loadRelatedTab env_utc rel_target rel_pool)).
  { vm_compute. left. reflexivity. }
  split; [exact H|]. apply (loadRelatedTab_excludes env_utc rel_target rel_pool rel_c1 H).
Defined.

(** ** Loading: [parseXMLData] *)

Lemma parse_record_id (env : Env) (i len : nat) (r : RawTransaction) (t : Transaction) :
  parse_record env i len r = Some t -> id t = len.
Proof.
  unfold parse_record.
  destruct (fold_left money_step (money r) ([], Js.Num 0)) as [ams tot].
  destruct (Js.truthy (Js.Str (entryText r))); intros H; inversion H; reflexivity.
Qed.

Lemma parse_step_ids (env : Env) (i : nat) (r : RawTransaction) (ts : list Transaction) :
  map id ts = seq 0 (length ts) ->
  map id (parse_step env i r ts) = seq 0 (length (parse_step env i r ts)).
Proof.
  intros H. unfold parse_step.
  destruct (parse_record env i (length ts) r) as [t|] eqn:E; [|exact H].
  apply parse_record_id in E.
  rewrite map_app, length_app, seq_app, H. simpl. rewrite E. reflexivity.
Qed.

Lemma parse_loop_ids (env : Env) (recs : list RawTransaction) :
  forall i ts, map id ts = seq 0 (length ts) ->
  map id (parse_loop env i recs ts) = seq 0 (length (parse_loop env i recs ts)).
Proof.
  induction recs as [|r rs IH]; intros i ts H; simpl; [exact H|].
  apply IH, parse_step_ids, H.
Qed.

Lemma ids_nth (l : list Transaction) :
  forall k, map id l = seq k (length l) ->
  forall i t, nth_error l i = Some t -> id t = k + i.
Proof.
  induction l as [|u l IH]; intros k H i t Hi; [destruct i; discriminate|].
  simpl in H. injection H as Hu Hl.
  destruct i as [|i]; simpl in Hi.
  - injection Hi as <-. lia.
  - rewrite (IH (S k) Hl i t Hi). lia.
Qed.

Lemma ids_find (l : list Transaction) :
  forall k, map id l = seq k (length l) ->
  forall t, In t l -> find (fun u => (id u =? id t)%nat) l = Some t.
Proof.
  induction l as [|u l IH]; intros k H t Hin; [contradiction|].
  simpl in H. injection H as Hu Hl. simpl.
  destruct Hin as [<-|Hin]; [rewrite Nat.eqb_refl; reflexivity|].
  assert (Ht : k < id t).
  { apply In_nth_error in Hin as [i Hi]. rewrite (ids_nth l (S k) Hl i t Hi). lia. }
  rewrite Hu. destruct (k =? id t)%nat eqn:E; [apply Nat.eqb_eq in E; lia|].
  apply (IH (S k) Hl t Hin).
Qed.

(** C10: after a load, the ids of the stored transactions are [0 .. n-1]
    in array order (whatever records were skipped), each transaction's id
    is its index, and the lookup [transactions.find(t => t.id === id)] of
    [openTransactionModal] finds every stored transaction by its id. *)
Theorem parseXMLData_ids (env : Env) (recs : list RawTransaction) :
  map id (parseXMLData env recs) = seq 0 (length (parseXMLData env recs))
  /\ (forall i t, nth_error (parseXMLData env recs) i = Some t -> id t = i)
  /\ (forall t, In t (parseXMLData env recs) ->
        find (fun u => (id u =? id t)%nat) (parseXMLData env recs) = Some t).
Proof.
  assert (H : map id (parseXMLData env recs) = seq 0 (length (parseXMLData env recs)))
    by (apply parse_loop_ids; reflexivity).
  split; [exact H|]. split.
  - intros i t Hi. apply (ids_nth _ 0 H i t Hi).
  - apply (ids_find _ 0 H).
Qed.

Lemma parseXMLData_ids_witness :
  In (nth 1 (parseXMLData env_utc recs0) tx_default) (parseXMLData env_utc recs0)
  /\ find (fun u => (id u =? id (nth 1 (parseXMLData env_utc recs0) tx_default))%nat)
          (parseXMLData env_utc recs0)
     = Some (nth 1 (parseXMLData env_utc recs0) tx_default).
Proof.
  assert (H : In (nth 1 (parseXMLData env_utc recs0) tx_default) (parseXMLData env_utc recs0)).
  { vm_compute. right. left. reflexivity. }
  split; [exact H|]. apply (proj2 (proj2 (parseXMLData_ids env_utc recs0)) _ H).
Defined.

Lemma firstn_length_app {A} (l u : list A) : firstn (length l) (l ++ u) = l.
Proof. induction l as [|x l IH]; simpl; [reflexivity|]. rewrite IH. reflexivity. Qed.

Lemma parse_loop_extends (env : Env) (recs : list RawTransaction) :
  forall i ts, exists u, parse_loop env i recs ts = ts ++ u.
Proof.
  induction recs as [|r rs IH]; intros i ts; simpl.
  - exists []. symmetry. apply app_nil_r.
  - destruct (IH (S i) (parse_step env i r ts)) as [u Hu]. rewrite Hu.
    unfold parse_step. destruct (parse_record env i (length ts) r).
    + exists (t :: u). rewrite <- app_assoc. reflexivity.
    + exists u. reflexivity.
Qed.

Lemma parse_trace_prefixes (env : Env) (recs : list RawTransaction) :
  forall i ts s, In s (parse_trace env i recs ts) ->
  exists k, s = firstn k (parse_loop env i recs ts).
Proof.
  induction recs as [|r rs IH]; intros i ts s Hin; simpl in Hin.
  - destruct Hin as [Hs|[]]. subst s. exists (length ts). simpl.
    symmetry. apply firstn_all.
  - destruct Hin as [Hs|Hin].
    + subst s. destruct (parse_loop_extends env (r :: rs) i ts) as [u Hu].
      exists (length ts). rewrite Hu. symmetry. apply firstn_length_app.
    + simpl. apply (IH (S i) _ s Hin).
Qed.

Lemma parse_trace_last (env : Env) (recs : list RawTransaction) :
  forall i ts d, last (parse_trace env i recs ts) d = parse_loop env i recs ts.
Proof.
  induction recs as [|r rs IH]; intros i ts d; [reflexivity|].
  simpl parse_loop. rewrite <- (IH (S i) (parse_step env i r ts) d).
  destruct rs; reflexivity.
Qed.

(** C1 (counterexample): loading two records over a collection of three
    transactions, [this.transactions] passes through the array holding only
    the first new transaction, which is neither the old collection nor the
    new one. *)
Lemma load_partial_state :
  exists s, In s (load_trace env_utc old3 [raw "x" "" "1" "f"; raw "y" "" "1" "f"])
    /\ s <> old3 /\ s <> parseXMLData env_utc [raw "x" "" "1" "f"; raw "y" "" "1" "f"].
Proof.
  exists (firstn 1 (parseXMLData env_utc [raw "x" "" "1" "f"; raw "y" "" "1" "f"])).
  split; [vm_compute; right; right; left; reflexivity|].
  split; intros H; apply (f_equal (@length _)) in H; vm_compute in H; discriminate.
Qed.

(** C1 (amended): during a load [this.transactions] first holds the old
    collection, then a new empty array, which grows by one transaction per
    kept record: every value after the old collection is a prefix of the
    new collection, and the last one is the complete new collection. *)
Theorem load_trace_prefixes (env : Env) (old : list Transaction) (recs : list RawTransaction) :
  hd_error (load_trace env old recs) = Some old
  /\ nth_error (load_trace env old recs) 1 = Some []
  /\ last (load_trace env old recs) old = parseXMLData env recs
  /\ (forall s, In s (tl (load_trace env old recs)) ->
        exists k, s = firstn k (parseXMLData env recs)).
Proof.
  split; [reflexivity|]. split; [destruct recs; reflexivity|]. split.
  - unfold load_trace, parseXMLData.
    rewrite <- (parse_trace_last env recs 0 [] old).
    destruct recs; reflexivity.
  - intros s Hs. apply (parse_trace_prefixes env recs 0 [] s Hs).
Qed.

Lemma load_trace_prefixes_witness :
  In [] (tl (load_trace env_utc old3 recs0))
  /\ exists k, @nil Transaction = firstn k (parseXMLData env_utc recs0).
Proof.
  assert (H : In [] (tl (load_trace env_utc old3 recs0))) by (vm_compute; left; reflexivity).
  split; [exact H|]. apply (proj2 (proj2 (proj2 (load_trace_prefixes env_utc old3 recs0))) _ H).
Defined.

(** ** Currency conversion *)

Lemma unknown_not_own (c : string) :
  isValidCurrency c = false -> Js.assoc c rates = None /\ Js.assoc c conversionRates = None.
Proof.
  unfold isValidCurrency, rates, conversionRates; simpl. intros H.
  repeat match goal with
         | |- context [String.eqb c ?k] => destruct (String.eqb c k); simpl in H; [discriminate|]
         end.
  split; reflexivity.
Qed.

Lemma not_prototype_key (c : string) :
  ~ In c Js.object_prototype_keys -> existsb (String.eqb c) Js.object_prototype_keys = false.
Proof.
  intros H. destruct (existsb (String.eqb c) Js.object_prototype_keys) eqn:E; [|reflexivity].
  apply existsb_exists in E as [x [Hx Hc]]. apply String.eqb_eq in Hc. subst x. contradiction.
Qed.

(** [convertToFlorin] is [0] at a code that is neither known nor a name
    inherited from [Object.prototype]. *)
Lemma convertToFlorin_unknown (a : Q) (c : string) :
  isValidCurrency c = false -> ~ In c Js.object_prototype_keys -> convertToFlorin a c = Js.Num 0.
Proof.
  intros Hv Hp. unfold convertToFlorin, Js.get.
  rewrite (proj1 (unknown_not_own c Hv)), (not_prototype_key c Hp). reflexivity.
Qed.

(** [convertToFlorin] multiplies by the rate of each known code. *)
Lemma convertToFlorin_known (a : Q) :
  convertToFlorin a "f" = Js.Num (a * 1) /\ convertToFlorin a "s" = Js.Num (a * (1 # 30))
  /\ convertToFlorin a "d" = Js.Num (a * (1 # 240)) /\ convertToFlorin a "gr" = Js.Num (a * (1 # 20))
  /\ convertToFlorin a "t" = Js.Num (a * (1 # 8)) /\ convertToFlorin a "l" = Js.Num (a * (1 # 4))
  /\ convertToFlorin a "p" = Js.Num (a * (1 # 240)).
Proof. repeat split. Qed.

(** C3 (counterexample): 30 shillings are 1 florin for the dashboard and
    1.5 florins for the export module. *)
Lemma convert_tables_differ_s :
  ~ Js.num_equiv (convertToFlorin 30 "s") (convertToFlorins 30 "s").
Proof. vm_compute. discriminate. Qed.

Lemma Qmult_neq_l (a r1 r2 : Q) : ~ a == 0 -> ~ r1 == r2 -> ~ (a * r1 == a * r2)%Q.
Proof. intros Ha Hr H. apply Hr. apply (Qmult_inj_l r1 r2 a Ha), H. Qed.

(** C3 (amended): the two conversion functions use different tables.  They
    agree on [f]; at every other known code they differ for every non-zero
    amount; at a non-empty code outside the known set that is not a name
    inherited from [Object.prototype], [convertToFlorin] gives [0] and
    [convertToFlorins] the amount itself (rate 1). *)
Theorem convert_tables_agree_only_on_f (a : Q) :
  Js.num_equiv (convertToFlorin a "f") (convertToFlorins a "f")
  /\ (~ a == 0 -> forall c, In c ["s"; "d"; "gr"; "t"; "l"; "p"] ->
        ~ Js.num_equiv (convertToFlorin a c) (convertToFlorins a c))
  /\ (~ a == 0 -> forall c, isValidCurrency c = false -> ~ In c Js.object_prototype_keys ->
        c <> "" -> convertToFlorin a c = Js.Num 0 /\ Js.num_equiv (convertToFlorins a c) (Js.Num a)).
Proof.
  split; [|split].
  - unfold convertToFlorins; simpl.
    destruct (Qeq_bool a 0) eqn:E; simpl.
    + apply Qeq_bool_iff in E. rewrite E. reflexivity.
    + reflexivity.
  - intros Ha c Hc.
    assert (Hb : Qeq_bool a 0 = false)
      by (destruct (Qeq_bool a 0) eqn:E; [apply Qeq_bool_iff in E; contradiction|reflexivity]).
    unfold convertToFlorins; simpl; rewrite Hb; simpl.
    destruct Hc as [<-|[<-|[<-|[<-|[<-|[<-|[]]]]]]]; simpl;
      apply Qmult_neq_l; try assumption; vm_compute; discriminate.
  - intros Ha c Hv Hp Hne. split; [apply convertToFlorin_unknown; assumption|].
    assert (Hb : Qeq_bool a 0 = false)
      by (destruct (Qeq_bool a 0) eqn:E; [apply Qeq_bool_iff in E; contradiction|reflexivity]).
    unfold convertToFlorins, Js.get.
    rewrite (proj2 (unknown_not_own c Hv)), (not_prototype_key c Hp).
    simpl; rewrite Hb, (proj2 (String.eqb_neq c "") Hne); simpl.
    apply Qmult_1_r.
Qed.

Lemma convert_tables_agree_only_on_f_witness :
  ~ (30 == 0)%Q /\ In "s" ["s"; "d"; "gr"; "t"; "l"; "p"]
  /\ ~ Js.num_equiv (convertToFlorin 30 "s") (convertToFlorins 30 "s").
Proof.
  assert (Ha : ~ (30 == 0)%Q) by discriminate.
  assert (Hs : In "s" ["s"; "d"; "gr"; "t"; "l"; "p"]) by (left; reflexivity).
  split; [exact Ha|]. split; [exact Hs|].
  apply (proj1 (proj2 (convert_tables_agree_only_on_f 30)) Ha "s" Hs).
Defined.

(** C4 (code_bug): 240 denarii and 30 shillings are 1 florin, but at the
    code ["toString"], outside the known set, [rates[currency]] is the
    function inherited from [Object.prototype], not [undefined], so the
    result is [NaN] instead of [0]. *)
Theorem convertToFlorin_at_inputs :
  Js.num_equiv (convertToFlorin 240 "d") (Js.Num 1)
  /\ Js.num_equiv (convertToFlorin 30 "s") (Js.Num 1)
  /\ convertToFlorin 240 "toString" = Js.NaN.
Proof. vm_compute. repeat split. Qed.

(** ** Currency tallies: [aggregateCurrencyData] *)

Lemma update_key_keys (k : string) (f : Js.num -> Js.num) (l : list (string * Js.num)) :
  map fst (update_key k f l) = map fst l.
Proof.
  induction l as [|[k' v] l IH]; simpl; [reflexivity|].
  destruct (String.eqb k k'); simpl; [reflexivity|]. rewrite IH. reflexivity.
Qed.

Lemma update_key_lookup (k k' : string) (f : Js.num -> Js.num) (l : list (string * Js.num)) :
  lookup_num k (update_key k' f l)
  = if String.eqb k' k then option_map f (lookup_num k l) else lookup_num k l.
Proof.
  destruct (String.eqb_spec k' k) as [<-|Hne].
  - induction l as [|[j v] l IH]; simpl; [reflexivity|].
    destruct (String.eqb_spec k' j) as [<-|Hj]; simpl.
    + rewrite String.eqb_refl. reflexivity.
    + destruct (String.eqb_spec k' j); [contradiction|]. exact IH.
  - induction l as [|[j v] l IH]; simpl; [reflexivity|].
    destruct (String.eqb_spec k' j) as [<-|Hj]; simpl.
    + destruct (String.eqb_spec k k'); [congruence|reflexivity].
    + destruct (String.eqb k j); [reflexivity|exact IH].
Qed.

Lemma has_own_lookup (l : list (string * Js.num)) (k : string) :
  Js.has_own (own_props l) k = match lookup_num k l with Some _ => true | None => false end.
Proof.
  unfold Js.has_own. induction l as [|[j v] l IH]; simpl; [reflexivity|].
  destruct (String.eqb k j); [reflexivity|exact IH].
Qed.

Lemma tally_amount_keys (metric : string) (totals : list (string * Js.num)) (a : Amount) :
  map fst (tally_amount metric totals a) = map fst totals.
Proof.
  unfold tally_amount.
  destruct (Js.has_own _ _); [|reflexivity].
  destruct (String.eqb metric "value"); apply update_key_keys.
Qed.

Lemma tally_amount_lookup (metric k : string) (totals : list (string * Js.num)) (a : Amount) :
  lookup_num k (tally_amount metric totals a)
  = if String.eqb (currency a) k
    then option_map (fun v => Js.add v (currency_value metric a)) (lookup_num k totals)
    else lookup_num k totals.
Proof.
  unfold tally_amount, currency_value. rewrite has_own_lookup.
  destruct (lookup_num (currency a) totals) eqn:E.
  - destruct (String.eqb metric "value"); apply update_key_lookup.
  - destruct (String.eqb (currency a) k) eqn:Ek; [|reflexivity].
    apply String.eqb_eq in Ek. subst k. rewrite E. reflexivity.
Qed.

Lemma fold_tally_keys (metric : string) (ams : list Amount) :
  forall totals, map fst (fold_left (tally_amount metric) ams totals) = map fst totals.
Proof.
  induction ams as [|a ams IH]; intros totals; simpl; [reflexivity|].
  rewrite IH. apply tally_amount_keys.
Qed.

Lemma fold_tally_lookup (metric k : string) (ams : list Amount) :
  forall totals, lookup_num k (fold_left (tally_amount metric) ams totals)
  = option_map (fun v => fold_left (fun acc a => Js.add acc (currency_value metric a))
                                   (filter (fun a => String.eqb (currency a) k) ams) v)
               (lookup_num k totals).
Proof.
  induction ams as [|a ams IH]; intros totals; simpl.
  - destruct (lookup_num k totals); reflexivity.
  - rewrite IH, tally_amount_lookup.
    destruct (String.eqb (currency a) k); simpl; [|reflexivity].
    destruct (lookup_num k totals); reflexivity.
Qed.

Lemma aggregate_keys (metric : string) (ts : list Transaction) :
  forall totals, map fst (fold_left (fun totals t => fold_left (tally_amount metric) (amounts t) totals)
                                    ts totals) = map fst totals.
Proof.
  induction ts as [|t ts IH]; intros totals; simpl; [reflexivity|].
  rewrite IH. apply fold_tally_keys.
Qed.

Lemma aggregate_lookup (metric k : string) (ts : list Transaction) :
  forall totals,
  lookup_num k (fold_left (fun totals t => fold_left (tally_amount metric) (amounts t) totals)
                          ts totals)
  = option_map (fun v => fold_left (fun acc a => Js.add acc (currency_value metric a))
                                   (filter (fun a => String.eqb (currency a) k) (flat_map amounts ts)) v)
               (lookup_num k totals).
Proof.
  induction ts as [|t ts IH]; intros totals; simpl.
  - destruct (lookup_num k totals); reflexivity.
  - rewrite IH, fold_tally_lookup.
    destruct (lookup_num k totals); simpl; [|reflexivity].
    rewrite filter_app, fold_left_app. reflexivity.
Qed.

(** C7 (counterexample): an amount of 8 in the taler-class code [t] is not
    tallied: the result has no property [t]. *)
Lemma aggregateCurrencyData_no_t :
  lookup_num "t" (aggregateCurrencyData [tx 0 "" "item" [amt 8 "t"] 1] "value") = None.
Proof. vm_compute. reflexivity. Qed.

(** C7 (amended): the tallies are the own properties [f], [s], [d], [gr]
    of the [totals] literal, in that order; the tally of each is [0] plus
    the florin value (metric ["value"]) or [1] (any other metric) of every
    amount of that code, so amounts in [t], [l], [p] or any other code are
    not tallied; and one transaction whose only amount is 240 denarii gives
    the [d] tally 1. *)
Theorem aggregateCurrencyData_tallies (ts : list Transaction) (metric : string) :
  map fst (aggregateCurrencyData ts metric) = ["f"; "s"; "d"; "gr"]
  /\ (forall k, In k ["f"; "s"; "d"; "gr"] ->
        lookup_num k (aggregateCurrencyData ts metric) = Some (tally_spec ts metric k))
  /\ (forall k, ~ In k ["f"; "s"; "d"; "gr"] -> lookup_num k (aggregateCurrencyData ts metric) = None)
  /\ exists v, lookup_num "d" (aggregateCurrencyData [tx_240d] "value") = Some (Js.Num v)
       /\ (v == 1)%Q.
Proof.
  split; [apply aggregate_keys|]. split; [|split].
  - intros k Hk. unfold aggregateCurrencyData. rewrite aggregate_lookup.
    destruct Hk as [<-|[<-|[<-|[<-|[]]]]]; reflexivity.
  - intros k Hk. unfold aggregateCurrencyData. rewrite aggregate_lookup.
    unfold currency_totals0; simpl.
    repeat match goal with
           | |- context [String.eqb k ?j] =>
               destruct (String.eqb_spec k j) as [->|?]; [exfalso; apply Hk; simpl; tauto|]
           end.
    reflexivity.
  - eexists. split; [reflexivity|]. reflexivity.
Qed.

Lemma aggregateCurrencyData_tallies_witness :
  In "d" ["f"; "s"; "d"; "gr"]
  /\ lookup_num "d" (aggregateCurrencyData [tx_240d] "value") = Some (tally_spec [tx_240d] "value" "d").
Proof.
  assert (H : In "d" ["f"; "s"; "d"; "gr"]) by (right; right; left; reflexivity).
  split; [exact H|]. apply (proj1 (proj2 (aggregateCurrencyData_tallies [tx_240d] "value")) "d" H).
Defined.

(** ** Dates *)

(** C8 (code_bug): in a browser on Berlin local time, the date text
    ["1199-12-31T23:30:00Z"] passes the range check on the local year
    (1200) but is stored as its UTC date ["1199-12-31"], whose year is
    outside [1200, 1800]; the text ["2400-12-24"] is stored as absent and
    the record is kept. *)
Theorem parse_record_date_out_of_range :
  option_map date (parse_record env_berlin 0 0 (raw "item" "1199-12-31T23:30:00Z" "18" "f"))
    = Some "1199-12-31"
  /\ getFullYear env_berlin (days_from_civil 1199 12 31 * ms_per_day + 84600000)%Z = 1200%Z
  /\ option_map date (parse_record env_berlin 0 0 (raw "item" "2400-12-24" "18" "f")) = Some "".
Proof. vm_compute. repeat split. Qed.

(** ** The histogram *)

Lemma qmin_le (x y : Q) : (qmin x y <= x)%Q /\ (qmin x y <= y)%Q.
Proof.
  unfold qmin. destruct (Qle_bool x y) eqn:E.
  - apply Qle_bool_iff in E. split; [apply Qle_refl|assumption].
  - split; [|apply Qle_refl].
    apply Qlt_le_weak, Qnot_le_lt. intros H. apply Qle_bool_iff in H. congruence.
Qed.

Lemma qmax_ge (x y : Q) : (x <= qmax x y)%Q /\ (y <= qmax x y)%Q.
Proof.
  unfold qmax. destruct (Qle_bool x y) eqn:E.
  - apply Qle_bool_iff in E. split; [assumption|apply Qle_refl].
  - split; [apply Qle_refl|].
    apply Qlt_le_weak, Qnot_le_lt. intros H. apply Qle_bool_iff in H. congruence.
Qed.

Lemma qmin_list_le (l : list Q) :
  forall x, (qmin_list x l <= x)%Q /\ (forall a, In a l -> (qmin_list x l <= a)%Q).
Proof.
  induction l as [|y l IH]; intros x; unfold qmin_list in *; simpl.
  - split; [apply Qle_refl|contradiction].
  - destruct (IH (qmin x y)) as [H1 H2]. destruct (qmin_le x y) as [Hx Hy].
    split; [apply (Qle_trans _ _ _ H1 Hx)|].
    intros a [<-|Ha]; [apply (Qle_trans _ _ _ H1 Hy)|apply H2, Ha].
Qed.

Lemma qmax_list_ge (l : list Q) : forall x, (x <= qmax_list x l)%Q.
Proof.
  induction l as [|y l IH]; intros x; unfold qmax_list in *; simpl; [apply Qle_refl|].
  apply (Qle_trans _ (qmax x y)); [apply qmax_ge|apply IH].
Qed.

Section Buckets.
  Variables (m s a : Q) (N : nat).
  Hypothesis Hs : (0 <= s)%Q.
  Hypothesis Hma : (m <= a)%Q.

Definition bucket_start (i : nat) : Q := (m + inject_Z (Z.of_nat i) * s)%Q.

Lemma bucket_start_mono (i : nat) : (bucket_start i <= bucket_start (S i))%Q.
  Proof.
    unfold bucket_start. apply Qplus_le_r, Qmult_le_compat_r; [|exact Hs].
    rewrite <- Zle_Qle. lia.
  Qed.

Lemma in_bucket_last (i : nat) :
    i = N - 1 -> in_bucket m s N i a = Qle_bool (bucket_start i) a.
  Proof.
    intros Hi. unfold in_bucket. rewrite <- Hi, Nat.eqb_refl. fold (bucket_start i).
    destruct (Qle_bool (bucket_start i) a); simpl; [apply orb_true_r|reflexivity].
  Qed.

Lemma in_bucket_inner (i : nat) :
    i <> N - 1 -> in_bucket m s N i a
                  = Qle_bool (bucket_start i) a && negb (Qle_bool (bucket_start (S i)) a).
  Proof.
    intros Hi. unfold in_bucket. apply Nat.eqb_neq in Hi. rewrite Hi.
    rewrite Nat.add_1_r. fold (bucket_start i) (bucket_start (S i)).
    unfold Qlt_bool. rewrite orb_false_r. reflexivity.
  Qed.

Lemma buckets_from (d : nat) :
    forall i, i + d = N - 1 ->
    length (filter (fun j => in_bucket m s N j a) (seq i (S d)))
    = if Qle_bool (bucket_start i) a then 1 else 0.
  Proof.
    induction d as [|d IH]; intros i Hi.
    - simpl. rewrite in_bucket_last by lia.
      destruct (Qle_bool (bucket_start i) a); reflexivity.
    - change (seq i (S (S d))) with (i :: seq (S i) (S d)).
      cbn [filter]. rewrite in_bucket_inner by lia.
      specialize (IH (S i) ltac:(lia)).
      destruct (Qle_bool (bucket_start (S i)) a) eqn:E1.
      + assert (E0 : Qle_bool (bucket_start i) a = true).
        { apply Qle_bool_iff in E1. apply Qle_bool_iff.
          apply (Qle_trans _ _ _ (bucket_start_mono i) E1). }
        rewrite E0. cbn [negb andb]. exact IH.
      + rewrite andb_true_r. destruct (Qle_bool (bucket_start i) a); cbn [negb andb length];
        rewrite IH; reflexivity.
  Qed.

  (** An amount above the minimum lies in exactly one of the [N] buckets. *)
Lemma exactly_one_bucket :
    1 <= N -> length (filter (fun i => in_bucket m s N i a) (seq 0 N)) = 1.
  Proof.
    intros HN. assert (HN' : S (N - 1) = N) by lia.
    pose proof (buckets_from (N - 1) 0 ltac:(lia)) as H. rewrite HN' in H. rewrite H.
    assert (E : Qle_bool (bucket_start 0) a = true).
    { apply Qle_bool_iff. unfold bucket_start. simpl.
      rewrite Qmult_0_l, Qplus_0_r. exact Hma. }
    rewrite E. reflexivity.
  Qed.
End Buckets.

Lemma sum_filter_swap {A B} (P : A -> B -> bool) (is : list A) (l : list B) :
  list_sum (map (fun i => length (filter (P i) l)) is)
  = list_sum (map (fun a => length (filter (fun i => P i a) is)) l).
Proof.
  induction l as [|a l IH]; simpl.
  - induction is; simpl; [reflexivity|assumption].
  - rewrite <- IH. clear IH. induction is as [|i is IHi]; simpl; [reflexivity|].
    rewrite IHi. destruct (P i a); simpl; lia.
Qed.

Lemma list_sum_ones {B} (f : B -> nat) (l : list B) :
  (forall a, In a l -> f a = 1) -> list_sum (map f l) = length l.
Proof.
  induction l as [|a l IH]; intros H; simpl; [reflexivity|].
  rewrite H by (left; reflexivity). rewrite IH by (intros b Hb; apply H; right; exact Hb).
  reflexivity.
Qed.

(** C9: for a bucket count [N >= 1] the bucket counts of the histogram sum
    to the number of strictly positive amounts; no positive amount gives
    empty labels and counts; and every positive amount falls in exactly one
    of the [N] bins between the observed minimum and maximum, the last bin
    being closed. *)
Theorem histogram_total (allAmounts : list Q) (N : nat) (HN : 1 <= N) :
  list_sum (snd (histogram allAmounts N))
    = length (filter (fun a => Qlt_bool 0 a) allAmounts)
  /\ (filter (fun a => Qlt_bool 0 a) allAmounts = [] -> histogram allAmounts N = ([], []))
  /\ (forall a0 rest, filter (fun a => Qlt_bool 0 a) allAmounts = a0 :: rest ->
      forall a, In a (a0 :: rest) ->
      length (filter (fun i => in_bucket (qmin_list a0 rest)
                                 ((qmax_list a0 rest - qmin_list a0 rest)
                                  / inject_Z (Z.of_nat N))%Q N i a)
                     (seq 0 N)) = 1).
Proof.
  assert (Hone : forall a0 rest a, In a (a0 :: rest) ->
      length (filter (fun i => in_bucket (qmin_list a0 rest)
                                 ((qmax_list a0 rest - qmin_list a0 rest)
                                  / inject_Z (Z.of_nat N))%Q N i a)
                     (seq 0 N)) = 1).
  { intros a0 rest a Ha. apply exactly_one_bucket; [| |exact HN].
    - apply Qle_shift_div_l.
      + change 0%Q with (inject_Z 0). rewrite <- Zlt_Qlt. lia.
      + rewrite Qmult_0_l. apply (proj1 (Qle_minus_iff (qmin_list a0 rest) (qmax_list a0 rest))).
        destruct (qmin_list_le rest a0) as [H1 _].
        apply (Qle_trans _ _ _ H1 (qmax_list_ge rest a0)).
    - destruct (qmin_list_le rest a0) as [H1 H2].
      destruct Ha as [<-|Ha]; [exact H1|apply H2, Ha]. }
  split; [|split; [intros E; unfold histogram; rewrite E; reflexivity|intros a0 rest _; apply Hone]].
  unfold histogram. destruct (filter (fun a => Qlt_bool 0 a) allAmounts) as [|a0 rest] eqn:E.
  - reflexivity.
  - cbv zeta. cbn [snd].
    rewrite (sum_filter_swap
               (fun i a => in_bucket (qmin_list a0 rest)
                             ((qmax_list a0 rest - qmin_list a0 rest)
                              / inject_Z (Z.of_nat N))%Q N i a)).
    apply list_sum_ones. apply Hone.
Qed.

Lemma histogram_total_witness :
  (1 <= 3)%nat
  /\ snd (histogram [1; 2; 3; 0; 10]%Q 3) = [3; 0; 1]
  /\ list_sum (snd (histogram [1; 2; 3; 0; 10]%Q 3))
       = length (filter (fun a => Qlt_bool 0 a) [1; 2; 3; 0; 10]%Q).
Proof.
  split; [lia|]. split; [vm_compute; reflexivity|].
  apply (histogram_total [1; 2; 3; 0; 10]%Q 3); lia.
Defined.

(** * Properties of the rest of the dashboard *)

(** ** The transaction table *)

Lemma js_slice_from (A : Type) (l : list A) (s k : Z) :
  (0 <= s)%Z -> (0 <= k)%Z ->
  js_slice l s (s + k) = firstn (Z.to_nat k) (skipn (Z.to_nat s) l).
Proof.
  intros Hs Hk. unfold js_slice.
  destruct (Z.ltb_spec s 0) as [Hc|_]; [lia|].
  destruct (Z.ltb_spec (s + k) 0) as [Hc|_]; [lia|].
  destruct (Z.le_gt_cases s (Z.of_nat (length l))) as [Hle|Hgt].
  - rewrite (Z.min_l s) by lia.
    assert (Hlen : length (skipn (Z.to_nat s) l) = (length l - Z.to_nat s)%nat)
      by apply length_skipn.
    destruct (Z.le_gt_cases (s + k) (Z.of_nat (length l))) as [Hle2|Hgt2].
    + rewrite Z.min_l by lia. f_equal. lia.
    + rewrite Z.min_r by lia.
      rewrite (firstn_all2 (n := Z.to_nat (Z.of_nat (length l) - s))) by lia.
      rewrite firstn_all2 by lia. reflexivity.
  - rewrite !Z.min_r by lia.
    rewrite (skipn_all2 (n := Z.to_nat (Z.of_nat (length l)))) by lia.
    rewrite skipn_all2 by lia. rewrite !firstn_nil. reflexivity.
Qed.

Lemma page_transactions_chunk (l : list Transaction) (p : Z) :
  (1 <= p)%Z ->
  page_transactions l p = firstn 50 (skipn (50 * (Z.to_nat p - 1)) l).
Proof.
  intros Hp. unfold page_transactions, transactionsPerPage.
  rewrite js_slice_from by lia. f_equal. f_equal. lia.
Qed.

Lemma firstn_add_skipn (A : Type) (x y : nat) (l : list A) :
  firstn (x + y) l = firstn x l ++ firstn y (skipn x l).
Proof.
  revert l; induction x as [|x IH]; intros [|a l]; simpl; try reflexivity.
  - rewrite firstn_nil. reflexivity.
  - rewrite IH. reflexivity.
Qed.

Lemma concat_chunks (l : list Transaction) (m a : nat) :
  concat (map (fun j => firstn 50 (skipn (50 * j) l)) (seq a m))
  = firstn (50 * m) (skipn (50 * a) l).
Proof.
  revert a; induction m as [|m IH]; intros a; cbn [seq map concat]; [reflexivity|].
  rewrite IH. replace (50 * S m) with (50 + 50 * m) by lia.
  rewrite firstn_add_skipn, skipn_skipn. f_equal. f_equal. f_equal. lia.
Qed.

Lemma totalPages_bounds (l : list Transaction) :
  let T := totalPages l in
  (0 <= T)%Z /\ (Z.of_nat (length l) <= 50 * T)%Z /\ (50 * (T - 1) < Z.of_nat (length l) \/ T = 0%Z)%Z.
Proof.
  unfold totalPages, transactionsPerPage. cbv zeta.
  pose proof (Z.div_mod (Z.of_nat (length l) + 50 - 1) 50 ltac:(lia)) as Hd.
  pose proof (Z.mod_pos_bound (Z.of_nat (length l) + 50 - 1) 50 ltac:(lia)) as Hm.
  split; [apply Z.div_pos; lia|]. split; [lia|].
  destruct (Z.eq_dec ((Z.of_nat (length l) + 50 - 1) / 50) 0) as [H0|H0]; [right; exact H0|left; lia].
Qed.

(** [renderTransactions] on each page [1 .. totalPages] of the table: the
    pages are not empty, hold at most 50 transactions, and read in order
    they give back the whole filtered list; "Previous" is disabled exactly
    on page 1 and "Next" exactly on the last page.  An empty list shows
    the "No transactions found" row and the label "Page 1 of 0", with both
    buttons disabled. *)
Theorem pagination_pages (l : list Transaction) :
  let T := totalPages l in
  concat (map (fun p => page_transactions l (Z.of_nat p)) (seq 1 (Z.to_nat T))) = l
  /\ (forall p : Z, (1 <= p <= T)%Z ->
        renderTransactions l p = TransactionRows (page_transactions l p)
        /\ page_transactions l p <> []
        /\ (length (page_transactions l p) <= 50)%nat
        /\ (prevDisabled (updatePagination l p) = true <-> p = 1%Z)
        /\ (nextDisabled (updatePagination l p) = true <-> p = T))
  /\ (l = [] -> renderTransactions l 1 = NoTransactionsRow
               /\ updatePagination l 1
                  = {| prevDisabled := true; nextDisabled := true; pageInfo := "Page 1 of 0" |}).
Proof.
  cbv zeta. destruct (totalPages_bounds l) as (HT0 & HTn & HTl).
  split; [|split].
  - rewrite <- seq_shift, map_map.
    rewrite (map_ext_in _ (fun j => firstn 50 (skipn (50 * j) l))).
    + rewrite concat_chunks. simpl. apply firstn_all2. lia.
    + intros j Hj. apply in_seq in Hj.
      rewrite page_transactions_chunk by lia. f_equal. f_equal. lia.
  - intros p Hp.
    assert (Hlt : (50 * (Z.to_nat p - 1) < length l)%nat) by lia.
    split; [|split; [|split; [|split]]].
    + unfold renderTransactions. destruct l; [simpl in Hlt; lia|reflexivity].
    + rewrite page_transactions_chunk by lia.
      intros Hnil. apply (f_equal (@length Transaction)) in Hnil.
      rewrite length_firstn, length_skipn in Hnil. cbn [length] in Hnil. lia.
    + rewrite page_transactions_chunk by lia. rewrite length_firstn. lia.
    + simpl. rewrite Z.leb_le. lia.
    + simpl. rewrite Z.leb_le. lia.
  - intros ->. split; reflexivity.
Qed.

(** ** The dashboard counters *)

Lemma string_compare_le_trans (x y z : string) :
  String.compare x y <> Gt -> String.compare y z <> Gt -> String.compare x z <> Gt.
Proof.
  revert y z; induction x as [|a x IH]; intros [|b y] [|c z]; simpl; try congruence.
  unfold Ascii.compare.
  destruct (N.compare_spec (Ascii.N_of_ascii a) (Ascii.N_of_ascii b));
  destruct (N.compare_spec (Ascii.N_of_ascii b) (Ascii.N_of_ascii c));
  destruct (N.compare_spec (Ascii.N_of_ascii a) (Ascii.N_of_ascii c));
  try congruence; try lia; eauto.
Qed.

Lemma string_leb_trans (x y z : string) :
  String.leb x y = true -> String.leb y z = true -> String.leb x z = true.
Proof.
  unfold String.leb.
  destruct (String.compare x y) eqn:E1; try discriminate;
  destruct (String.compare y z) eqn:E2; try discriminate;
  destruct (String.compare x z) eqn:E3; try reflexivity;
  exfalso; apply (string_compare_le_trans x y z); congruence.
Qed.

Lemma string_leb_refl (x : string) : String.leb x x = true.
Proof.
  unfold String.leb. pose proof (String.compare_antisym x x) as H.
  destruct (String.compare x x); simpl in H; congruence.
Qed.

Lemma default_sort_sorted (l : list string) :
  StronglySorted (fun a b => String.leb a b = true) (js_sort default_sort_compare l).
Proof.
  apply Sorted_StronglySorted; [intros x y z; apply string_leb_trans|].
  apply js_sort_sorted; intros x y; unfold default_sort_compare, String.leb.
  - destruct (String.compare x y); intros H; vm_compute in H; congruence.
  - rewrite (String.compare_antisym y x).
    destruct (String.compare x y); intros H; vm_compute in H; try congruence; reflexivity.
Qed.

Lemma strongly_sorted_last {A} (R : A -> A -> Prop) (Hr : forall x, R x x) (l : list A) (d : A) :
  StronglySorted R l -> forall x, In x l -> R x (last l d).
Proof.
  induction l as [|a l IH]; intros Hs x Hx; [destruct Hx|].
  apply StronglySorted_inv in Hs as [Hs Hf].
  destruct l as [|b l'].
  - destruct Hx as [<-|[]]. apply Hr.
  - change (last (a :: b :: l') d) with (last (b :: l') d).
    destruct Hx as [<-|Hx]; [|apply IH; assumption].
    apply Forall_forall with (x := last (b :: l') d) in Hf; [exact Hf|].
    clear. revert b; induction l' as [|c l' IH]; intros b; [left; reflexivity|].
    right. apply IH.
Qed.

Lemma last_in_nonempty {A} (l : list A) (d : A) : l <> [] -> In (last l d) l.
Proof.
  induction l as [|a l IH]; intros Hl; [congruence|].
  destruct l as [|b l']; [left; reflexivity|].
  right. apply IH. discriminate.
Qed.

Lemma js_set_acc (l acc : list string) :
  NoDup acc ->
  NoDup (fold_left (fun s x => if existsb (String.eqb x) s then s else app s [x]) l acc)
  /\ forall p, In p (fold_left (fun s x => if existsb (String.eqb x) s then s else app s [x]) l acc)
               <-> In p acc \/ In p l.
Proof.
  revert acc; induction l as [|x l IH]; intros acc Hnd; simpl.
  - split; [assumption|]. intros p; tauto.
  - destruct (existsb (String.eqb x) acc) eqn:E.
    + apply existsb_exists in E as (y & Hy & Hxy). apply String.eqb_eq in Hxy; subst y.
      destruct (IH acc Hnd) as [H1 H2]. split; [assumption|].
      intros p; rewrite H2. split; [tauto|]. intros [?|[<-|?]]; tauto.
    + assert (Hnd' : NoDup (acc ++ [x])).
      { apply NoDup_app; [assumption|constructor; [intros []|constructor]|].
        intros y Hy [Hyx|[]]. rewrite <- Hyx in Hy. assert (existsb (String.eqb x) acc = true); [|congruence].
        apply existsb_exists. exists x. split; [assumption|apply String.eqb_refl]. }
      destruct (IH _ Hnd') as [H1 H2]. split; [assumption|].
      intros p; rewrite H2, in_app_iff. simpl. tauto.
Qed.

(** [updateStats]: with [ds] the non-empty dates of the transactions, the
    date range reads "N/A" when there is none, the date itself when there
    is one, and otherwise "lo to hi" for two of those dates with every
    date between them in code-unit order; the people counter is the number
    of distinct names in all the transactions' [people] lists. *)
Theorem updateStats_range_people (ts : list Transaction) :
  let ds := map date (filter (fun t => negb (String.eqb (date t) "")) ts) in
  let s := updateStats ts in
  (ds = [] -> dateRangeText s = "N/A")
  /\ (forall d, ds = [d] -> dateRangeText s = d)
  /\ ((2 <= length ds)%nat ->
      exists lo hi, dateRangeText s = (lo ++ " to " ++ hi)%string
                    /\ In lo ds /\ In hi ds
                    /\ forall d, In d ds -> String.leb lo d = true /\ String.leb d hi = true)
  /\ (exists u, NoDup u
                /\ (forall p, In p u <-> exists t, In t ts /\ In p (people t))
                /\ uniquePeopleCount s = length u).
Proof.
  cbv zeta. unfold updateStats. cbn [dateRangeText uniquePeopleCount].
  change (fun t => Js.truthy (Js.Str (date t))) with (fun t => negb (String.eqb (date t) "")).
  set (ds := map date (filter (fun t => negb (String.eqb (date t) "")) ts)).
  pose proof (js_sort_perm _ default_sort_compare ds) as Hp.
  pose proof (default_sort_sorted ds) as Hs.
  set (sd := js_sort default_sort_compare ds) in *.
  split; [|split; [|split]].
  - intros Hd. rewrite Hd in Hp. symmetry in Hp. apply Permutation_nil in Hp. rewrite Hp. reflexivity.
  - intros d Hd. rewrite Hd in Hp. symmetry in Hp. apply Permutation_length_1_inv in Hp. rewrite Hp. reflexivity.
  - intros Hlen. pose proof (Permutation_length Hp) as Hl.
    destruct sd as [|lo [|b r]] eqn:Esd; simpl in Hl; try lia.
    exists lo, (last (lo :: b :: r) "").
    split; [reflexivity|].
    assert (Hin : forall x, In x ds <-> In x (lo :: b :: r)).
    { intros x; split; apply Permutation_in; [symmetry|]; assumption. }
    split; [apply Hin; left; reflexivity|].
    split; [apply Hin; apply last_in_nonempty; discriminate|].
    intros d Hd. apply Hin in Hd. split.
    + destruct Hd as [<-|Hd]; [apply string_leb_refl|].
      apply StronglySorted_inv in Hs as [_ Hf]. rewrite Forall_forall in Hf. apply Hf, Hd.
    + apply (strongly_sorted_last (fun a b => String.leb a b = true) string_leb_refl); assumption.
  - destruct (js_set_acc (flat_map people ts) [] (NoDup_nil _)) as [H1 H2].
    eexists. split; [exact H1|]. split; [|reflexivity].
    intros p. unfold js_set. rewrite H2, in_flat_map. simpl. tauto.
Qed.

(** ** The timeline: [aggregateTimelineData] *)

Lemma lookup_num_app (k : string) (l r : list (string * Js.num)) :
  lookup_num k (l ++ r) = match lookup_num k l with Some v => Some v | None => lookup_num k r end.
Proof.
  induction l as [|[j v] l IH]; simpl; [reflexivity|].
  destruct (String.eqb k j); [reflexivity|exact IH].
Qed.

Lemma lookup_num_in_keys (k : string) (l : list (string * Js.num)) :
  lookup_num k l <> None <-> In k (map fst l).
Proof.
  induction l as [|[j v] l IH]; simpl; [tauto|].
  destruct (String.eqb_spec k j) as [->|Hne]; [split; [auto|discriminate]|].
  rewrite IH. split; [auto|]. intros [->|H]; [contradiction|exact H].
Qed.

Lemma nodup_in_lookup (k : string) (v : Js.num) (l : list (string * Js.num)) :
  NoDup (map fst l) -> (In (k, v) l <-> lookup_num k l = Some v).
Proof.
  induction l as [|[j w] l IH]; simpl; intros Hnd; [split; [intros []|discriminate]|].
  inversion Hnd as [|? ? Hj Hnd']; subst.
  destruct (String.eqb_spec k j) as [->|Hne].
  - split.
    + intros [Heq|Hin]; [congruence|].
      exfalso. apply Hj. apply in_map_iff. exists (j, v). split; [reflexivity|exact Hin].
    + intros Heq; left; congruence.
  - rewrite <- IH by assumption. split; [|tauto].
    intros [Heq|Hin]; [congruence|exact Hin].
Qed.

Lemma existsb_key_lookup (key : string) (data : list (string * Js.num)) :
  existsb (fun e => String.eqb (fst e) key) data = true <-> lookup_num key data <> None.
Proof.
  rewrite lookup_num_in_keys, existsb_exists, in_map_iff. split.
  - intros (e & He & Hk). apply String.eqb_eq in Hk. exists e. split; assumption.
  - intros (e & Hk & He). exists e. split; [assumption|]. apply String.eqb_eq, Hk.
Qed.

Lemma map_add_keys (key : string) (v : Js.num) (data : list (string * Js.num)) :
  NoDup (map fst data) -> NoDup (map fst (map_add key v data)).
Proof.
  intros Hnd. unfold map_add. rewrite update_key_keys.
  destruct (existsb (fun e => String.eqb (fst e) key) data) eqn:E; [exact Hnd|].
  rewrite map_app. simpl. apply NoDup_app; [exact Hnd|repeat constructor; intros []|].
  intros y Hy [Hyk|[]]. simpl in Hyk. subst y.
  assert (existsb (fun e => String.eqb (fst e) key) data = true); [|congruence].
  apply existsb_key_lookup, lookup_num_in_keys, Hy.
Qed.

Lemma map_add_lookup (key k : string) (v : Js.num) (data : list (string * Js.num)) :
  lookup_num k (map_add key v data)
  = if String.eqb key k
    then Some (Js.add (match lookup_num k data with Some x => x | None => Js.Num 0 end) v)
    else lookup_num k data.
Proof.
  unfold map_add. rewrite update_key_lookup.
  destruct (existsb (fun e => String.eqb (fst e) key) data) eqn:E.
  - destruct (String.eqb_spec key k) as [<-|Hne]; [|reflexivity].
    apply existsb_key_lookup in E. destruct (lookup_num key data); [reflexivity|congruence].
  - rewrite lookup_num_app. simpl.
    destruct (String.eqb_spec key k) as [<-|Hne].
    + rewrite String.eqb_refl.
      destruct (lookup_num key data) eqn:L; [|reflexivity].
      exfalso. assert (existsb (fun e => String.eqb (fst e) key) data = true); [|congruence].
      apply existsb_key_lookup. congruence.
    + destruct (String.eqb_spec k key); [congruence|].
      destruct (lookup_num k data); reflexivity.
Qed.

Section Timeline.
Variable env : Env.
Variable unit : string.

Lemma timeline_fold (ts : list Transaction) (data : list (string * Js.num)) :
  (forall t, In t ts -> date t <> "" -> timeline_key env unit (date_parse env (date t)) <> None) ->
  NoDup (map fst data) ->
  exists data', fold_left (timeline_step env unit) ts (Some data) = Some data'
    /\ NoDup (map fst data')
    /\ forall k,
         let vs := filter (fun t => negb (String.eqb (date t) "")
                                    && match timeline_key env unit (date_parse env (date t)) with
                                       | Some k' => String.eqb k' k | None => false end) ts in
         lookup_num k data'
         = match lookup_num k data, vs with
           | None, [] => None
           | o, _ => Some (fold_left (fun acc t => Js.add acc (totalFlorinValue t)) vs
                             (match o with Some x => x | None => Js.Num 0 end))
           end.
Proof.
  revert data; induction ts as [|t ts IH]; intros data Hok Hnd.
  - exists data. split; [reflexivity|]. split; [exact Hnd|].
    intros k. simpl. destruct (lookup_num k data); reflexivity.
  - assert (Hok' : forall u, In u ts -> date u <> "" ->
                   timeline_key env unit (date_parse env (date u)) <> None)
      by (intros u Hu; apply Hok; right; exact Hu).
    cbn [fold_left].
    destruct (String.eqb_spec (date t) "") as [Hd|Hd].
    + replace (timeline_step env unit (Some data) t) with (Some data)
        by (unfold timeline_step; simpl; rewrite Hd; reflexivity).
      destruct (IH data Hok' Hnd) as (d' & Hf & Hn & Hl).
      exists d'. split; [exact Hf|]. split; [exact Hn|].
      intros k. cbv zeta. cbn [filter]. rewrite Hd. exact (Hl k).
    + destruct (timeline_key env unit (date_parse env (date t))) as [key|] eqn:Ek;
        [|exfalso; apply (Hok t (or_introl eq_refl) Hd Ek)].
      replace (timeline_step env unit (Some data) t) with (Some (map_add key (totalFlorinValue t) data))
        by (unfold timeline_step; simpl; rewrite Ek;
            destruct (String.eqb_spec (date t) ""); [contradiction|reflexivity]).
      destruct (IH (map_add key (totalFlorinValue t) data) Hok' (map_add_keys _ _ _ Hnd))
        as (d' & Hf & Hn & Hl).
      exists d'. split; [exact Hf|]. split; [exact Hn|].
      intros k. cbv zeta. rewrite (Hl k). cbn [filter]. rewrite Ek.
      apply String.eqb_neq in Hd. rewrite Hd. cbn [negb andb].
      rewrite map_add_lookup.
      destruct (String.eqb_spec key k) as [<-|Hne].
      * destruct (lookup_num key data), (filter _ ts); reflexivity.
      * destruct (lookup_num k data), (filter _ ts); reflexivity.
Qed.

Lemma sorted_keys_strict (l : list (string * Js.num)) :
  StronglySorted (fun a b => String.compare (fst a) (fst b) <> Gt) l -> NoDup (map fst l) ->
  StronglySorted (fun a b => String.compare (fst a) (fst b) = Lt) l.
Proof.
  induction l as [|a l IH]; intros Hs Hnd; [constructor|].
  apply StronglySorted_inv in Hs as [Hs Hf]. inversion Hnd as [|? ? Ha Hnd']; subst.
  constructor; [apply IH; assumption|].
  rewrite Forall_forall in *. intros b Hb. specialize (Hf b Hb).
  destruct (String.compare (fst a) (fst b)) eqn:E; try reflexivity; [|contradiction].
  apply String.compare_eq_iff in E. exfalso. apply Ha. rewrite E. apply in_map, Hb.
Qed.

(** [aggregateTimelineData(transactions, unit)], when every dated
    transaction gets a key (the call does not throw): the points are in
    strictly increasing order of their keys, so each key occurs once, and
    a point [(k, v)] is there exactly when some dated transaction has key
    [k], with [v] the sum [0 + v1 + ... + vn] of the [totalFlorinValue]s
    of the dated transactions of key [k], in their order. *)
Theorem aggregateTimelineData_points (ts : list Transaction)
  (Hok : forall t, In t ts -> date t <> "" -> timeline_key env unit (date_parse env (date t)) <> None) :
  exists pts, aggregateTimelineData env ts unit = Some pts
    /\ StronglySorted (fun a b => String.compare (fst a) (fst b) = Lt) pts
    /\ forall k v,
         let vs := filter (fun t => negb (String.eqb (date t) "")
                                    && match timeline_key env unit (date_parse env (date t)) with
                                       | Some k' => String.eqb k' k | None => false end) ts in
         In (k, v) pts <-> vs <> [] /\ v = fold_left (fun acc t => Js.add acc (totalFlorinValue t)) vs (Js.Num 0).
Proof.
  destruct (timeline_fold ts [] Hok (NoDup_nil _)) as (d & Hf & Hn & Hl).
  unfold aggregateTimelineData. rewrite Hf.
  set (cmp := fun a b : string * Js.num => localeCompare (fst a) (fst b)).
  pose proof (js_sort_perm _ cmp d) as Hp.
  assert (Hnp : NoDup (map fst (js_sort cmp d))).
  { apply (Permutation_NoDup (Permutation_map fst (Permutation_sym Hp))), Hn. }
  eexists. split; [reflexivity|]. split.
  - apply sorted_keys_strict; [|exact Hnp].
    apply Sorted_StronglySorted.
    + intros x y z Hxy Hyz. apply (string_compare_le_trans _ (fst y)); assumption.
    + apply js_sort_sorted; intros x y; unfold cmp, localeCompare.
      * destruct (String.compare (fst x) (fst y)); intros H; vm_compute in H; congruence.
      * rewrite (String.compare_antisym (fst y) (fst x)).
        destruct (String.compare (fst x) (fst y)); intros H; vm_compute in H; simpl; congruence.
  - intros k v. cbv zeta.
    rewrite (nodup_in_lookup k v _ Hnp).
    assert (Hl' : lookup_num k (js_sort cmp d) = lookup_num k d).
    { destruct (lookup_num k d) as [w|] eqn:Ew.
      - apply nodup_in_lookup; [exact Hnp|]. apply (Permutation_in _ (Permutation_sym Hp)).
        apply nodup_in_lookup; assumption.
      - destruct (lookup_num k (js_sort cmp d)) as [w|] eqn:Ew'; [|reflexivity].
        apply nodup_in_lookup in Ew'; [|exact Hnp]. apply (Permutation_in _ Hp) in Ew'.
        apply nodup_in_lookup in Ew'; [congruence|exact Hn]. }
    rewrite Hl', (Hl k). simpl. destruct (filter _ ts); simpl; split.
    + discriminate.
    + intros [H _]; congruence.
    + intros H; injection H as <-. split; [discriminate|reflexivity].
    + intros [_ ->]. reflexivity.
Qed.
End Timeline.

(** ** Month and weekday ranges of [Date] *)

Section CalendarRanges.
Local Open Scope Z_scope.

(** The month computed by [civil_from_days] from the day of the era. *)
Definition month_of_doe (doe : Z) : Z :=
  let yoe := (doe - doe / 1460 + doe / 36524 - doe / 146096) / 365 in
  let doy := doe - (365 * yoe + yoe / 4 - yoe / 100) in
  let mp := (5 * doy + 2) / 153 in
  if mp <? 10 then mp + 3 else mp - 9.

Fixpoint months_ok (n : nat) (z : Z) : bool :=
  match n with
  | O => true
  | S n' => (1 <=? month_of_doe z) && (month_of_doe z <=? 12) && months_ok n' (z + 1)
  end.

Lemma months_ok_spec (n : nat) (z : Z) :
  months_ok n z = true -> forall k, z <= k < z + Z.of_nat n -> 1 <= month_of_doe k <= 12.
Proof.
  revert z; induction n as [|n IH]; intros z H k Hk; [lia|].
  simpl in H. apply andb_prop in H as [H Hr]. apply andb_prop in H as [H1 H2].
  apply Z.leb_le in H1, H2.
  destruct (Z.eq_dec k z) as [->|Hne]; [lia|].
  apply (IH (z + 1)); [exact Hr|lia].
Qed.

Lemma civil_month_doe (z0 : Z) :
  snd (fst (civil_from_days z0)) = month_of_doe ((z0 + 719468) mod 146097).
Proof.
  unfold civil_from_days, month_of_doe. cbn [fst snd].
  replace (z0 + 719468 - (z0 + 719468) / 146097 * 146097)
    with ((z0 + 719468) mod 146097) by (rewrite Z.mod_eq by lia; ring).
  reflexivity.
Qed.

Lemma civil_month_range (z0 : Z) : 1 <= snd (fst (civil_from_days z0)) <= 12.
Proof.
  rewrite civil_month_doe.
  apply (months_ok_spec 146097 0); [vm_compute; reflexivity|].
  assert (E : Z.of_nat 146097 = 146097) by reflexivity. rewrite E.
  pose proof (Z.mod_pos_bound (z0 + 719468) 146097 ltac:(lia)). lia.
Qed.

Lemma getMonth_range (env : Env) (t : Z) : 0 <= getMonth env t <= 11.
Proof. unfold getMonth. pose proof (civil_month_range (local_time env t / ms_per_day)). lia. Qed.

Lemma getDay_range (env : Env) (t : Z) : 0 <= getDay env t <= 6.
Proof. unfold getDay. pose proof (Z.mod_pos_bound (local_time env t / ms_per_day + 4) 7 ltac:(lia)). lia. Qed.

End CalendarRanges.

(** ** [updateSeasonalChart] *)

Lemma seasonal_group_range (env : Env) (view : string) (tm : Z) :
  view = "monthly" \/ view = "quarterly" \/ view = "weekday" ->
  (0 <= seasonal_group env view tm)%Z
  /\ Z.to_nat (seasonal_group env view tm) < length (seasonal_labels view).
Proof.
  intros Hv. pose proof (getMonth_range env tm). pose proof (getDay_range env tm).
  unfold seasonal_group, seasonal_labels.
  destruct Hv as [ -> | [ -> | -> ] ]; simpl.
  - split; lia.
  - assert (0 <= getMonth env tm / 3 < 4)%Z by (split; [apply Z.div_pos|apply Z.div_lt_upper_bound]; lia).
    split; lia.
  - split; lia.
Qed.

Definition seasonal_add_at (i : nat) (v : Q) : nat * (Q * nat) -> Q * nat :=
  fun '(j, e) => if (j =? i)%nat then ((fst e + v)%Q, S (snd e)) else e.

Lemma seasonal_add_aux_length (i : nat) (v : Q) (data : list (Q * nat)) (k : nat) :
  length (map (seasonal_add_at i v) (combine (seq k (length data)) data)) = length data.
Proof.
  revert k; induction data as [|e data IH]; intros k; simpl; [reflexivity|].
  rewrite IH. reflexivity.
Qed.

Lemma seasonal_add_aux_nth (i : nat) (v : Q) (data : list (Q * nat)) (k j : nat) :
  j < length data ->
  nth j (map (seasonal_add_at i v) (combine (seq k (length data)) data)) (0%Q, 0%nat)
  = if (k + j =? i)%nat
    then ((fst (nth j data (0%Q, 0%nat)) + v)%Q, S (snd (nth j data (0%Q, 0%nat))))
    else nth j data (0%Q, 0%nat).
Proof.
  revert k j; induction data as [|e data IH]; intros k j Hj; simpl in *; [lia|].
  destruct j as [|j].
  - rewrite Nat.add_0_r. reflexivity.
  - rewrite IH by lia. replace (S k + j) with (k + S j) by lia. reflexivity.
Qed.

Lemma seasonal_add_aux_sum (i : nat) (v : Q) (data : list (Q * nat)) (k : nat) :
  list_sum (map snd (map (seasonal_add_at i v) (combine (seq k (length data)) data)))
  = list_sum (map snd data) + (if (k <=? i) && (i <? k + length data) then 1 else 0).
Proof.
  revert k; induction data as [|e data IH]; intros k; simpl.
  - destruct (Nat.leb_spec k i), (Nat.ltb_spec i (k + 0)); simpl; lia.
  - rewrite IH.
    repeat match goal with
           | |- context [?a <=? ?b] => destruct (Nat.leb_spec a b)
           | |- context [?a <? ?b] => destruct (Nat.ltb_spec a b)
           | |- context [?a =? ?b] => destruct (Nat.eqb_spec a b)
           end; simpl; lia.
Qed.

Lemma seasonal_add_eq (i : nat) (v : Q) (data : list (Q * nat)) :
  seasonal_add i v data = map (seasonal_add_at i v) (combine (seq 0 (length data)) data).
Proof. reflexivity. Qed.

Section Seasonal.
Variable env : Env.
Variable view : string.
Hypothesis Hv : view = "monthly" \/ view = "quarterly" \/ view = "weekday".

Lemma seasonal_fold (ts : list Transaction) (data : list (Q * nat)) :
  (forall t, In t ts -> date t <> "" -> date_parse env (date t) <> None) ->
  length data = length (seasonal_labels view) ->
  exists data', fold_left (seasonal_step env view) ts (Some data) = Some data'
    /\ length data' = length data
    /\ list_sum (map snd data') = list_sum (map snd data)
                                  + length (filter (fun t => negb (String.eqb (date t) "")) ts)
    /\ forall i, i < length data ->
         let grp := filter (fun t => negb (String.eqb (date t) "")
                        && match date_parse env (date t) with
                           | Some tm => Z.eqb (seasonal_group env view tm) (Z.of_nat i)
                           | None => false end) ts in
         nth i data' (0%Q, 0%nat)
         = (fold_left (fun acc t => (acc + value_or_0 t)%Q) grp (fst (nth i data (0%Q, 0%nat))),
            snd (nth i data (0%Q, 0%nat)) + length grp).
Proof.
  revert data; induction ts as [|t ts IH]; intros data Hok HL.
  - exists data. split; [reflexivity|]. split; [reflexivity|]. split; [simpl; lia|].
    intros i Hi. simpl. rewrite Nat.add_0_r. destruct (nth i data (0%Q, 0%nat)); reflexivity.
  - assert (Hok' : forall u, In u ts -> date u <> "" -> date_parse env (date u) <> None)
      by (intros u Hu; apply Hok; right; exact Hu).
    cbn [fold_left].
    destruct (String.eqb_spec (date t) "") as [Hd|Hd].
    + replace (seasonal_step env view (Some data) t) with (Some data)
        by (unfold seasonal_step; simpl; rewrite Hd; reflexivity).
      destruct (IH data Hok' HL) as (d' & Hf & Hl & Hs & Hn).
      exists d'. split; [exact Hf|]. split; [exact Hl|].
      cbn [filter]. rewrite Hd. cbn [String.eqb negb andb]. split; [exact Hs|]. exact Hn.
    + destruct (date_parse env (date t)) as [tm|] eqn:Ep;
        [|exfalso; apply (Hok t (or_introl eq_refl) Hd Ep)].
      destruct (seasonal_group_range env view tm Hv) as [Hg0 Hg1].
      set (g := seasonal_group env view tm) in *.
      replace (seasonal_step env view (Some data) t)
        with (Some (seasonal_add (Z.to_nat g) (value_or_0 t) data)).
      2:{ unfold seasonal_step; simpl. rewrite Ep.
          destruct (String.eqb_spec (date t) ""); [contradiction|]. simpl. fold g.
          replace ((0 <=? g)%Z && (Z.to_nat g <? length data)) with true; [reflexivity|].
          symmetry. apply andb_true_intro. split; [apply Z.leb_le; lia|apply Nat.ltb_lt; lia]. }
      assert (HL1 : length (seasonal_add (Z.to_nat g) (value_or_0 t) data) = length (seasonal_labels view))
        by (rewrite seasonal_add_eq, seasonal_add_aux_length; exact HL).
      destruct (IH _ Hok' HL1) as (d' & Hf & Hl & Hs & Hn).
      rewrite seasonal_add_eq, seasonal_add_aux_length in Hl.
      exists d'. split; [exact Hf|]. split; [exact Hl|].
      apply String.eqb_neq in Hd. cbn [filter]. rewrite Hd, Ep. cbn [negb andb].
      split.
      * rewrite Hs, seasonal_add_eq, seasonal_add_aux_sum.
        replace ((0 <=? Z.to_nat g) && (Z.to_nat g <? 0 + length data)) with true
          by (symmetry; apply andb_true_intro; split; [apply Nat.leb_le|apply Nat.ltb_lt]; lia).
        simpl. lia.
      * intros i Hi. cbv zeta. rewrite Hn by (rewrite seasonal_add_eq, seasonal_add_aux_length; exact Hi).
        rewrite seasonal_add_eq, seasonal_add_aux_nth by exact Hi. simpl (0 + i).
        destruct (Nat.eqb_spec i (Z.to_nat g)) as [->|Hne].
        -- rewrite Z2Nat.id, Z.eqb_refl by exact Hg0. cbn [fold_left length fst snd].
           f_equal. lia.
        -- rewrite (proj2 (Z.eqb_neq (seasonal_group env view tm) (Z.of_nat i))) by (fold g; lia).
           reflexivity.
Qed.

Lemma fold_seasonal_none (ts : list Transaction) :
  fold_left (seasonal_step env view) ts None = None.
Proof. induction ts as [|t ts IH]; [reflexivity|exact IH]. Qed.

End Seasonal.

Lemma nth_map_default {A B} (f : A -> B) (l : list A) (i : nat) (da : A) (db : B) :
  i < length l -> nth i (map f l) db = f (nth i l da).
Proof.
  revert i; induction l as [|a l IH]; intros i Hi; simpl in *; [lia|].
  destruct i; [reflexivity|]. apply IH. lia.
Qed.

(** [updateSeasonalChart] for the views "monthly", "quarterly" and
    "weekday", when every non-empty date parses: the chart gets the view's
    labels and one count and one average per label; the counts add up to
    the number of dated transactions, label [i] counts the dated
    transactions of group [i] (month, quarter or weekday), and its average
    is the sum of their [totalFlorinValue || 0] divided by that count, or 0
    when there is none. *)
Theorem updateSeasonalChart_groups (env : Env) (view : string) (filtered : list Transaction)
  (Hv : view = "monthly" \/ view = "quarterly" \/ view = "weekday")
  (Hok : forall t, In t filtered -> date t <> "" -> date_parse env (date t) <> None) :
  exists avgs counts,
    updateSeasonalChart env view filtered = Some (seasonal_labels view, avgs, counts)
    /\ length avgs = length (seasonal_labels view)
    /\ length counts = length (seasonal_labels view)
    /\ list_sum counts = length (filter (fun t => negb (String.eqb (date t) "")) filtered)
    /\ forall i, i < length (seasonal_labels view) ->
         let grp := filter (fun t => negb (String.eqb (date t) "")
                        && match date_parse env (date t) with
                           | Some tm => Z.eqb (seasonal_group env view tm) (Z.of_nat i)
                           | None => false end) filtered in
         nth i counts 0 = length grp
         /\ nth i avgs 0%Q
            = if 0 <? length grp
              then (fold_left (fun acc t => (acc + value_or_0 t)%Q) grp 0%Q
                    / inject_Z (Z.of_nat (length grp)))%Q
              else 0%Q.
Proof.
  set (init := map (fun _ : string => (0%Q, 0%nat)) (seasonal_labels view)).
  assert (HL : length init = length (seasonal_labels view)) by apply length_map.
  destruct (seasonal_fold env view Hv filtered init Hok HL) as (d & Hf & Hl & Hs & Hn).
  assert (Hnz : (length (seasonal_labels view) =? 0) = false)
    by (destruct Hv as [ -> | [ -> | -> ] ]; reflexivity).
  unfold updateSeasonalChart. rewrite Hnz. fold init. rewrite Hf.
  eexists _, _. split; [reflexivity|].
  rewrite !length_map. split; [lia|]. split; [lia|].
  assert (Hs0 : list_sum (map snd init) = 0).
  { unfold init. clear. induction (seasonal_labels view); simpl; [reflexivity|]. exact IHl. }
  split; [rewrite Hs, Hs0; reflexivity|].
  intros i Hi. cbv zeta. rewrite HL in Hn. specialize (Hn i Hi). cbv zeta in Hn.
  assert (Hinit : nth i init (0%Q, 0%nat) = (0%Q, 0%nat)).
  { unfold init. rewrite (nth_map_default _ _ _ ""); [reflexivity|exact Hi]. }
  rewrite Hinit in Hn. simpl in Hn.
  split.
  - rewrite (nth_map_default _ _ _ (0%Q, 0%nat)) by lia. rewrite Hn. reflexivity.
  - rewrite (nth_map_default _ _ _ (0%Q, 0%nat)) by lia. rewrite Hn. reflexivity.
Qed.

(** ** Dates that do not parse *)

Lemma fold_none_at {A B} (f : option A -> B -> option A)
  (Hn : forall b, f None b = None) (ts : list B) (t : B) (acc : option A) :
  In t ts -> (forall a, f (Some a) t = None) -> fold_left f ts acc = None.
Proof.
  intros Hin Ht.
  assert (Hnone : forall l, fold_left f l None = None)
    by (intros l; induction l as [|b l IH]; simpl; [reflexivity|rewrite Hn; exact IH]).
  revert acc; induction ts as [|b ts IH]; intros acc; [destruct Hin|].
  simpl. destruct Hin as [<-|Hin].
  - destruct acc as [a|]; [rewrite Ht|rewrite Hn]; apply Hnone.
  - apply IH, Hin.
Qed.

(** [aggregateTimelineData] with the unit "day", "week" or any unit other
    than "month" and "year" throws (the [RangeError] of [toISOString] on an
    invalid date) as soon as one transaction has a non-empty date that
    [new Date] does not parse. *)
Theorem aggregateTimelineData_unparsable_throws (env : Env) (ts : list Transaction)
  (unit : string) (t : Transaction)
  (Hin : In t ts) (Hd : date t <> "") (Hp : date_parse env (date t) = None)
  (Hm : unit <> "month") (Hy : unit <> "year") :
  aggregateTimelineData env ts unit = None.
Proof.
  unfold aggregateTimelineData.
  rewrite (fold_none_at (timeline_step env unit) (fun _ => eq_refl) ts t); [reflexivity|exact Hin|].
  intros a. unfold timeline_step. simpl Js.truthy.
  destruct (String.eqb_spec (date t) "") as [E|_]; [contradiction|]. simpl.
  rewrite Hp. unfold timeline_key.
  destruct (String.eqb_spec unit "month"); [contradiction|].
  destruct (String.eqb_spec unit "year"); [contradiction|reflexivity].
Qed.

(** [updateSeasonalChart] in each of its three views throws (the
    [TypeError] of [data.total] on the [NaN] group of an invalid date) as
    soon as one filtered transaction has a non-empty date that [new Date]
    does not parse. *)
Theorem updateSeasonalChart_unparsable_throws (env : Env) (view : string)
  (filtered : list Transaction) (t : Transaction)
  (Hv : view = "monthly" \/ view = "quarterly" \/ view = "weekday")
  (Hin : In t filtered) (Hd : date t <> "") (Hp : date_parse env (date t) = None) :
  updateSeasonalChart env view filtered = None.
Proof.
  unfold updateSeasonalChart.
  replace ((length (seasonal_labels view) =? 0)) with false
    by (destruct Hv as [ -> | [ -> | -> ] ]; reflexivity).
  rewrite (fold_none_at (seasonal_step env view) (fun _ => eq_refl) filtered t); [reflexivity|exact Hin|].
  intros a. unfold seasonal_step. simpl Js.truthy.
  destruct (String.eqb_spec (date t) "") as [E|_]; [contradiction|]. simpl.
  rewrite Hp. reflexivity.
Qed.

(** ** The tooltip helpers *)

Lemma filter_opt_none_kept {A} (f : A -> option bool) (l : list A) :
  (forall x, f x = Some false) -> filter_opt f l = Some [].
Proof.
  intros Hf. induction l as [|x l IH]; simpl; [reflexivity|]. rewrite Hf, IH. reflexivity.
Qed.

(** [getTransactionCountForDate] and [getAverageAmountForDate] read
    [t.when], a property the transaction objects do not have: for every
    valid timestamp and every filtered list they return 0 (so the timeline
    tooltip always shows "Transactions: 0" and an average of 0), and for an
    invalid timestamp both throw. *)
Theorem tooltip_helpers_zero (env : Env) (timestamp : Z) (filtered : list Transaction) :
  (time_valid timestamp = true ->
     getTransactionCountForDate env timestamp filtered = Some 0
     /\ getAverageAmountForDate env timestamp filtered = Some (Js.Num 0))
  /\ (time_valid timestamp = false ->
     getTransactionCountForDate env timestamp filtered = None
     /\ getAverageAmountForDate env timestamp filtered = None).
Proof.
  assert (Hw : forall d, filter_opt (same_day_when env d) filtered = Some []).
  { intros d. apply filter_opt_none_kept. intros t. reflexivity. }
  unfold getTransactionCountForDate, getAverageAmountForDate.
  split; intros Hv; rewrite Hv; simpl; [rewrite !Hw|]; split; reflexivity.
Qed.

(** ** Instances *)

Lemma pagination_pages_witness :
  (1 <= 2 <= totalPages tx_page_sample)%Z
  /\ page_transactions tx_page_sample 2 <> []
  /\ (nextDisabled (updatePagination tx_page_sample 2) = true <-> 2%Z = totalPages tx_page_sample).
Proof.
  assert (H : (1 <= 2 <= totalPages tx_page_sample)%Z) by (vm_compute; split; discriminate).
  destruct (proj1 (proj2 (pagination_pages tx_page_sample)) 2%Z H) as (_ & Hne & _ & _ & Hn).
  split; [exact H|]. split; [exact Hne|exact Hn].
Defined.

Lemma updateStats_range_people_witness :
  (2 <= length (map date (filter (fun t => negb (String.eqb (date t) "")) tx_dated_sample)))%nat
  /\ exists lo hi, dateRangeText (updateStats tx_dated_sample) = (lo ++ " to " ++ hi)%string
                   /\ In lo (map date (filter (fun t => negb (String.eqb (date t) "")) tx_dated_sample)).
Proof.
  assert (H : (2 <= length (map date (filter (fun t => negb (String.eqb (date t) "")) tx_dated_sample)))%nat)
    by (vm_compute; lia).
  split; [exact H|].
  destruct (proj1 (proj2 (proj2 (updateStats_range_people tx_dated_sample))) H)
    as (lo & hi & Ht & Hlo & _).
  exists lo, hi. split; assumption.
Defined.

Lemma aggregateTimelineData_points_witness :
  (forall t, In t tx_dated_sample -> date t <> "" ->
             timeline_key env_utc "month" (date_parse env_utc (date t)) <> None)
  /\ exists pts, aggregateTimelineData env_utc tx_dated_sample "month" = Some pts
                 /\ StronglySorted (fun a b => String.compare (fst a) (fst b) = Lt) pts.
Proof.
  assert (H : forall t, In t tx_dated_sample -> date t <> "" ->
                        timeline_key env_utc "month" (date_parse env_utc (date t)) <> None).
  { intros t Ht Hd. simpl in Ht.
    repeat (destruct Ht as [<-|Ht]; [vm_compute; try discriminate; exfalso; apply Hd; reflexivity|]).
    destruct Ht. }
  split; [exact H|].
  destruct (aggregateTimelineData_points env_utc "month" tx_dated_sample H) as (pts & H1 & H2 & _).
  exists pts. split; assumption.
Defined.

Lemma updateSeasonalChart_groups_witness :
  ("quarterly" = "monthly" \/ "quarterly" = "quarterly" \/ "quarterly" = "weekday")
  /\ (forall t, In t tx_dated_sample -> date t <> "" -> date_parse env_utc (date t) <> None)
  /\ exists avgs counts,
       updateSeasonalChart env_utc "quarterly" tx_dated_sample
       = Some (seasonal_labels "quarterly", avgs, counts)
       /\ list_sum counts = 4%nat.
Proof.
  assert (Hv : "quarterly" = "monthly" \/ "quarterly" = "quarterly" \/ "quarterly" = "weekday")
    by (right; left; reflexivity).
  assert (H : forall t, In t tx_dated_sample -> date t <> "" -> date_parse env_utc (date t) <> None).
  { intros t Ht Hd. simpl in Ht.
    repeat (destruct Ht as [<-|Ht]; [vm_compute; try discriminate; exfalso; apply Hd; reflexivity|]).
    destruct Ht. }
  split; [exact Hv|]. split; [exact H|].
  destruct (updateSeasonalChart_groups env_utc "quarterly" tx_dated_sample Hv H)
    as (avgs & counts & H1 & _ & _ & Hs & _).
  exists avgs, counts. split; [exact H1|]. rewrite Hs. reflexivity.
Defined.

Lemma aggregateTimelineData_unparsable_throws_witness :
  let ts := parseXMLData env_utc recs_bad_date in
  let t := nth 0 ts tx_default in
  In t ts /\ date t <> "" /\ date_parse env_utc (date t) = None
  /\ aggregateTimelineData env_utc ts "day" = None.
Proof.
  cbv zeta.
  assert (Hin : In (nth 0 (parseXMLData env_utc recs_bad_date) tx_default)
                   (parseXMLData env_utc recs_bad_date)) by (vm_compute; left; reflexivity).
  assert (Hd : date (nth 0 (parseXMLData env_utc recs_bad_date) tx_default) <> "")
    by (vm_compute; discriminate).
  assert (Hp : date_parse env_utc (date (nth 0 (parseXMLData env_utc recs_bad_date) tx_default)) = None)
    by (vm_compute; reflexivity).
  split; [exact Hin|]. split; [exact Hd|]. split; [exact Hp|].
  apply (aggregateTimelineData_unparsable_throws env_utc _ "day" _ Hin Hd Hp);
    vm_compute; discriminate.
Defined.

Lemma updateSeasonalChart_unparsable_throws_witness :
  let ts := parseXMLData env_utc recs_bad_date in
  let t := nth 0 ts tx_default in
  In t ts /\ date t <> "" /\ date_parse env_utc (date t) = None
  /\ updateSeasonalChart env_utc "monthly" ts = None.
Proof.
  cbv zeta.
  assert (Hin : In (nth 0 (parseXMLData env_utc recs_bad_date) tx_default)
                   (parseXMLData env_utc recs_bad_date)) by (vm_compute; left; reflexivity).
  assert (Hd : date (nth 0 (parseXMLData env_utc recs_bad_date) tx_default) <> "")
    by (vm_compute; discriminate).
  assert (Hp : date_parse env_utc (date (nth 0 (parseXMLData env_utc recs_bad_date) tx_default)) = None)
    by (vm_compute; reflexivity).
  split; [exact Hin|]. split; [exact Hd|]. split; [exact Hp|].
  apply (updateSeasonalChart_unparsable_throws env_utc "monthly" _ _ (or_introl eq_refl) Hin Hd Hp).
Defined.

Lemma tooltip_helpers_zero_witness :
  time_valid 0 = true
  /\ date tx_epoch_day = iso_date_part 0
  /\ getTransactionCountForDate env_utc 0 [tx_epoch_day] = Some 0%nat
  /\ getAverageAmountForDate env_utc 0 [tx_epoch_day] = Some (Js.Num 0).
Proof.
  assert (Hv : time_valid 0 = true) by reflexivity.
  split; [exact Hv|]. split; [vm_compute; reflexivity|].
  exact (proj1 (tooltip_helpers_zero env_utc 0 [tx_epoch_day]) Hv).
Defined.

(** ** CSV export *)

Lemma string_app_assoc (a b c : string) : ((a ++ b) ++ c)%string = (a ++ (b ++ c))%string.
Proof. induction a as [|x a IH]; simpl; [reflexivity|]. rewrite IH. reflexivity. Qed.

Lemma string_length_app (a b : string) :
  String.length (a ++ b)%string = String.length a + String.length b.
Proof. induction a as [|x a IH]; simpl; [reflexivity|]. rewrite IH. reflexivity. Qed.

Lemma string_app_assoc_nil (a : string) : (a ++ EmptyString)%string = a.
Proof. induction a as [|x a IH]; simpl; [reflexivity|]. rewrite IH. reflexivity. Qed.

Lemma includes_char_nil (c : ascii) : includes EmptyString (String c EmptyString) = false.
Proof. reflexivity. Qed.

Lemma includes_char_cons (a c : ascii) (s : string) :
  includes (String a s) (String c EmptyString) = Ascii.eqb c a || includes s (String c EmptyString).
Proof.
  unfold includes. cbn [String.index String.prefix].
  destruct (Ascii.ascii_dec c a) as [<-|Hne].
  - rewrite Ascii.eqb_refl. destruct s; reflexivity.
  - destruct (Ascii.eqb_spec c a); [contradiction|]. simpl.
    destruct (String.index 0 (String c EmptyString) s); reflexivity.
Qed.

Lemma read_plain_app (f rest : string) :
  includes f "," = false -> includes f (String newline_char EmptyString) = false ->
  (rest = EmptyString \/ exists c r, rest = String c r /\ (c = ","%char \/ c = newline_char)) ->
  read_plain (f ++ rest) = (f, rest).
Proof.
  intros Hc Hn Hr. induction f as [|a f IH]; simpl.
  - destruct Hr as [->|(c & r & -> & [-> | ->])]; reflexivity.
  - change "," with (String ","%char EmptyString) in Hc.
    rewrite includes_char_cons in Hc, Hn. apply orb_false_iff in Hc as [Hc1 Hc2].
    apply orb_false_iff in Hn as [Hn1 Hn2].
    rewrite Ascii.eqb_sym, Hc1, Ascii.eqb_sym, Hn1. simpl.
    rewrite IH by assumption. reflexivity.
Qed.

Lemma read_quoted_app (f rest : string) :
  (rest = EmptyString \/ exists c r, rest = String c r /\ c <> quote_char) ->
  read_quoted (replace_quotes f ++ String quote_char rest) = Some (f, rest).
Proof.
  intros Hr. induction f as [|a f IH].
  - destruct Hr as [->|(c & r & -> & Hc)]; simpl; [reflexivity|].
    destruct (Ascii.eqb_spec c quote_char); [contradiction|reflexivity].
  - cbn [replace_quotes]. destruct (Ascii.eqb_spec a quote_char) as [->|Hne].
    + simpl. rewrite IH. reflexivity.
    + cbn [append read_quoted]. rewrite (proj2 (Ascii.eqb_neq a quote_char) Hne).
      rewrite IH. reflexivity.
Qed.

Lemma escapeCSV_plain (s : string) : csv_plain s = true -> escapeCSV s = s.
Proof.
  unfold csv_plain, escapeCSV. intros H.
  destruct (_ || _ || _); [discriminate|reflexivity].
Qed.

Lemma read_field_escape (f rest : string) :
  (rest = EmptyString \/ exists c r, rest = String c r /\ (c = ","%char \/ c = newline_char)) ->
  read_field (escapeCSV f ++ rest) = Some (f, rest).
Proof.
  intros Hr. unfold escapeCSV.
  destruct (includes f "," || includes f (String quote_char EmptyString)
            || includes f (String newline_char EmptyString)) eqn:E.
  - cbn [append read_field]. rewrite Ascii.eqb_refl. rewrite string_app_assoc.
    cbn [append]. apply read_quoted_app.
    destruct Hr as [->|(c & r & -> & Hc)]; [left; reflexivity|].
    right. exists c, r. split; [reflexivity|]. destruct Hc as [-> | ->]; discriminate.
  - apply orb_false_iff in E as [E E3]. apply orb_false_iff in E as [E1 E2].
    destruct f as [|a f].
    + simpl. destruct Hr as [->|(c & r & -> & [-> | ->])]; reflexivity.
    + cbn [append read_field]. rewrite includes_char_cons in E2.
      apply orb_false_iff in E2 as [E2 _]. rewrite Ascii.eqb_sym, E2. f_equal.
      change (String a (f ++ rest)) with (String a f ++ rest)%string.
      apply read_plain_app; assumption.
Qed.

Lemma concat_fields_length (g : string -> string) (fs : list string) :
  length fs <= S (String.length (String.concat "," (map g fs))).
Proof.
  induction fs as [|f fs IH]; [simpl; lia|].
  destruct fs as [|f' fs']; [simpl; lia|].
  change (String.concat "," (map g (f :: f' :: fs')))
    with (g f ++ "," ++ String.concat "," (map g (f' :: fs')))%string.
  rewrite string_length_app. cbn [String.length append]. cbn [length] in *. lia.
Qed.

Lemma read_row_fuel_escape (fs : list string) (tl tl' : string) (n : nat) :
  fs <> [] -> length fs <= n ->
  ((tl = EmptyString /\ tl' = EmptyString) \/ tl = String newline_char tl') ->
  read_row_fuel n (String.concat "," (map escapeCSV fs) ++ tl) = Some (fs, tl').
Proof.
  revert n; induction fs as [|f fs IH]; intros n Hne Hn Ht; [congruence|].
  destruct n as [|n]; [simpl in Hn; lia|].
  destruct fs as [|g gs].
  - simpl. rewrite read_field_escape.
    + destruct Ht as [ [ -> -> ] | -> ]; reflexivity.
    + destruct Ht as [ [ -> _ ] | -> ]; [left; reflexivity|right; eexists _, _; split; [reflexivity|right; reflexivity]].
  - change (String.concat "," (map escapeCSV (f :: g :: gs)))
      with (escapeCSV f ++ "," ++ String.concat "," (map escapeCSV (g :: gs)))%string.
    rewrite string_app_assoc. cbn [read_row_fuel].
    rewrite read_field_escape
      by (right; eexists _, _; split; [reflexivity|left; reflexivity]).
    simpl. rewrite IH; [reflexivity|discriminate|simpl in *; lia|exact Ht].
Qed.

(** [escapeCSV] makes any list of fields readable: joined with commas,
    the escaped fields read back (with an RFC 4180 reader) as the fields
    themselves, at the end of the text or before a line break. *)
Theorem escapeCSV_roundtrip (fs : list string) (Hne : fs <> []) (r : string) :
  read_row (String.concat "," (map escapeCSV fs)) = Some (fs, EmptyString)
  /\ read_row (String.concat "," (map escapeCSV fs) ++ String newline_char r) = Some (fs, r).
Proof.
  pose proof (concat_fields_length escapeCSV fs) as Hl.
  split.
  - unfold read_row.
    rewrite <- (string_app_assoc_nil (String.concat "," (map escapeCSV fs))) at 2.
    apply read_row_fuel_escape; [exact Hne| |left; split; reflexivity].
    lia.
  - unfold read_row. apply read_row_fuel_escape; [exact Hne| |right; reflexivity].
    rewrite string_length_app. lia.
Qed.

Lemma escapeCSV_roundtrip_witness :
  ["a, Korn"; String quote_char "x"; "1500"] <> []
  /\ read_row (String.concat "," (map escapeCSV ["a, Korn"; String quote_char "x"; "1500"]))
     = Some (["a, Korn"; String quote_char "x"; "1500"], EmptyString)
  /\ read_row (String.concat "," (map escapeCSV ["a, Korn"; String quote_char "x"; "1500"])
               ++ String newline_char "next")
     = Some (["a, Korn"; String quote_char "x"; "1500"], "next").
Proof. split; [discriminate|]. apply escapeCSV_roundtrip. discriminate. Defined.

Lemma toFixed2_zero (xe : ExportEnv) : toFixed2 xe (Js.Num 0) = "0.00".
Proof. reflexivity. Qed.

Lemma tx_get_export_keys (t : Transaction) :
  tx_get t "when" = Js.Undefined /\ tx_get t "amount" = Js.Undefined
  /\ tx_get t "currency" = Js.Undefined /\ tx_get t "uri" = Js.Undefined
  /\ tx_get t "raw" = Js.Undefined /\ tx_get t "date" = Js.Str (date t)
  /\ tx_get t "entry" = Js.Str (entry t) /\ tx_get t "type" = Js.Str (type t).
Proof. repeat split. Qed.

Lemma js_or_str (s d : string) : Js.or (Js.Str s) (Js.Str d) = Js.Str (or_str s d).
Proof. unfold Js.or, or_str. destruct (Js.truthy (Js.Str s)); reflexivity. Qed.

Lemma or_str_empty (s : string) : or_str s "" = s.
Proof.
  unfold or_str. simpl. destruct (String.eqb_spec s "") as [->|_]; reflexivity.
Qed.

Lemma csv_row_eq (xe : ExportEnv) (t : Transaction) :
  csv_row xe t =
  Some (String.concat ","
          [date t; escapeCSV (entry t); ""; ""; or_str (type t) "Transfer"; "0.00";
           String.concat "; " (extractEntities xe (entry t)); ""]).
Proof.
  destruct (tx_get_export_keys t) as (Hw & Ha & Hc & Hu & _ & Hd & He & Hty).
  unfold csv_row. rewrite Hw, Ha, Hc, Hu, Hd, He, Hty.
  change (Js.or Js.Undefined (Js.Str (date t))) with (Js.Str (date t)).
  rewrite !js_or_str, !or_str_empty.
  change (Js.or Js.Undefined (Js.Str "")) with (Js.Str "").
  change (convertToFlorins_val xe Js.Undefined Js.Undefined) with (Js.Num 0).
  rewrite toFixed2_zero. reflexivity.
Qed.


Lemma map_opt_csv_row (xe : ExportEnv) (ts : list Transaction) :
  map_opt (csv_row xe) ts =
  Some (map (fun t => String.concat ","
          [date t; escapeCSV (entry t); ""; ""; or_str (type t) "Transfer"; "0.00";
           String.concat "; " (extractEntities xe (entry t)); ""]) ts).
Proof.
  induction ts as [|t ts IH]; [reflexivity|]. cbn [map_opt map].
  rewrite csv_row_eq, IH. reflexivity.
Qed.

(** [exportToCSV] never fails on the transactions of the dashboard, and
    every row it writes has an empty Amount, Currency and URI column and
    a Florin Equivalent of 0.00: the transactions have no [amount],
    [currency] or [uri] key (and no [when]), whatever their amounts. *)
Theorem exportToCSV_dashboard (xe : ExportEnv) (ts : list Transaction) :
  exportToCSV xe ts =
  Some (BOM ++ String.concat (String newline_char EmptyString)
    ("Date,Entry (German),Amount,Currency,Type,Florin Equivalent,People/Places,URI"
     :: map (fun t => String.concat ","
          [date t; escapeCSV (entry t); ""; ""; or_str (type t) "Transfer"; "0.00";
           String.concat "; " (extractEntities xe (entry t)); ""]) ts))%string.
Proof. unfold exportToCSV. rewrite map_opt_csv_row. reflexivity. Qed.

Lemma csv_line_length (fs : list string) :
  2 <= length fs -> 1 <= String.length (csv_line fs).
Proof.
  intros H. destruct fs as [|a [|b l]]; cbn [length] in H; try lia.
  unfold csv_line.
  change (String.concat "," (map escapeCSV (a :: b :: l)))
    with (escapeCSV a ++ "," ++ String.concat "," (map escapeCSV (b :: l)))%string.
  rewrite string_length_app. cbn [String.length append]. lia.
Qed.

Lemma csv_lines_length (Ls : list (list string)) :
  Forall (fun fs => 2 <= length fs) Ls ->
  length Ls <= String.length (String.concat (String newline_char EmptyString) (map csv_line Ls)).
Proof.
  induction Ls as [|fs Ls IH]; intros HF; [simpl; lia|].
  inversion HF as [|? ? H1 H2]; subst.
  destruct Ls as [|fs' Ls'].
  - cbn [map String.concat length]. pose proof (csv_line_length fs H1). lia.
  - change (String.concat (String newline_char EmptyString) (map csv_line (fs :: fs' :: Ls')))
      with (csv_line fs ++ String newline_char EmptyString
            ++ String.concat (String newline_char EmptyString) (map csv_line (fs' :: Ls')))%string.
    rewrite string_length_app. cbn [String.length append].
    specialize (IH H2). cbn [length] in *. pose proof (csv_line_length fs H1). lia.
Qed.

Lemma read_row_line (fs : list string) (tl tl' : string) :
  fs <> [] ->
  ((tl = EmptyString /\ tl' = EmptyString) \/ tl = String newline_char tl') ->
  read_row (csv_line fs ++ tl) = Some (fs, tl').
Proof.
  intros Hne Ht. unfold read_row, csv_line. apply read_row_fuel_escape; [exact Hne| |exact Ht].
  pose proof (concat_fields_length escapeCSV fs). rewrite string_length_app. lia.
Qed.

Lemma read_rows_lines (Ls : list (list string)) (n : nat) :
  Ls <> [] -> Forall (fun fs => 2 <= length fs) Ls -> length Ls <= n ->
  read_rows_fuel n (String.concat (String newline_char EmptyString) (map csv_line Ls)) = Some Ls.
Proof.
  revert n. induction Ls as [|fs Ls IH]; intros n Hne HF Hn; [congruence|].
  inversion HF as [|? ? H1 H2]; subst.
  assert (Hfs : fs <> []) by (intros ->; simpl in H1; lia).
  destruct n as [|n]; [simpl in Hn; lia|].
  destruct Ls as [|fs' Ls'].
  - cbn [map String.concat read_rows_fuel].
    rewrite <- (string_app_assoc_nil (csv_line fs)).
    rewrite (read_row_line fs EmptyString EmptyString) by auto. reflexivity.
  - change (String.concat (String newline_char EmptyString) (map csv_line (fs :: fs' :: Ls')))
      with (csv_line fs ++ String newline_char EmptyString
            ++ String.concat (String newline_char EmptyString) (map csv_line (fs' :: Ls')))%string.
    cbn [read_rows_fuel]. cbn [append].
    erewrite read_row_line; [|exact Hfs|right; reflexivity].
    inversion H2 as [|? ? H3 _]; subst.
    pose proof (csv_line_length fs' H3) as Hl.
    destruct (String.concat (String newline_char EmptyString) (map csv_line (fs' :: Ls')))
      as [|c r] eqn:Er.
    + exfalso. destruct Ls' as [|fs'' Ls'']; cbn [map String.concat] in Er.
      * rewrite Er in Hl. simpl in Hl. lia.
      * destruct (csv_line fs') as [|c0 r0]; [simpl in Hl; lia|discriminate].
    + change (option_map (cons fs) (read_rows_fuel n (String c r)) = Some (fs :: fs' :: Ls')).
      rewrite IH; [reflexivity|discriminate|exact H2|cbn [length] in *; lia].
Qed.

Lemma string_app_concat_cons (a sep x : string) (l : list string) :
  (a ++ String.concat sep (x :: l))%string = String.concat sep ((a ++ x)%string :: l).
Proof.
  destruct l as [|y l]; [reflexivity|].
  change (String.concat sep (x :: y :: l)) with (x ++ sep ++ String.concat sep (y :: l))%string.
  change (String.concat sep ((a ++ x)%string :: y :: l))
    with ((a ++ x) ++ sep ++ String.concat sep (y :: l))%string.
  rewrite string_app_assoc. reflexivity.
Qed.

(** The file [exportToCSV] writes reads back with an RFC 4180 reader as
    the header line (the byte order mark glued to its first field) and one
    record per transaction, with the entry text unescaped, as long as the
    date, the type and the joined entities hold no comma, double quote or
    line break. *)
Theorem exportToCSV_read_back (xe : ExportEnv) (ts : list Transaction)
  (Hplain : forall t, In t ts ->
     csv_plain (date t) = true /\ csv_plain (or_str (type t) "Transfer") = true
     /\ csv_plain (String.concat "; " (extractEntities xe (entry t))) = true) :
  exists text, exportToCSV xe ts = Some text /\
  read_rows text =
    Some (((BOM ++ "Date")%string :: ["Entry (German)"; "Amount"; "Currency"; "Type";
                                      "Florin Equivalent"; "People/Places"; "URI"])
          :: map (fun t => [date t; entry t; ""; ""; or_str (type t) "Transfer"; "0.00";
                            String.concat "; " (extractEntities xe (entry t)); ""]) ts).
Proof.
  set (F := fun t => [date t; entry t; ""; ""; or_str (type t) "Transfer"; "0.00";
                      String.concat "; " (extractEntities xe (entry t)); ""]).
  set (hdr := ((BOM ++ "Date")%string :: ["Entry (German)"; "Amount"; "Currency"; "Type";
                                        "Florin Equivalent"; "People/Places"; "URI"])).
  exists (String.concat (String newline_char EmptyString) (map csv_line (hdr :: map F ts))).
  split.
  - unfold exportToCSV. rewrite map_opt_csv_row. f_equal.
    rewrite string_app_concat_cons. cbn [map]. f_equal. f_equal.
    rewrite map_map. apply map_ext_in. intros t Hin.
    destruct (Hplain t Hin) as (H1 & H2 & H3). unfold csv_line, F. cbn [map].
    rewrite (escapeCSV_plain _ H1), (escapeCSV_plain _ H2), (escapeCSV_plain _ H3).
    reflexivity.
  - unfold read_rows. apply read_rows_lines; [discriminate| |].
    + constructor; [cbn; lia|]. apply Forall_forall. intros fs Hin.
      apply in_map_iff in Hin as (t & <- & _). cbn. lia.
    + assert (HF : Forall (fun fs => 2 <= length fs) (hdr :: map F ts)).
      { constructor; [cbn; lia|]. apply Forall_forall. intros fs Hin.
        apply in_map_iff in Hin as (t & <- & _). cbn. lia. }
      pose proof (csv_lines_length _ HF). lia.
Qed.

Lemma exportToCSV_read_back_witness :
  (forall t, In t [tx 0 "1500-01-02" "Korn, Salz" [] 1;
                   tx 1 "" (String quote_char "Wein") [] 2] ->
     csv_plain (date t) = true /\ csv_plain (or_str (type t) "Transfer") = true
     /\ csv_plain (String.concat "; " (extractEntities xe_sample (entry t))) = true)
  /\ exists text, exportToCSV xe_sample [tx 0 "1500-01-02" "Korn, Salz" [] 1;
                                        tx 1 "" (String quote_char "Wein") [] 2] = Some text /\
  read_rows text =
    Some (((BOM ++ "Date")%string :: ["Entry (German)"; "Amount"; "Currency"; "Type";
                                      "Florin Equivalent"; "People/Places"; "URI"])
          :: map (fun t => [date t; entry t; ""; ""; or_str (type t) "Transfer"; "0.00";
                            String.concat "; " (extractEntities xe_sample (entry t)); ""])
                 [tx 0 "1500-01-02" "Korn, Salz" [] 1; tx 1 "" (String quote_char "Wein") [] 2]).
Proof.
  assert (H : forall t, In t [tx 0 "1500-01-02" "Korn, Salz" [] 1;
                              tx 1 "" (String quote_char "Wein") [] 2] ->
     csv_plain (date t) = true /\ csv_plain (or_str (type t) "Transfer") = true
     /\ csv_plain (String.concat "; " (extractEntities xe_sample (entry t))) = true).
  { intros t [ <- | [ <- | [] ] ]; vm_compute; repeat split. }
  split; [exact H|]. apply exportToCSV_read_back. exact H.
Defined.

(** ** JSON export *)

Lemma map_opt_id_none (l : list (option Z)) :
  In None l -> map_opt (fun o => o) l = None.
Proof.
  induction l as [|o l IH]; intros Hin; [destruct Hin|].
  destruct Hin as [->|Hin]; [reflexivity|]. cbn [map_opt].
  rewrite IH by exact Hin. destruct o; reflexivity.
Qed.

Lemma map_opt_id_some (l : list (option Z)) :
  ~ In None l -> exists l', map_opt (fun o => o) l = Some l'
                 /\ length l' = length l /\ (forall z, In z l' <-> In (Some z) l).
Proof.
  induction l as [|o l IH]; intros Hn.
  - exists []. repeat split; simpl; tauto.
  - destruct o as [z|]; [|exfalso; apply Hn; left; reflexivity].
    destruct IH as (l' & E & Hl & Hi); [intros H; apply Hn; right; exact H|].
    exists (z :: l'). cbn [map_opt]. rewrite E. split; [reflexivity|].
    split; [simpl; congruence|]. intros y. simpl. rewrite Hi.
    split; intros [H|H]; [left; congruence|right; exact H|left; congruence|right; exact H].
Qed.

Lemma getDateRange_eq (env : Env) (ts : list Transaction) :
  getDateRange env ts =
  match map (fun t => date_parse env (date t)) (filter (fun t => negb (String.eqb (date t) "")) ts) with
  | [] => Some None
  | d0 :: rest =>
      match map_opt (fun o => o) (d0 :: rest) with
      | Some (z :: zs) => Some (Some (iso_string (zmin_list z zs), iso_string (zmax_list z zs)))
      | _ => None
      end
  end.
Proof.
  unfold getDateRange.
  replace (map (date_of_val env)
             (filter Js.truthy (map (fun t => Js.or (tx_get t "when") (tx_get t "date")) ts)))
    with (map (fun t => date_parse env (date t))
              (filter (fun t => negb (String.eqb (date t) "")) ts)); [reflexivity|].
  induction ts as [|t ts IH]; [reflexivity|].
  destruct (tx_get_export_keys t) as (Hw & _ & _ & _ & _ & Hd & _).
  cbn [map filter]. rewrite Hw, Hd.
  change (Js.or Js.Undefined (Js.Str (date t))) with (Js.Str (date t)).
  cbn [Js.truthy]. destruct (negb (String.eqb (date t) "")); cbn [map]; rewrite IH; reflexivity.
Qed.

Lemma zmin_list_spec (z : Z) (zs : list Z) :
  In (zmin_list z zs) (z :: zs) /\ forall y, In y (z :: zs) -> (zmin_list z zs <= y)%Z.
Proof.
  unfold zmin_list. revert z. induction zs as [|a zs IH]; intros z.
  - simpl. split; [left; reflexivity|]. intros y [<-|[]]. lia.
  - cbn [fold_left]. destruct (IH (Z.min z a)) as [H1 H2]. split.
    + destruct H1 as [H1|H1]; [|right; right; exact H1].
      rewrite <- H1. destruct (Z.min_spec z a) as [[_ ->]|[_ ->]];
        [left; reflexivity|right; left; reflexivity].
    + intros y [<-|[<-|Hy]].
      * specialize (H2 (Z.min z a) (or_introl eq_refl)). lia.
      * specialize (H2 (Z.min z a) (or_introl eq_refl)). lia.
      * apply H2. right. exact Hy.
Qed.

Lemma zmax_list_spec (z : Z) (zs : list Z) :
  In (zmax_list z zs) (z :: zs) /\ forall y, In y (z :: zs) -> (y <= zmax_list z zs)%Z.
Proof.
  unfold zmax_list. revert z. induction zs as [|a zs IH]; intros z.
  - simpl. split; [left; reflexivity|]. intros y [<-|[]]. lia.
  - cbn [fold_left]. destruct (IH (Z.max z a)) as [H1 H2]. split.
    + destruct H1 as [H1|H1]; [|right; right; exact H1].
      rewrite <- H1. destruct (Z.max_spec z a) as [[_ ->]|[_ ->]];
        [right; left; reflexivity|left; reflexivity].
    + intros y [<-|[<-|Hy]].
      * specialize (H2 (Z.max z a) (or_introl eq_refl)). lia.
      * specialize (H2 (Z.max z a) (or_introl eq_refl)). lia.
      * apply H2. right. exact Hy.
Qed.

Lemma json_row_eq (xe : ExportEnv) (t : Transaction) :
  json_row xe t =
  Some {| j_date := if String.eqb (date t) "" then Js.Null else Js.Str (date t);
          j_entry := Js.Str (entry t); j_amount := Js.Null; j_currency := Js.Null;
          j_type := Js.Str (or_str (type t) "Transfer"); j_florinEquivalent := Js.Num 0;
          j_entities := extractEntities xe (entry t); j_uri := Js.Null; j_raw := Js.Null |}.
Proof.
  destruct (tx_get_export_keys t) as (Hw & Ha & Hc & Hu & Hr & Hd & He & Hty).
  unfold json_row. rewrite Hw, Ha, Hc, Hu, Hr, Hd, He, Hty, !js_or_str, or_str_empty.
  unfold Js.or at 1 2. cbn [Js.truthy].
  destruct (String.eqb (date t) ""); reflexivity.
Qed.

Lemma map_opt_json_row (xe : ExportEnv) (ts : list Transaction) :
  map_opt (json_row xe) ts = Some (map (fun t =>
    {| j_date := if String.eqb (date t) "" then Js.Null else Js.Str (date t);
       j_entry := Js.Str (entry t); j_amount := Js.Null; j_currency := Js.Null;
       j_type := Js.Str (or_str (type t) "Transfer"); j_florinEquivalent := Js.Num 0;
       j_entities := extractEntities xe (entry t); j_uri := Js.Null; j_raw := Js.Null |}) ts).
Proof.
  induction ts as [|t ts IH]; [reflexivity|]. cbn [map_opt map].
  rewrite json_row_eq, IH. reflexivity.
Qed.

Lemma export_statistics_zero (env : Env) (xe : ExportEnv) (ts : list Transaction) :
  getUniqueCurrencies ts = [] /\ calculateTotalValue xe ts = Js.Num 0
  /\ Js.num_equiv (calculateAverageTransaction xe ts) (Js.Num 0)
  /\ getCurrencyDistribution xe ts = [] /\ getMonthlyAverages env xe ts = [].
Proof.
  assert (Hcur : filter Js.truthy (map (fun t => tx_get t "currency") ts) = []).
  { induction ts as [|t ts IH]; [reflexivity|]. cbn [map filter].
    destruct (tx_get_export_keys t) as (_ & _ & Hc & _). rewrite Hc. exact IH. }
  assert (Htot : calculateTotalValue xe ts = Js.Num 0).
  { clear Hcur. unfold calculateTotalValue. induction ts as [|t ts IH]; [reflexivity|].
    cbn [fold_left]. destruct (tx_get_export_keys t) as (_ & Ha & Hc & _).
    rewrite Ha, Hc. exact IH. }
  assert (Hdist : forall d, fold_left (distribution_step xe) ts d = d).
  { clear Hcur Htot. induction ts as [|t ts IH]; intros d; [reflexivity|]. cbn [fold_left].
    destruct (tx_get_export_keys t) as (_ & _ & Hc & _).
    unfold distribution_step at 2. rewrite Hc. apply IH. }
  assert (Hmon : forall d, fold_left (monthly_step env xe) ts d = d).
  { clear Hcur Htot Hdist. induction ts as [|t ts IH]; intros d; [reflexivity|]. cbn [fold_left].
    destruct (tx_get_export_keys t) as (Hw & _).
    unfold monthly_step at 2. rewrite Hw. apply IH. }
  split; [unfold getUniqueCurrencies; rewrite Hcur; reflexivity|].
  split; [exact Htot|].
  split.
  - unfold calculateAverageTransaction. rewrite Htot.
    destruct (0 <? length ts)%nat; simpl; [|reflexivity].
    unfold Qdiv. rewrite Qmult_0_l. reflexivity.
  - split; [apply Hdist|]. unfold getMonthlyAverages. rewrite Hmon. reflexivity.
Qed.

Lemma in_none_dec (l : list (option Z)) : {In None l} + {~ In None l}.
Proof.
  induction l as [|o l IH]; [right; intros []|].
  destruct o as [z|]; [|left; left; reflexivity].
  destruct IH as [H|H]; [left; right; exact H|right; intros [E|E]; [discriminate|contradiction]].
Qed.

Lemma in_dated_parse (env : Env) (ts : list Transaction) (o : option Z) :
  In o (map (fun t => date_parse env (date t)) (filter (fun t => negb (String.eqb (date t) "")) ts))
  <-> exists t, In t ts /\ date t <> "" /\ date_parse env (date t) = o.
Proof.
  rewrite in_map_iff. split.
  - intros (t & Ht & Hin). apply filter_In in Hin as [Hin Hd].
    exists t. repeat split; [exact Hin| |exact Ht].
    intros E. rewrite E in Hd. discriminate.
  - intros (t & Hin & Hd & Ht). exists t. split; [exact Ht|].
    apply filter_In. split; [exact Hin|]. destruct (String.eqb_spec (date t) ""); [contradiction|reflexivity].
Qed.

(** [exportToJSON] returns [false] exactly when one transaction has a
    date that [new Date] cannot parse: [Math.min] over the dates is then
    [NaN] and [toISOString] throws. Nothing else in it fails on the
    transactions of the dashboard. *)
Theorem exportToJSON_fails_iff (env : Env) (xe : ExportEnv) (ts : list Transaction) :
  exportToJSON env xe ts = None
  <-> exists t, In t ts /\ date t <> "" /\ date_parse env (date t) = None.
Proof.
  unfold exportToJSON. rewrite getDateRange_eq, map_opt_json_row.
  rewrite <- in_dated_parse.
  remember (map (fun t => date_parse env (date t)) (filter (fun t => negb (String.eqb (date t) "")) ts))
    as L eqn:HL.
  destruct (in_none_dec L) as [Hn|Hn].
  - split; [intros _; exact Hn|intros _].
    destruct L as [|d0 rest]; [destruct Hn|]. rewrite (map_opt_id_none _ Hn). reflexivity.
  - split; [|intros H; contradiction]. intros H. exfalso.
    destruct L as [|d0 rest]; [discriminate|].
    destruct (map_opt_id_some _ Hn) as (l' & E & Hlen & _). rewrite E in H.
    destruct l' as [|z zs]; [discriminate|discriminate].
Qed.

(** On the transactions of the dashboard, whose dates all parse,
    [exportToJSON] succeeds; every exported record has a [null] amount,
    currency, URI and raw field and a florin value of 0, the currency list,
    the currency distribution and the monthly averages are empty, the
    total and the average are 0, and the date range is [null] when no
    transaction is dated and otherwise runs from the earliest to the
    latest parsed date. *)
Theorem exportToJSON_dashboard (env : Env) (xe : ExportEnv) (ts : list Transaction)
  (Hparse : forall t, In t ts -> date t <> "" -> date_parse env (date t) <> None) :
  exists e, exportToJSON env xe ts = Some e
  /\ recordCount e = length ts
  /\ rows e = map (fun t =>
       {| j_date := if String.eqb (date t) "" then Js.Null else Js.Str (date t);
          j_entry := Js.Str (entry t); j_amount := Js.Null; j_currency := Js.Null;
          j_type := Js.Str (or_str (type t) "Transfer"); j_florinEquivalent := Js.Num 0;
          j_entities := extractEntities xe (entry t); j_uri := Js.Null; j_raw := Js.Null |}) ts
  /\ currencies e = [] /\ totalValue e = Js.Num 0
  /\ Js.num_equiv (averageTransaction e) (Js.Num 0)
  /\ currencyDistribution e = [] /\ monthlyAverages e = []
  /\ ((dateRange e = None /\ forall t, In t ts -> date t = "")
      \/ exists lo hi, dateRange e = Some (iso_string lo, iso_string hi)
         /\ (exists t, In t ts /\ date t <> "" /\ date_parse env (date t) = Some lo)
         /\ (exists t, In t ts /\ date t <> "" /\ date_parse env (date t) = Some hi)
         /\ forall t z, In t ts -> date t <> "" -> date_parse env (date t) = Some z ->
            (lo <= z <= hi)%Z).
Proof.
  destruct (export_statistics_zero env xe ts) as (Hc & Ht & Ha & Hd & Hm).
  unfold exportToJSON. rewrite getDateRange_eq, map_opt_json_row.
  assert (Hn : ~ In None (map (fun t => date_parse env (date t))
                             (filter (fun t => negb (String.eqb (date t) "")) ts))).
  { rewrite in_dated_parse. intros (t & Hin & Hdt & Hp). exact (Hparse t Hin Hdt Hp). }
  pose proof (in_dated_parse env ts) as HI.
  remember (map (fun t => date_parse env (date t)) (filter (fun t => negb (String.eqb (date t) "")) ts))
    as L eqn:HL.
  destruct L as [|d0 rest].
  - eexists. split; [reflexivity|]. cbn [recordCount rows currencies totalValue
      averageTransaction currencyDistribution monthlyAverages dateRange].
    repeat (split; [assumption || reflexivity|]). left. split; [reflexivity|].
    intros t Hin. destruct (String.eqb_spec (date t) "") as [E|E]; [exact E|].
    exfalso. apply (proj2 (HI (date_parse env (date t)))). exists t. auto.
  - destruct (map_opt_id_some _ Hn) as (l' & E & Hlen & Hiff). rewrite E.
    destruct l' as [|z zs]; [discriminate|].
    eexists. split; [reflexivity|]. cbn [recordCount rows currencies totalValue
      averageTransaction currencyDistribution monthlyAverages dateRange].
    repeat (split; [assumption || reflexivity|]). right.
    destruct (zmin_list_spec z zs) as [Hmin1 Hmin2].
    destruct (zmax_list_spec z zs) as [Hmax1 Hmax2].
    exists (zmin_list z zs), (zmax_list z zs). split; [reflexivity|].
    split; [apply HI, Hiff, Hmin1|]. split; [apply HI, Hiff, Hmax1|].
    intros t y Hin Hdt Hp.
    assert (Hy : In y (z :: zs)) by (apply Hiff, HI; exists t; auto).
    split; [apply Hmin2, Hy|apply Hmax2, Hy].
Qed.

Lemma exportToJSON_dashboard_witness :
  (forall t, In t tx_dated_sample -> date t <> "" -> date_parse env_utc (date t) <> None)
  /\ exists e, exportToJSON env_utc xe_sample tx_dated_sample = Some e
  /\ recordCount e = length tx_dated_sample
  /\ rows e = map (fun t =>
       {| j_date := if String.eqb (date t) "" then Js.Null else Js.Str (date t);
          j_entry := Js.Str (entry t); j_amount := Js.Null; j_currency := Js.Null;
          j_type := Js.Str (or_str (type t) "Transfer"); j_florinEquivalent := Js.Num 0;
          j_entities := extractEntities xe_sample (entry t); j_uri := Js.Null; j_raw := Js.Null |})
       tx_dated_sample
  /\ currencies e = [] /\ totalValue e = Js.Num 0
  /\ Js.num_equiv (averageTransaction e) (Js.Num 0)
  /\ currencyDistribution e = [] /\ monthlyAverages e = []
  /\ ((dateRange e = None /\ forall t, In t tx_dated_sample -> date t = "")
      \/ exists lo hi, dateRange e = Some (iso_string lo, iso_string hi)
         /\ (exists t, In t tx_dated_sample /\ date t <> "" /\ date_parse env_utc (date t) = Some lo)
         /\ (exists t, In t tx_dated_sample /\ date t <> "" /\ date_parse env_utc (date t) = Some hi)
         /\ forall t z, In t tx_dated_sample -> date t <> "" -> date_parse env_utc (date t) = Some z ->
            (lo <= z <= hi)%Z).
Proof.
  assert (H : forall t, In t tx_dated_sample -> date t <> "" -> date_parse env_utc (date t) <> None).
  { intros t Hin Hd. unfold tx_dated_sample in Hin.
    repeat (destruct Hin as [ <- | Hin ]; [vm_compute; discriminate || (intros; contradiction)|]).
    destruct Hin. }
  split; [exact H|]. apply exportToJSON_dashboard. exact H.
Defined.

(** ** The amounts of parsed transactions *)

Lemma money_step_inv (ams : list Amount) (tot : Js.num) (m : RawMoney) :
  Forall (fun a => isValidCurrency (currency a) = true) ams ->
  tot = fold_left (fun s a => Js.add s (convertToFlorin (amount a) (currency a))) ams (Js.Num 0) ->
  let '(ams', tot') := money_step (ams, tot) m in
  Forall (fun a => isValidCurrency (currency a) = true) ams'
  /\ tot' = fold_left (fun s a => Js.add s (convertToFlorin (amount a) (currency a))) ams' (Js.Num 0).
Proof.
  intros Hv Ht. unfold money_step.
  set (c := match unitResource m with
            | Some r => if Js.truthy (Js.Str r) then split_pop "#" r else "unknown"
            | None => "unknown"
            end).
  destruct (Js.truthy (Js.Str (quantityText m)) && negb (String.eqb c "unknown")); [|auto].
  destruct (validateNumericValue (quantityText m)) as [q|]; [|auto].
  destruct (isValidCurrency c) eqn:Ec; [|auto].
  split.
  - apply Forall_app. split; [exact Hv|]. constructor; [exact Ec|constructor].
  - rewrite fold_left_app. cbn [fold_left amount currency]. rewrite Ht. reflexivity.
Qed.

Lemma fold_money_inv (ms : list RawMoney) (ams : list Amount) (tot : Js.num) :
  Forall (fun a => isValidCurrency (currency a) = true) ams ->
  tot = fold_left (fun s a => Js.add s (convertToFlorin (amount a) (currency a))) ams (Js.Num 0) ->
  let '(ams', tot') := fold_left money_step ms (ams, tot) in
  Forall (fun a => isValidCurrency (currency a) = true) ams'
  /\ tot' = fold_left (fun s a => Js.add s (convertToFlorin (amount a) (currency a))) ams' (Js.Num 0).
Proof.
  revert ams tot. induction ms as [|m ms IH]; intros ams tot Hv Ht; [simpl; auto|].
  cbn [fold_left]. pose proof (money_step_inv ams tot m Hv Ht) as Hs.
  destruct (money_step (ams, tot) m) as [ams1 tot1]. destruct Hs as [Hv1 Ht1].
  exact (IH ams1 tot1 Hv1 Ht1).
Qed.

Lemma parse_record_amounts (env : Env) (i len : nat) (r : RawTransaction) (t : Transaction) :
  parse_record env i len r = Some t ->
  Forall (fun a => isValidCurrency (currency a) = true) (amounts t)
  /\ totalFlorinValue t =
     fold_left (fun s a => Js.add s (convertToFlorin (amount a) (currency a))) (amounts t) (Js.Num 0).
Proof.
  unfold parse_record.
  pose proof (fold_money_inv (money r) [] (Js.Num 0) (Forall_nil _) eq_refl) as Hf.
  destruct (fold_left money_step (money r) ([], Js.Num 0)) as [ams tot].
  destruct (Js.truthy (Js.Str (entryText r))); intros H; [|discriminate].
  injection H as <-. exact Hf.
Qed.

Lemma parse_loop_from (env : Env) (recs : list RawTransaction) :
  forall i ts t, In t (parse_loop env i recs ts) ->
  In t ts \/ exists j len r, parse_record env j len r = Some t.
Proof.
  induction recs as [|r recs IH]; intros i ts t Hin; [left; exact Hin|].
  cbn [parse_loop] in Hin. destruct (IH _ _ _ Hin) as [H|H]; [|right; exact H].
  unfold parse_step in H. destruct (parse_record env i (length ts) r) eqn:E; [|left; exact H].
  apply in_app_or in H as [H|[<-|[]]]; [left; exact H|].
  right. exists i, (length ts), r. exact E.
Qed.

Lemma valid_currency_num (q : Q) (c : string) :
  isValidCurrency c = true -> exists p, convertToFlorin q c = Js.Num p.
Proof.
  unfold isValidCurrency. intros H. apply existsb_exists in H as (k & Hk & E).
  apply String.eqb_eq in E as ->.
  repeat (destruct Hk as [<-|Hk]; [eexists; reflexivity|]). destruct Hk.
Qed.

(** Every amount of a transaction that [parseXMLData] keeps is in one of
    the seven known currencies, and its [totalFlorinValue] is the sum,
    from [0] in the order of the amounts, of their [convertToFlorin]
    values: a finite number, never [NaN]; the money elements that were
    skipped add nothing. *)
Theorem parseXMLData_amounts (env : Env) (recs : list RawTransaction) (t : Transaction)
  (Hin : In t (parseXMLData env recs)) :
  Forall (fun a => isValidCurrency (currency a) = true) (amounts t)
  /\ totalFlorinValue t =
     fold_left (fun s a => Js.add s (convertToFlorin (amount a) (currency a))) (amounts t) (Js.Num 0)
  /\ exists q, totalFlorinValue t = Js.Num q.
Proof.
  destruct (parse_loop_from env recs 0 [] t Hin) as [[]|(j & len & r & E)].
  destruct (parse_record_amounts env j len r t E) as [Hv Ht].
  split; [exact Hv|]. split; [exact Ht|]. rewrite Ht.
  assert (G : forall ams q0, Forall (fun a => isValidCurrency (currency a) = true) ams ->
            exists q, fold_left (fun s a => Js.add s (convertToFlorin (amount a) (currency a)))
                                ams (Js.Num q0) = Js.Num q).
  { induction ams as [|a ams IH]; intros q0 Hf; [exists q0; reflexivity|].
    inversion Hf as [|? ? Ha Hf']; subst. cbn [fold_left].
    destruct (valid_currency_num (amount a) (currency a) Ha) as [p Hp]. rewrite Hp.
    apply IH. exact Hf'. }
  apply G. exact Hv.
Qed.

Lemma parseXMLData_amounts_witness :
  In (hd tx_default (parseXMLData env_utc recs0)) (parseXMLData env_utc recs0)
  /\ (Forall (fun a => isValidCurrency (currency a) = true) (amounts (hd tx_default (parseXMLData env_utc recs0)))
      /\ totalFlorinValue (hd tx_default (parseXMLData env_utc recs0)) =
         fold_left (fun s a => Js.add s (convertToFlorin (amount a) (currency a)))
                   (amounts (hd tx_default (parseXMLData env_utc recs0))) (Js.Num 0)
      /\ exists q, totalFlorinValue (hd tx_default (parseXMLData env_utc recs0)) = Js.Num q).
Proof.
  assert (H : In (hd tx_default (parseXMLData env_utc recs0)) (parseXMLData env_utc recs0))
    by (vm_compute; left; reflexivity).
  split; [exact H|]. exact (parseXMLData_amounts env_utc recs0 _ H).
Defined.

(** ** The currency distribution of the PDF report *)

Lemma fold_left_flat_map {A B C} (f : C -> A -> C) (g : B -> list A) (l : list B) (c : C) :
  fold_left (fun acc b => fold_left f (g b) acc) l c = fold_left f (flat_map g l) c.
Proof.
  revert c. induction l as [|b l IH]; intros c; [reflexivity|].
  cbn [fold_left flat_map]. rewrite fold_left_app. apply IH.
Qed.

Section KeyedUpdate.
  Variable V : Type.
  Variable c : string.
  Variable h : string * V -> string * V.
  Hypothesis h_key : forall e, fst (h e) = fst e.
  Hypothesis h_other : forall e, fst e <> c -> h e = e.

Lemma keyed_update_keys (l : list (string * V)) : map fst (map h l) = map fst l.
  Proof.
    induction l as [|e l IH]; [reflexivity|]. cbn [map]. rewrite IH, h_key. reflexivity.
  Qed.

Lemma keyed_update_find (k : string) (l : list (string * V)) :
    find (fun e => String.eqb (fst e) k) (map h l)
    = option_map h (find (fun e => String.eqb (fst e) k) l).
  Proof.
    induction l as [|e l IH]; [reflexivity|]. cbn [map find]. rewrite h_key.
    destruct (String.eqb (fst e) k); [reflexivity|exact IH].
  Qed.

Lemma keyed_update_absent (l : list (string * V)) : ~ In c (map fst l) -> map h l = l.
  Proof.
    induction l as [|e l IH]; intros Hn; [reflexivity|]. cbn [map].
    rewrite h_other, IH; [reflexivity| |].
    - intros H. apply Hn. right. exact H.
    - intros E. apply Hn. left. exact E.
  Qed.

Lemma keyed_update_sum (cnt : V -> nat) (Hc : forall e, fst e = c -> cnt (snd (h e)) = S (cnt (snd e)))
    (l : list (string * V)) :
    NoDup (map fst l) -> In c (map fst l) ->
    list_sum (map (fun e => cnt (snd e)) (map h l)) = S (list_sum (map (fun e => cnt (snd e)) l)).
  Proof.
    induction l as [|e l IH]; intros Hnd Hin; [destruct Hin|].
    cbn [map] in Hnd. inversion Hnd as [|? ? Hn Hnd']; subst.
    assert (Hs : forall x l0, list_sum (x :: l0) = x + list_sum l0) by reflexivity.
    cbn [map]. rewrite !Hs.
    destruct (String.eqb_spec (fst e) c) as [E|E].
    - rewrite Hc by exact E. rewrite keyed_update_absent by (rewrite <- E; exact Hn).
      reflexivity.
    - rewrite h_other by exact E. destruct Hin as [Hin|Hin]; [contradiction|].
      rewrite IH by assumption. lia.
  Qed.
End KeyedUpdate.

Lemma find_key_in {V} (k : string) (l : list (string * V)) :
  (exists e, find (fun e => String.eqb (fst e) k) l = Some e) <-> In k (map fst l).
Proof.
  induction l as [|e l IH]; [split; [intros [? H]; discriminate|intros []]|].
  cbn [find map In]. destruct (String.eqb_spec (fst e) k) as [E|E].
  - split; [intros _; left; exact E|intros _; eexists; reflexivity].
  - rewrite IH. split; [intros H; right; exact H|intros [H|H]; [contradiction|exact H]].
Qed.

Lemma find_key_nodup {V} (k : string) (x : V) (l : list (string * V)) :
  NoDup (map fst l) -> In (k, x) l -> find (fun e => String.eqb (fst e) k) l = Some (k, x).
Proof.
  induction l as [|e l IH]; intros Hnd Hin; [destruct Hin|].
  cbn [map] in Hnd. inversion Hnd as [|? ? Hn Hnd']; subst.
  cbn [find]. destruct Hin as [->|Hin].
  - cbn [fst]. rewrite String.eqb_refl. reflexivity.
  - destruct (String.eqb_spec (fst e) k) as [E|E]; [|apply IH; assumption].
    exfalso. apply Hn. rewrite E. apply in_map_iff. exists (k, x). auto.
Qed.

Lemma find_key_app_single {V} (k : string) (l : list (string * V)) (x : string * V) :
  find (fun e => String.eqb (fst e) k) (l ++ [x]) =
  match find (fun e => String.eqb (fst e) k) l with
  | Some e => Some e
  | None => if String.eqb (fst x) k then Some x else None
  end.
Proof.
  induction l as [|e l IH]; [reflexivity|]. cbn [app find].
  destruct (String.eqb (fst e) k); [reflexivity|exact IH].
Qed.

Lemma existsb_false_filter {A} (p : A -> bool) (l : list A) : existsb p l = false -> filter p l = [].
Proof.
  induction l as [|x l IH]; intros H; [reflexivity|]. cbn [existsb] in H. cbn [filter].
  apply orb_false_iff in H as [H1 H2]. rewrite H1. apply IH, H2.
Qed.

Lemma pdf_step_inv (done : list Amount) (a : Amount) (dist : list (string * (nat * Js.num))) (n : nat)
  (Ha : ~ In (currency a) Js.object_prototype_keys)
  (Hn : n = length done) (Hnd : NoDup (map fst dist))
  (Hs : list_sum (map (fun e => fst (snd e)) dist) = n)
  (Hf : forall k, find (fun e => String.eqb (fst e) k) dist =
     if existsb (fun b => String.eqb (currency b) k) done
     then Some (k, (length (filter (fun b => String.eqb (currency b) k) done),
                    fold_left (fun s b => Js.add s (pdf_convertToFlorins (amount b) k))
                              (filter (fun b => String.eqb (currency b) k) done) (Js.Num 0)))
     else None) :
  let '(dist', n') := pdf_distribution_step (dist, n) a in
  n' = length (done ++ [a]) /\ NoDup (map fst dist')
  /\ list_sum (map (fun e => fst (snd e)) dist') = n'
  /\ forall k, find (fun e => String.eqb (fst e) k) dist' =
     if existsb (fun b => String.eqb (currency b) k) (done ++ [a])
     then Some (k, (length (filter (fun b => String.eqb (currency b) k) (done ++ [a])),
                    fold_left (fun s b => Js.add s (pdf_convertToFlorins (amount b) k))
                              (filter (fun b => String.eqb (currency b) k) (done ++ [a])) (Js.Num 0)))
     else None.
Proof.
  unfold pdf_distribution_step.
  set (c := currency a). set (v := pdf_convertToFlorins (amount a) c).
  assert (Hlen : S n = length (done ++ [a])) by (rewrite length_app; simpl; lia).
  assert (Hex : forall k, existsb (fun b => String.eqb (currency b) k) (done ++ [a])
                          = existsb (fun b => String.eqb (currency b) k) done || String.eqb c k).
  { intros k. rewrite existsb_app. simpl. rewrite orb_false_r. reflexivity. }
  assert (Hfi : forall k, filter (fun b => String.eqb (currency b) k) (done ++ [a])
                          = filter (fun b => String.eqb (currency b) k) done
                            ++ (if String.eqb c k then [a] else [])).
  { intros k. rewrite filter_app. simpl. fold c. destruct (String.eqb c k); reflexivity. }
  destruct (find (fun e => String.eqb (fst e) c) dist) as [e0|] eqn:Ef.
  - set (h := fun e : string * (nat * Js.num) =>
                if String.eqb (fst e) c then (c, (S (fst (snd e)), Js.add (snd (snd e)) v)) else e).
    assert (Hk : forall e, fst (h e) = fst e).
    { intros e. unfold h. destruct (String.eqb_spec (fst e) c); simpl; congruence. }
    assert (Ho : forall e, fst e <> c -> h e = e).
    { intros e E. unfold h. destruct (String.eqb_spec (fst e) c); [contradiction|reflexivity]. }
    change (map (fun e => if String.eqb (fst e) c then (c, (S (fst (snd e)), Js.add (snd (snd e)) v)) else e) dist)
      with (map h dist).
    assert (Hc : In c (map fst dist)) by (apply find_key_in; exists e0; exact Ef).
    rewrite (Hf c) in Ef. destruct (existsb (fun b => String.eqb (currency b) c) done) eqn:Ec;
      [|discriminate].
    split; [exact Hlen|]. split; [rewrite keyed_update_keys; assumption|].
    split.
    + rewrite (keyed_update_sum _ c h Ho (fun p => fst p)); [lia| |assumption|assumption].
      intros e E. unfold h. rewrite E, String.eqb_refl. reflexivity.
    + intros k. rewrite keyed_update_find by assumption. rewrite Hf, Hex, Hfi.
      destruct (String.eqb_spec c k) as [<-|Hck].
      * rewrite Ec. cbn [option_map]. unfold h. cbn [fst snd]. rewrite String.eqb_refl.
        rewrite length_app, fold_left_app. simpl. f_equal. f_equal. f_equal. lia.
      * rewrite orb_false_r, app_nil_r.
        destruct (existsb (fun b => String.eqb (currency b) k) done); [|reflexivity].
        cbn [option_map]. rewrite Ho; [reflexivity|]. simpl. intros E. apply Hck. symmetry. exact E.
  - rewrite (not_prototype_key c Ha).
    assert (Hc : ~ In c (map fst dist)).
    { intros H. apply find_key_in in H as [e' He']. congruence. }
    rewrite (Hf c) in Ef. destruct (existsb (fun b => String.eqb (currency b) c) done) eqn:Ec;
      [discriminate|].
    split; [exact Hlen|]. split.
    { rewrite map_app. apply NoDup_app; [exact Hnd|constructor; [intros []|constructor]|].
      intros x Hx [<-|[]]. contradiction. }
    split.
    { rewrite map_app, list_sum_app. simpl. lia. }
    intros k. rewrite find_key_app_single, Hf, Hex, Hfi.
    destruct (String.eqb_spec c k) as [<-|Hck].
    + rewrite Ec. cbn [fst]. rewrite String.eqb_refl. simpl.
      rewrite (existsb_false_filter _ _ Ec). reflexivity.
    + rewrite orb_false_r, app_nil_r.
      destruct (existsb (fun b => String.eqb (currency b) k) done); [reflexivity|].
      cbn [fst]. destruct (String.eqb_spec c k); [contradiction|reflexivity].
Qed.

Lemma pdf_fold_inv (rest done : list Amount) (dist : list (string * (nat * Js.num))) (n : nat) :
  (forall a, In a rest -> ~ In (currency a) Js.object_prototype_keys) ->
  n = length done -> NoDup (map fst dist) ->
  list_sum (map (fun e => fst (snd e)) dist) = n ->
  (forall k, find (fun e => String.eqb (fst e) k) dist =
     if existsb (fun b => String.eqb (currency b) k) done
     then Some (k, (length (filter (fun b => String.eqb (currency b) k) done),
                    fold_left (fun s b => Js.add s (pdf_convertToFlorins (amount b) k))
                              (filter (fun b => String.eqb (currency b) k) done) (Js.Num 0)))
     else None) ->
  let '(dist', n') := fold_left pdf_distribution_step rest (dist, n) in
  n' = length (done ++ rest) /\ NoDup (map fst dist')
  /\ list_sum (map (fun e => fst (snd e)) dist') = n'
  /\ forall k, find (fun e => String.eqb (fst e) k) dist' =
     if existsb (fun b => String.eqb (currency b) k) (done ++ rest)
     then Some (k, (length (filter (fun b => String.eqb (currency b) k) (done ++ rest)),
                    fold_left (fun s b => Js.add s (pdf_convertToFlorins (amount b) k))
                              (filter (fun b => String.eqb (currency b) k) (done ++ rest)) (Js.Num 0)))
     else None.
Proof.
  revert done dist n. induction rest as [|a rest IH]; intros done dist n Hk Hn Hnd Hs Hf.
  - cbn [fold_left]. rewrite app_nil_r. auto.
  - cbn [fold_left].
    pose proof (pdf_step_inv done a dist n (Hk a (or_introl eq_refl)) Hn Hnd Hs Hf) as Hst.
    destruct (pdf_distribution_step (dist, n) a) as [dist1 n1].
    destruct Hst as (Hn1 & Hnd1 & Hs1 & Hf1).
    replace (done ++ a :: rest) with ((done ++ [a]) ++ rest) by (rewrite <- app_assoc; reflexivity).
    apply IH; [intros b Hb; apply Hk; right; exact Hb|assumption|assumption|assumption|assumption].
Qed.

(** The currency table of the PDF report is complete and consistent when
    no currency names an [Object.prototype] member (as for the seven codes
    of parsed transactions): one row per currency that occurs among the
    amounts, with the number of amounts in it and the sum of their
    converted values, and a percentage computed from that count and the
    number of all amounts. *)
Theorem pdf_getCurrencyDistribution_counts (percent : nat -> nat -> Js.num) (ts : list Transaction)
  (Hk : forall a, In a (flat_map amounts ts) -> ~ In (currency a) Js.object_prototype_keys) :
  NoDup (map fst (pdf_getCurrencyDistribution percent ts))
  /\ (forall k, In k (map fst (pdf_getCurrencyDistribution percent ts))
                <-> exists a, In a (flat_map amounts ts) /\ currency a = k)
  /\ (forall k c v p, In (k, (c, v, p)) (pdf_getCurrencyDistribution percent ts) ->
        c = length (filter (fun a => String.eqb (currency a) k) (flat_map amounts ts))
        /\ v = fold_left (fun s a => Js.add s (pdf_convertToFlorins (amount a) k))
                         (filter (fun a => String.eqb (currency a) k) (flat_map amounts ts)) (Js.Num 0)
        /\ p = percent c (length (flat_map amounts ts))).
Proof.
  unfold pdf_getCurrencyDistribution. rewrite fold_left_flat_map.
  pose proof (pdf_fold_inv (flat_map amounts ts) [] [] 0 Hk eq_refl (NoDup_nil _) eq_refl
                (fun k => eq_refl)) as Hinv.
  destruct (fold_left pdf_distribution_step (flat_map amounts ts) ([], 0)) as [dist n].
  cbn [app] in Hinv. destruct Hinv as (Hn & Hnd & Hs & Hf).
  assert (Hfst : map fst (map (fun '(k, (c, v)) => (k, (c, v, percent c n))) dist) = map fst dist).
  { clear Hnd Hs Hf. induction dist as [|[k [c v]] dist IH]; [reflexivity|].
    cbn [map]. rewrite IH. reflexivity. }
  rewrite Hfst.
  split; [exact Hnd|]. split.
  - intros k. rewrite <- find_key_in. rewrite Hf.
    destruct (existsb (fun b => String.eqb (currency b) k) (flat_map amounts ts)) eqn:E.
    + apply existsb_exists in E as (a & Ha & Ea). apply String.eqb_eq in Ea.
      split; [intros _; exists a; auto|intros _; eexists; reflexivity].
    + split; [intros [x Hx]; discriminate|]. intros (a & Ha & Ea).
      exfalso. assert (Hx : existsb (fun b => String.eqb (currency b) k) (flat_map amounts ts) = true).
      { apply existsb_exists. exists a. split; [exact Ha|]. apply String.eqb_eq. exact Ea. }
      congruence.
  - intros k c v p Hin. apply in_map_iff in Hin as ([k' [c' v']] & Ee & Hin).
    injection Ee as -> -> -> Ep.
    pose proof (find_key_nodup k (c, v) dist Hnd Hin) as Hfk. rewrite Hf in Hfk.
    destruct (existsb _ _); [|discriminate]. injection Hfk as -> ->.
    split; [reflexivity|]. split; [reflexivity|]. rewrite <- Ep, Hn. reflexivity.
Qed.

Lemma pdf_getCurrencyDistribution_counts_witness :
  (forall a, In a (flat_map amounts [tx 0 "" "a" [amt 2 "f"; amt 30 "s"] 3; tx 1 "" "b" [amt 1 "f"] 1]) ->
     ~ In (currency a) Js.object_prototype_keys)
  /\ (NoDup (map fst (pdf_getCurrencyDistribution (fun c n => Js.Num (inject_Z (Z.of_nat c) / inject_Z (Z.of_nat n) * 100))
                        [tx 0 "" "a" [amt 2 "f"; amt 30 "s"] 3; tx 1 "" "b" [amt 1 "f"] 1]))
  /\ (forall k, In k (map fst (pdf_getCurrencyDistribution (fun c n => Js.Num (inject_Z (Z.of_nat c) / inject_Z (Z.of_nat n) * 100))
                                 [tx 0 "" "a" [amt 2 "f"; amt 30 "s"] 3; tx 1 "" "b" [amt 1 "f"] 1]))
                <-> exists a, In a (flat_map amounts [tx 0 "" "a" [amt 2 "f"; amt 30 "s"] 3; tx 1 "" "b" [amt 1 "f"] 1])
                              /\ currency a = k)
  /\ (forall k c v p, In (k, (c, v, p)) (pdf_getCurrencyDistribution (fun c n => Js.Num (inject_Z (Z.of_nat c) / inject_Z (Z.of_nat n) * 100))
                                           [tx 0 "" "a" [amt 2 "f"; amt 30 "s"] 3; tx 1 "" "b" [amt 1 "f"] 1]) ->
        c = length (filter (fun a => String.eqb (currency a) k)
                           (flat_map amounts [tx 0 "" "a" [amt 2 "f"; amt 30 "s"] 3; tx 1 "" "b" [amt 1 "f"] 1]))
        /\ v = fold_left (fun s a => Js.add s (pdf_convertToFlorins (amount a) k))
                         (filter (fun a => String.eqb (currency a) k)
                                 (flat_map amounts [tx 0 "" "a" [amt 2 "f"; amt 30 "s"] 3; tx 1 "" "b" [amt 1 "f"] 1]))
                         (Js.Num 0)
        /\ p = Js.Num (inject_Z (Z.of_nat c)
                       / inject_Z (Z.of_nat (length (flat_map amounts [tx 0 "" "a" [amt 2 "f"; amt 30 "s"] 3;
                                                                     tx 1 "" "b" [amt 1 "f"] 1]))) * 100))).
Proof.
  assert (H : forall a, In a (flat_map amounts [tx 0 "" "a" [amt 2 "f"; amt 30 "s"] 3; tx 1 "" "b" [amt 1 "f"] 1]) ->
                ~ In (currency a) Js.object_prototype_keys).
  { intros a Ha. simpl in Ha.
    repeat (destruct Ha as [ <- | Ha ];
            [intros Hp; simpl in Hp; repeat (destruct Hp as [Hp|Hp]; [discriminate|]); exact Hp|]).
    destruct Ha. }
  split; [exact H|].
  exact (pdf_getCurrencyDistribution_counts
           (fun c n => Js.Num (inject_Z (Z.of_nat c) / inject_Z (Z.of_nat n) * 100)) _ H).
Defined.

(** ** [calculateStatistics] (src/pdfExporter.js) *)

Section SortHead.
  Variable A : Type.
  Variable cmp : A -> A -> Js.num.
  Variable key : A -> Q.
  Variable P : A -> Prop.
  Hypothesis Hcmp : forall x y, P x -> P y -> (num_lt0 (cmp x y) = true <-> (key y < key x)%Q).

Lemma insert_by_front (x : A) (l : list A) :
    P x -> Forall P l -> (forall y, In y l -> (key y < key x)%Q) -> insert_by cmp x l = x :: l.
  Proof.
    intros Hx Hl Hlt. destruct l as [|y ys]; [reflexivity|]. cbn [insert_by].
    inversion Hl as [|? ? Hy _]; subst.
    rewrite (proj2 (Hcmp x y Hx Hy) (Hlt y (or_introl eq_refl))). reflexivity.
  Qed.

Lemma fold_insert_head (m : A) (p2 r : list A) :
    P m -> Forall P p2 -> (forall x, In x p2 -> (key x <= key m)%Q) ->
    exists r', fold_left (fun acc x => insert_by cmp x acc) p2 (m :: r) = m :: r'.
  Proof.
    intros Hm. revert r. induction p2 as [|x p2 IH]; intros r Hp Hle; [exists r; reflexivity|].
    inversion Hp as [|? ? Hx Hp']; subst. cbn [fold_left insert_by].
    destruct (num_lt0 (cmp x m)) eqn:E.
    - apply (Hcmp x m Hx Hm) in E. exfalso. apply (Qlt_not_le _ _ E). apply Hle. left; reflexivity.
    - apply IH; [assumption|]. intros y Hy. apply Hle. right; assumption.
  Qed.

Lemma js_sort_head (p1 p2 : list A) (m : A) :
    Forall P (p1 ++ m :: p2) ->
    (forall x, In x p1 -> (key x < key m)%Q) -> (forall x, In x p2 -> (key x <= key m)%Q) ->
    exists r, js_sort cmp (p1 ++ m :: p2) = m :: r.
  Proof.
    intros HP Hlt Hle. apply Forall_app in HP as [HP1 HP2]. inversion HP2 as [|? ? Hm HP2']; subst.
    unfold js_sort. rewrite fold_left_app. cbn [fold_left].
    pose proof (js_sort_perm_acc A cmp p1 []) as Hperm. rewrite app_nil_r in Hperm.
    rewrite insert_by_front.
    - apply fold_insert_head; assumption.
    - assumption.
    - apply Forall_forall. intros y Hy. rewrite Forall_forall in HP1. apply HP1.
      apply (Permutation_in _ Hperm Hy).
    - intros y Hy. apply Hlt. apply (Permutation_in _ Hperm Hy).
  Qed.
End SortHead.

Lemma max_decomp {A} (f : A -> nat) (l : list A) :
  l <> [] -> exists p1 m p2, l = p1 ++ m :: p2
                           /\ (forall x, In x p1 -> f x < f m) /\ (forall x, In x p2 -> f x <= f m).
Proof.
  induction l as [|a l IH]; intros Hl; [congruence|].
  destruct l as [|b l'].
  - exists [], a, []. split; [reflexivity|]. split; intros x [].
  - destruct (IH ltac:(discriminate)) as (p1 & m & p2 & Heq & H1 & H2).
    destruct (Nat.le_gt_cases (f m) (f a)) as [Hma|Hma].
    + exists [], a, (b :: l'). split; [reflexivity|]. split; [intros x []|].
      intros x Hx. rewrite Heq in Hx. apply in_app_iff in Hx as [Hx|[<-|Hx]].
      * specialize (H1 x Hx). lia.
      * assumption.
      * specialize (H2 x Hx). lia.
    + exists (a :: p1), m, p2. split; [rewrite Heq; reflexivity|]. split; [|assumption].
      intros x [<-|Hx]; [lia|]. apply H1; assumption.
Qed.

Lemma filter_all_true {A} (f : A -> bool) (l : list A) :
  (forall x, In x l -> f x = true) -> filter f l = l.
Proof.
  induction l as [|a l IH]; intros H; [reflexivity|]. cbn [filter].
  rewrite (H a (or_introl eq_refl)), IH; [reflexivity|]. intros x Hx; apply H; right; assumption.
Qed.

Lemma filter_all_false {A} (f : A -> bool) (l : list A) :
  (forall x, In x l -> f x = false) -> filter f l = [].
Proof.
  induction l as [|a l IH]; intros H; [reflexivity|]. cbn [filter].
  rewrite (H a (or_introl eq_refl)), IH; [reflexivity|]. intros x Hx; apply H; right; assumption.
Qed.

Lemma valid_currency_cases (c : string) :
  isValidCurrency c = true ->
  c = "f" \/ c = "s" \/ c = "d" \/ c = "gr" \/ c = "t" \/ c = "l" \/ c = "p".
Proof.
  intros H. apply existsb_exists in H as (c' & Hin & Heq). apply String.eqb_eq in Heq. subst c'.
  simpl in Hin.
  repeat (destruct Hin as [<-|Hin]; [repeat (first [left; reflexivity | right]); reflexivity|]).
  destruct Hin.
Qed.

Lemma valid_currency_plain (pe : PdfEnv) (c : string) :
  isValidCurrency c = true ->
  String.eqb c "__proto__" = false /\ existsb (String.eqb c) Js.object_prototype_keys = false
  /\ is_array_index c = false /\ In (c, getCurrencyName pe c) pdf_currency_names.
Proof.
  intros H. apply valid_currency_cases in H.
  repeat (destruct H as [->|H];
    [repeat split; try reflexivity; cbn; repeat (first [left; reflexivity | right])|]).
  subst c. repeat split; try reflexivity; cbn; repeat (first [left; reflexivity | right]).
Qed.

Lemma assoc_in (k : string) (own : list (string * Js.val)) (v : Js.val) :
  Js.assoc k own = Some v -> In (k, v) own.
Proof.
  induction own as [|[k' v'] own IH]; cbn [Js.assoc]; [discriminate|].
  destruct (String.eqb_spec k k') as [->|_].
  - intros H; injection H as ->; left; reflexivity.
  - intros H; right; apply IH; assumption.
Qed.

Lemma assoc_none (k : string) (own : list (string * Js.val)) :
  ~ In k (map fst own) -> Js.assoc k own = None.
Proof.
  induction own as [|[k' v'] own IH]; intros Hk; cbn [Js.assoc]; [reflexivity|].
  destruct (String.eqb_spec k k') as [->|_].
  - exfalso; apply Hk; left; reflexivity.
  - apply IH. intros H; apply Hk; right; assumption.
Qed.

Lemma set_own_present_keys (own : list (string * Js.val)) (k : string) (v : Js.val) :
  In k (map fst own) -> map fst (set_own own k v) = map fst own.
Proof.
  induction own as [|[k' v'] own IH]; intros Hk; [destruct Hk|]. cbn [set_own].
  destruct (String.eqb_spec k k') as [->|Hne]; [reflexivity|].
  cbn [map fst]. rewrite IH; [reflexivity|]. destruct Hk as [Hk|Hk]; [cbn in Hk; congruence|assumption].
Qed.

Lemma set_own_absent (own : list (string * Js.val)) (k : string) (v : Js.val) :
  ~ In k (map fst own) -> set_own own k v = own ++ [(k, v)].
Proof.
  induction own as [|[k' v'] own IH]; intros Hk; [reflexivity|]. cbn [set_own].
  destruct (String.eqb_spec k k') as [->|Hne].
  - exfalso; apply Hk; left; reflexivity.
  - rewrite IH; [reflexivity|]. intros H; apply Hk; right; assumption.
Qed.

Lemma set_own_in (own : list (string * Js.val)) (k : string) (v : Js.val) (k' : string) (v' : Js.val) :
  NoDup (map fst own) -> In (k', v') (set_own own k v) ->
  (k' = k /\ v' = v) \/ (k' <> k /\ In (k', v') own).
Proof.
  induction own as [|[k0 v0] own IH]; intros Hnd Hin; cbn [set_own] in Hin.
  - destruct Hin as [Hin|[]]. injection Hin as <- <-. left; split; reflexivity.
  - cbn [map fst] in Hnd. inversion Hnd as [|? ? Hk0 Hnd']; subst.
    destruct (String.eqb_spec k k0) as [->|Hne].
    + destruct Hin as [Hin|Hin].
      * injection Hin as <- <-. left; split; reflexivity.
      * right. split; [|right; assumption]. intros ->. apply Hk0.
        apply (in_map fst _ _ Hin).
    + destruct Hin as [Hin|Hin].
      * injection Hin as <- <-. right. split; [congruence|left; reflexivity].
      * destruct (IH Hnd' Hin) as [H|[H1 H2]]; [left; assumption|].
        right. split; [assumption|right; assumption].
Qed.

Lemma assoc_present (k : string) (own : list (string * Js.val)) :
  In k (map fst own) -> exists v, Js.assoc k own = Some v.
Proof.
  induction own as [|[k' v'] own IH]; intros Hk; [destruct Hk|]. cbn [Js.assoc].
  destruct (String.eqb_spec k k') as [->|Hne]; [exists v'; reflexivity|].
  apply IH. destruct Hk as [Hk|Hk]; [cbn in Hk; congruence|assumption].
Qed.

Lemma js_set_app1 (l : list string) (x : string) :
  js_set (l ++ [x]) = if existsb (String.eqb x) (js_set l) then js_set l else js_set l ++ [x].
Proof. unfold js_set. rewrite fold_left_app. reflexivity. Qed.

Lemma js_set_in (l : list string) (x : string) : In x (js_set l) <-> In x l.
Proof.
  destruct (js_set_acc l [] (NoDup_nil _)) as [_ H]. unfold js_set. rewrite H. simpl. tauto.
Qed.

Lemma js_set_nodup (l : list string) : NoDup (js_set l).
Proof. exact (proj1 (js_set_acc l [] (NoDup_nil _))). Qed.

Lemma count_app1 (l : list string) (k c : string) :
  length (filter (String.eqb k) (l ++ [c]))
  = length (filter (String.eqb k) l) + (if String.eqb k c then 1 else 0).
Proof.
  rewrite filter_app, length_app. cbn [filter]. destruct (String.eqb k c); reflexivity.
Qed.

Lemma currency_count_step_inv (pe : PdfEnv) (own : list (string * Js.val)) (done : list string)
  (a : Amount) :
  isValidCurrency (currency a) = true ->
  map fst own = js_set done ->
  (forall k v, In (k, v) own -> exists q, v = Js.Number (Js.Num q)
       /\ (q == inject_Z (Z.of_nat (length (filter (String.eqb k) done))))%Q) ->
  map fst (currency_count_step pe own a) = js_set (done ++ [currency a])
  /\ (forall k v, In (k, v) (currency_count_step pe own a) -> exists q, v = Js.Number (Js.Num q)
       /\ (q == inject_Z (Z.of_nat (length (filter (String.eqb k) (done ++ [currency a])))))%Q).
Proof.
  intros Hv Hkeys Hvals.
  destruct (valid_currency_plain pe _ Hv) as (Hp & Hproto & _ & _).
  unfold currency_count_step. rewrite Hp.
  assert (Hnd : NoDup (map fst own)) by (rewrite Hkeys; apply js_set_nodup).
  rewrite js_set_app1.
  destruct (in_dec string_dec (currency a) (map fst own)) as [Hin|Hnin].
  - destruct (assoc_present _ _ Hin) as [v0 Hv0].
    destruct (Hvals _ _ (assoc_in _ _ _ Hv0)) as (q & -> & Hq).
    assert (Hpos : length (filter (String.eqb (currency a)) done) <> 0).
    { rewrite Hkeys, js_set_in in Hin.
      assert (Hf : In (currency a) (filter (String.eqb (currency a)) done))
        by (apply filter_In; split; [assumption|apply String.eqb_refl]).
      destruct (filter (String.eqb (currency a)) done); [destruct Hf|discriminate]. }
    assert (Htr : Js.truthy (Js.Number (Js.Num q)) = true).
    { cbn. destruct (Qeq_bool q 0) eqn:E; [|reflexivity]. exfalso.
      apply Qeq_bool_iff in E. rewrite Hq in E. unfold Qeq in E. simpl in E. lia. }
    unfold Js.get, Js.or. rewrite Hv0, Htr. cbn [js_plus_one Js.add].
    assert (Hex : existsb (String.eqb (currency a)) (js_set done) = true).
    { apply existsb_exists. exists (currency a). split; [rewrite <- Hkeys; assumption|].
      apply String.eqb_refl. }
    rewrite Hex. split; [rewrite set_own_present_keys; assumption|].
    intros k v Hkv. rewrite count_app1.
    destruct (set_own_in _ _ _ _ _ Hnd Hkv) as [[-> ->]|[Hne Hkv']].
    + exists (q + 1)%Q. split; [reflexivity|]. rewrite String.eqb_refl.
      rewrite Nat2Z.inj_add, inject_Z_plus, <- Hq. reflexivity.
    + destruct (Hvals _ _ Hkv') as (q' & -> & Hq'). exists q'. split; [reflexivity|].
      rewrite (proj2 (String.eqb_neq k (currency a)) Hne), Nat.add_0_r. exact Hq'.
  - unfold Js.get, Js.or. rewrite (assoc_none _ _ Hnin), Hproto. cbn [Js.truthy js_plus_one Js.add].
    assert (Hex : existsb (String.eqb (currency a)) (js_set done) = false).
    { destruct (existsb (String.eqb (currency a)) (js_set done)) eqn:E; [|reflexivity].
      exfalso. apply existsb_exists in E as (y & Hy & Hxy). apply String.eqb_eq in Hxy. subst y.
      apply Hnin. rewrite Hkeys. assumption. }
    rewrite Hex, set_own_absent by assumption. rewrite map_app, Hkeys. split; [reflexivity|].
    intros k v Hkv. rewrite count_app1. apply in_app_iff in Hkv as [Hkv|[Hkv|[]]].
    + destruct (Hvals _ _ Hkv) as (q' & -> & Hq'). exists q'. split; [reflexivity|].
      assert (Hne : k <> currency a).
      { intros ->. apply Hnin. apply (in_map fst _ _ Hkv). }
      rewrite (proj2 (String.eqb_neq k (currency a)) Hne), Nat.add_0_r. exact Hq'.
    + injection Hkv as <- <-. exists (0 + 1)%Q. split; [reflexivity|].
      rewrite String.eqb_refl.
      rewrite (filter_all_false (String.eqb (currency a)) done).
      * reflexivity.
      * intros x Hx. apply String.eqb_neq. intros <-. apply Hnin. rewrite Hkeys, js_set_in. exact Hx.
Qed.

Lemma currency_count_fold (pe : PdfEnv) (rest : list Amount) (own : list (string * Js.val))
  (done : list string) :
  (forall a, In a rest -> isValidCurrency (currency a) = true) ->
  map fst own = js_set done ->
  (forall k v, In (k, v) own -> exists q, v = Js.Number (Js.Num q)
       /\ (q == inject_Z (Z.of_nat (length (filter (String.eqb k) done))))%Q) ->
  map fst (fold_left (currency_count_step pe) rest own) = js_set (done ++ map currency rest)
  /\ (forall k v, In (k, v) (fold_left (currency_count_step pe) rest own) ->
       exists q, v = Js.Number (Js.Num q)
       /\ (q == inject_Z (Z.of_nat (length (filter (String.eqb k) (done ++ map currency rest)))))%Q).
Proof.
  revert own done. induction rest as [|a rest IH]; intros own done Hv Hk Hvals.
  - rewrite app_nil_r. split; assumption.
  - cbn [fold_left map].
    destruct (currency_count_step_inv pe own done a (Hv a (or_introl eq_refl)) Hk Hvals) as [Hk' Hv'].
    replace (done ++ currency a :: map currency rest) with ((done ++ [currency a]) ++ map currency rest)
      by (rewrite <- app_assoc; reflexivity).
    apply IH; [|assumption|assumption]. intros a' Ha'; apply Hv; right; assumption.
Qed.

Lemma num_lt0_sub (a b : Q) : num_lt0 (Js.Num (a - b)) = true <-> (a < b)%Q.
Proof.
  cbn [num_lt0]. unfold Qlt_bool. rewrite negb_true_iff. split.
  - intros H. apply Qnot_le_lt. intros Hle. apply Qle_minus_iff in Hle.
    apply Qle_bool_iff in Hle. unfold Qminus in H. congruence.
  - intros H. destruct (Qle_bool 0 (a - b)) eqn:E; [|reflexivity]. exfalso.
    apply Qle_bool_iff in E. apply (Qlt_not_le _ _ H). apply Qle_minus_iff. exact E.
Qed.

(** [calculateStatistics]: when every amount is in a valid currency, the
    most common currency is "N/A" if there is no amount; otherwise it is the
    name of the currency [c] with the largest number of amounts, the first
    such one in order of first occurrence: every currency seen before [c]
    has strictly fewer amounts, every one seen after it at most as many. The
    name is the one in the [names] table, never the upper-cased code. *)
Theorem calculateStatistics_mostCommonCurrency (pe : PdfEnv) (ts : list Transaction)
  (Hv : forall a, In a (flat_map amounts ts) -> isValidCurrency (currency a) = true) :
  (map currency (flat_map amounts ts) = [] ->
     mostCommonCurrency (calculateStatistics pe ts) = Js.Str "N/A")
  /\ (map currency (flat_map amounts ts) <> [] ->
      exists p1 c p2,
        js_set (map currency (flat_map amounts ts)) = p1 ++ c :: p2
        /\ (forall c', In c' p1 -> length (filter (String.eqb c') (map currency (flat_map amounts ts)))
                                  < length (filter (String.eqb c) (map currency (flat_map amounts ts))))
        /\ (forall c', In c' p2 -> length (filter (String.eqb c') (map currency (flat_map amounts ts)))
                                  <= length (filter (String.eqb c) (map currency (flat_map amounts ts))))
        /\ mostCommonCurrency (calculateStatistics pe ts) = getCurrencyName pe c
        /\ In (c, mostCommonCurrency (calculateStatistics pe ts)) pdf_currency_names).
Proof.
  set (cmp := fun a b : string * Js.val => Js.sub (Js.to_number (snd b)) (Js.to_number (snd a))).
  assert (Hmc : mostCommonCurrency (calculateStatistics pe ts)
                = match js_sort cmp (object_entries
                          (fold_left (currency_count_step pe) (flat_map amounts ts) [])) with
                  | [] => Js.Str "N/A"
                  | (k, _) :: _ => getCurrencyName pe k
                  end).
  { destruct ts as [|t ts']; [reflexivity|]. unfold calculateStatistics. cbn [mostCommonCurrency].
    rewrite (fold_left_flat_map (currency_count_step pe) amounts (t :: ts') []). reflexivity. }
  rewrite Hmc. clear Hmc.
  set (cs := map currency (flat_map amounts ts)).
  destruct (currency_count_fold pe (flat_map amounts ts) [] [] Hv eq_refl
              (fun k v (H : In (k, v) []) => match H with end)) as [Hkeys Hvals].
  cbn [app] in Hkeys, Hvals. fold cs in Hkeys, Hvals.
  set (own := fold_left (currency_count_step pe) (flat_map amounts ts) []) in *.
  assert (Hval : forall k, In k (map fst own) -> isValidCurrency k = true).
  { intros k Hk. rewrite Hkeys, js_set_in in Hk. unfold cs in Hk.
    apply in_map_iff in Hk as (a & <- & Ha). apply Hv; assumption. }
  assert (Hobj : object_entries own = own).
  { unfold object_entries. rewrite filter_all_false, filter_all_true; [reflexivity| |].
    - intros e He. apply negb_true_iff.
      destruct (valid_currency_plain pe (fst e) (Hval _ (in_map fst _ _ He))) as (_ & _ & H & _).
      exact H.
    - intros e He.
      destruct (valid_currency_plain pe (fst e) (Hval _ (in_map fst _ _ He))) as (_ & _ & H & _).
      exact H. }
  rewrite Hobj. split.
  - intros Hcs. rewrite Hcs in Hkeys. cbn in Hkeys. apply map_eq_nil in Hkeys. rewrite Hkeys.
    reflexivity.
  - intros Hcs.
    assert (Hown : own <> []).
    { intros Hn. destruct cs as [|c0 cs'] eqn:Ec; [congruence|].
      assert (Hin : In c0 (map fst own)) by (rewrite Hkeys, js_set_in; left; reflexivity).
      rewrite Hn in Hin. destruct Hin. }
    set (f := fun e : string * Js.val => length (filter (String.eqb (fst e)) cs)).
    destruct (max_decomp f own Hown) as (p1 & m & p2 & Heq & H1 & H2).
    set (key := fun e : string * Js.val =>
                  match snd e with Js.Number (Js.Num q) => q | _ => 0%Q end).
    set (P := fun e : string * Js.val => exists q, snd e = Js.Number (Js.Num q)
                 /\ (q == inject_Z (Z.of_nat (f e)))%Q).
    assert (HP : Forall P own).
    { apply Forall_forall. intros [k v] Hkv. apply Hvals. exact Hkv. }
    assert (Hkey : forall e, P e -> (key e == inject_Z (Z.of_nat (f e)))%Q).
    { intros e (q & Hq & Hqe). unfold key. rewrite Hq. exact Hqe. }
    assert (Hcmp : forall x y, P x -> P y -> (num_lt0 (cmp x y) = true <-> (key y < key x)%Q)).
    { intros x y (qx & Hx & _) (qy & Hy & _). unfold cmp, key. rewrite Hx, Hy.
      cbn [Js.to_number Js.sub]. apply num_lt0_sub. }
    rewrite Forall_forall in HP.
    assert (HPm : P m) by (apply HP; rewrite Heq; apply in_or_app; right; left; reflexivity).
    destruct (js_sort_head _ cmp key P Hcmp p1 p2 m) as [r Hr].
    + rewrite <- Heq. apply Forall_forall. exact HP.
    + intros x Hx. assert (HPx : P x) by (apply HP; rewrite Heq; apply in_or_app; left; exact Hx).
      rewrite (Hkey x HPx), (Hkey m HPm), <- Zlt_Qlt. apply Nat2Z.inj_lt. apply H1. exact Hx.
    + intros x Hx.
      assert (HPx : P x) by (apply HP; rewrite Heq; apply in_or_app; right; right; exact Hx).
      rewrite (Hkey x HPx), (Hkey m HPm), <- Zle_Qle. apply Nat2Z.inj_le. apply H2. exact Hx.
    + rewrite <- Heq in Hr. rewrite Hr. destruct m as [c vm].
      exists (map fst p1), c, (map fst p2). split; [|split; [|split; [|split]]].
      * rewrite <- Hkeys, Heq, map_app. reflexivity.
      * intros c' Hc'. apply in_map_iff in Hc' as (e & <- & He). exact (H1 e He).
      * intros c' Hc'. apply in_map_iff in Hc' as (e & <- & He). exact (H2 e He).
      * reflexivity.
      * apply valid_currency_plain. apply Hval. rewrite Heq, map_app. apply in_or_app. right.
        left. reflexivity.
Qed.

Lemma calculateStatistics_mostCommonCurrency_witness :
  (forall a, In a (flat_map amounts pdf_tx_sample) -> isValidCurrency (currency a) = true)
  /\ ((map currency (flat_map amounts pdf_tx_sample) = [] ->
       mostCommonCurrency (calculateStatistics pe_sample pdf_tx_sample) = Js.Str "N/A")
  /\ (map currency (flat_map amounts pdf_tx_sample) <> [] ->
      exists p1 c p2,
        js_set (map currency (flat_map amounts pdf_tx_sample)) = p1 ++ c :: p2
        /\ (forall c', In c' p1 -> length (filter (String.eqb c') (map currency (flat_map amounts pdf_tx_sample)))
                                  < length (filter (String.eqb c) (map currency (flat_map amounts pdf_tx_sample))))
        /\ (forall c', In c' p2 -> length (filter (String.eqb c') (map currency (flat_map amounts pdf_tx_sample)))
                                  <= length (filter (String.eqb c) (map currency (flat_map amounts pdf_tx_sample))))
        /\ mostCommonCurrency (calculateStatistics pe_sample pdf_tx_sample) = getCurrencyName pe_sample c
        /\ In (c, mostCommonCurrency (calculateStatistics pe_sample pdf_tx_sample)) pdf_currency_names)).
Proof.
  assert (H : forall a, In a (flat_map amounts pdf_tx_sample) -> isValidCurrency (currency a) = true).
  { intros a Ha. vm_compute in Ha.
    repeat (destruct Ha as [<-|Ha]; [reflexivity|]). destruct Ha. }
  split; [exact H|]. exact (calculateStatistics_mostCommonCurrency pe_sample pdf_tx_sample H).
Defined.

Lemma pdf_total_fold (ts : list Transaction) (q0 : Q) :
  exists q, fold_left (fun sum t => Js.add sum (Js.to_number (Js.or (Js.Number (totalFlorinValue t))
                                                                 (Js.Number (Js.Num 0)))))
                      ts (Js.Num q0) = Js.Num q
            /\ (q == q0 + fold_right Qplus 0
                        (map (fun t => match totalFlorinValue t with Js.Num v => v | Js.NaN => 0 end) ts))%Q.
Proof.
  revert q0. induction ts as [|t ts IH]; intros q0.
  - exists q0. split; [reflexivity|]. cbn. rewrite Qplus_0_r. reflexivity.
  - cbn [fold_left map fold_right].
    destruct (totalFlorinValue t) as [v|] eqn:Ev.
    + unfold Js.or. cbn [Js.truthy Js.num_truthy].
      destruct (Qeq_bool v 0) eqn:Ez; cbn [negb Js.to_number Js.add].
      * destruct (IH (q0 + 0)%Q) as (q & Hq & Hqe). exists q. split; [exact Hq|].
        apply Qeq_bool_iff in Ez. rewrite Hqe, Ez. ring.
      * destruct (IH (q0 + v)%Q) as (q & Hq & Hqe). exists q. split; [exact Hq|].
        rewrite Hqe. ring.
    + cbn [Js.or Js.truthy Js.num_truthy negb Js.to_number Js.add].
      destruct (IH (q0 + 0)%Q) as (q & Hq & Hqe). exists q. split; [exact Hq|].
      rewrite Hqe. ring.
Qed.

(** [calculateStatistics] on a non-empty list: the count is the number of
    transactions; the total is a number, never NaN: the sum of the florin
    values with a NaN value counted as 0, and the average is that total
    divided by the count. With [ds] the non-empty dates, the date range is
    "N/A" when there is none and otherwise "lo to hi" for the least and the
    greatest date in code-unit order, also when there is a single date
    ("d to d"). The entity count is the number of distinct people. *)
Theorem calculateStatistics_summary (pe : PdfEnv) (ts : list Transaction) (Hne : ts <> []) :
  let ds := map date (filter (fun t => negb (String.eqb (date t) "")) ts) in
  let s := calculateStatistics pe ts in
  totalCount s = length ts
  /\ (exists q, stats_totalValue s = Js.Num q
        /\ averageValue s = Js.Num (q / inject_Z (Z.of_nat (length ts)))
        /\ (q == fold_right Qplus 0
                   (map (fun t => match totalFlorinValue t with Js.Num v => v | Js.NaN => 0 end) ts))%Q)
  /\ (ds = [] -> stats_dateRange s = "N/A")
  /\ (forall d, ds = [d] -> stats_dateRange s = (d ++ " to " ++ d)%string)
  /\ (ds <> [] ->
      exists lo hi, stats_dateRange s = (lo ++ " to " ++ hi)%string
                    /\ In lo ds /\ In hi ds
                    /\ forall d, In d ds -> String.leb lo d = true /\ String.leb d hi = true)
  /\ (exists u, NoDup u
                /\ (forall p, In p u <-> exists t, In t ts /\ In p (people t))
                /\ uniqueEntities s = length u).
Proof.
  cbv zeta. destruct ts as [|t0 ts']; [congruence|]. clear Hne.
  set (ts := t0 :: ts').
  unfold calculateStatistics. fold ts.
  change (match ts with [] => _ | _ :: _ => ?r end) with r. cbv zeta.
  cbn [totalCount stats_totalValue averageValue stats_dateRange uniqueEntities].
  change (fun t => Js.truthy (Js.Str (date t))) with (fun t => negb (String.eqb (date t) "")).
  set (ds := map date (filter (fun t => negb (String.eqb (date t) "")) ts)).
  pose proof (js_sort_perm _ default_sort_compare ds) as Hp.
  pose proof (default_sort_sorted ds) as Hs.
  set (sd := js_sort default_sort_compare ds) in *.
  split; [reflexivity|]. split; [|split; [|split; [|split]]].
  - destruct (pdf_total_fold ts 0) as (q & Hq & Hqe). exists q. rewrite Hq.
    split; [reflexivity|]. split; [reflexivity|]. rewrite Hqe. ring.
  - intros Hd. rewrite Hd in Hp. symmetry in Hp. apply Permutation_nil in Hp. rewrite Hp. reflexivity.
  - intros d Hd. rewrite Hd in Hp. symmetry in Hp. apply Permutation_length_1_inv in Hp.
    rewrite Hp. reflexivity.
  - intros Hds.
    destruct sd as [|lo r] eqn:Esd.
    + exfalso. apply Hds. apply Permutation_nil. exact Hp.
    + exists lo, (last (lo :: r) "").
      split; [reflexivity|].
      assert (Hin : forall x, In x ds <-> In x (lo :: r)).
      { intros x; split; apply Permutation_in; [symmetry|]; assumption. }
      split; [apply Hin; left; reflexivity|].
      split; [apply Hin; apply last_in_nonempty; discriminate|].
      intros d Hd. apply Hin in Hd. split.
      * destruct Hd as [<-|Hd]; [apply string_leb_refl|].
        apply StronglySorted_inv in Hs as [_ Hf]. rewrite Forall_forall in Hf. apply Hf, Hd.
      * apply (strongly_sorted_last (fun a b => String.leb a b = true) string_leb_refl); assumption.
  - destruct (js_set_acc (flat_map people ts) [] (NoDup_nil _)) as [H1 H2].
    eexists. split; [exact H1|]. split; [|reflexivity].
    intros p. unfold js_set. rewrite H2, in_flat_map. simpl. tauto.
Qed.

Lemma calculateStatistics_summary_witness :
  pdf_tx_sample <> []
  /\ (let ds := map date (filter (fun t => negb (String.eqb (date t) "")) pdf_tx_sample) in
      let s := calculateStatistics pe_sample pdf_tx_sample in
  totalCount s = length pdf_tx_sample
  /\ (exists q, stats_totalValue s = Js.Num q
        /\ averageValue s = Js.Num (q / inject_Z (Z.of_nat (length pdf_tx_sample)))
        /\ (q == fold_right Qplus 0
                   (map (fun t => match totalFlorinValue t with Js.Num v => v | Js.NaN => 0 end)
                        pdf_tx_sample))%Q)
  /\ (ds = [] -> stats_dateRange s = "N/A")
  /\ (forall d, ds = [d] -> stats_dateRange s = (d ++ " to " ++ d)%string)
  /\ (ds <> [] ->
      exists lo hi, stats_dateRange s = (lo ++ " to " ++ hi)%string
                    /\ In lo ds /\ In hi ds
                    /\ forall d, In d ds -> String.leb lo d = true /\ String.leb d hi = true)
  /\ (exists u, NoDup u
                /\ (forall p, In p u <-> exists t, In t pdf_tx_sample /\ In p (people t))
                /\ uniqueEntities s = length u)).
Proof.
  split; [discriminate|]. apply calculateStatistics_summary. discriminate.
Defined.

(** ** [truncateText] and [addTransactionTable] (src/pdfExporter.js) *)

Lemma substring_prefix (n : nat) (s : string) :
  exists rest, s = (substring 0 n s ++ rest)%string
               /\ String.length (substring 0 n s) = Nat.min n (String.length s).
Proof.
  revert n. induction s as [|c s IH]; intros n.
  - exists EmptyString. destruct n; split; reflexivity.
  - destruct n as [|n].
    + exists (String c s). split; reflexivity.
    + destruct (IH n) as (rest & Hs & Hl). exists rest. cbn [substring String.length append].
      split; [rewrite <- Hs; reflexivity|]. rewrite Hl. reflexivity.
Qed.

Lemma truncateText_spec (text : string) (n : nat) :
  3 <= n ->
  String.length (truncateText text n) <= n
  /\ (truncateText text n = text
      \/ exists p rest, text = (p ++ rest)%string /\ String.length p = n - 3
                        /\ truncateText text n = (p ++ "...")%string).
Proof.
  intros Hn. unfold truncateText.
  destruct (Nat.leb_spec (String.length text) n) as [Hle|Hgt].
  - split; [exact Hle|left; reflexivity].
  - destruct (substring_prefix (n - 3) text) as (rest & Hs & Hl).
    split.
    + rewrite string_length_app, Hl. cbn [String.length]. lia.
    + right. exists (substring 0 (n - 3) text), rest. split; [exact Hs|]. split; [|reflexivity].
      rewrite Hl. lia.
Qed.

(** [truncateText] with a limit of at least 3: the result is at most
    [maxLength] code units long, and it is either the text itself or a
    prefix of the text of [maxLength - 3] code units followed by "...". *)
Theorem truncateText_bound (text : string) (maxLength : nat) (Hn : 3 <= maxLength) :
  String.length (truncateText text maxLength) <= maxLength
  /\ (truncateText text maxLength = text
      \/ exists p rest, text = (p ++ rest)%string /\ String.length p = maxLength - 3
                        /\ truncateText text maxLength = (p ++ "...")%string).
Proof. apply truncateText_spec. exact Hn. Qed.

Lemma truncateText_bound_witness :
  3 <= 10
  /\ (String.length (truncateText "Zehent von Pfarrkirchen" 10) <= 10
      /\ (truncateText "Zehent von Pfarrkirchen" 10 = "Zehent von Pfarrkirchen"
          \/ exists p rest, "Zehent von Pfarrkirchen" = (p ++ rest)%string
                            /\ String.length p = 10 - 3
                            /\ truncateText "Zehent von Pfarrkirchen" 10 = (p ++ "...")%string)).
Proof. split; [lia|]. apply truncateText_bound. lia. Defined.

(** [addTransactionTable]: the table has a row for each of the first 100
    transactions, in order. Each row has four cells; the entry cell is at
    most 40 code units, either the whole entry or its first 37 code units
    followed by "..."; the amount cell of a transaction without amounts is
    "N/A". With the [autoTable] plugin the note under the table is written
    exactly when there are more than 100 transactions; without it, never. *)
Theorem addTransactionTable_rows (xe : ExportEnv) (ts : list Transaction) :
  length (pdf_table_data xe ts) = Nat.min 100 (length ts)
  /\ (forall i t, i < 100 -> nth_error ts i = Some t ->
        exists d e am ty,
          nth_error (pdf_table_data xe ts) i = Some [d; e; am; ty]
          /\ String.length e <= 40
          /\ (e = entry t \/ exists p rest, entry t = (p ++ rest)%string /\ String.length p = 37
                                            /\ e = (p ++ "...")%string)
          /\ (amounts t = [] -> am = "N/A"))
  /\ (pdf_table_note true ts <> None <-> 100 < length ts)
  /\ pdf_table_note false ts = None.
Proof.
  split; [|split; [|split]].
  - unfold pdf_table_data. rewrite length_map, length_firstn. reflexivity.
  - intros i t Hi Ht. unfold pdf_table_data. rewrite nth_error_map.
    rewrite nth_error_firstn, (proj2 (Nat.ltb_lt i 100) Hi), Ht. cbn [option_map].
    unfold pdf_table_row. rewrite or_str_empty.
    destruct (truncateText_spec (entry t) 40 ltac:(lia)) as [Hl He].
    eexists _, _, _, _. split; [reflexivity|]. split; [exact Hl|]. split; [exact He|].
    intros ->. reflexivity.
  - unfold pdf_table_note. cbn [andb]. destruct (Nat.ltb_spec 100 (length ts)) as [H|H].
    + split; [intros _; exact H|discriminate].
    + split; [intros Hc; exfalso; apply Hc; reflexivity|lia].
  - reflexivity.
Qed.

(** ** The logger (src/logger.js) *)

Lemma last100_small {A} (s : list A) : length s <= 100 -> skipn (length s - 100) s = s.
Proof. intros H. replace (length s - 100) with 0 by lia. reflexivity. Qed.

Lemma last100_length {A} (s : list A) : length (skipn (length s - 100) s) <= 100.
Proof. rewrite length_skipn. lia. Qed.

Lemma last100_app {A} (a b : list A) :
  skipn (length (skipn (length a - 100) a ++ b) - 100) (skipn (length a - 100) a ++ b)
  = skipn (length (a ++ b) - 100) (a ++ b).
Proof.
  replace (skipn (length a - 100) a ++ b) with (skipn (length a - 100) (a ++ b))
    by (rewrite skipn_app; replace (length a - 100 - length a) with 0 by lia; reflexivity).
  rewrite skipn_skipn, length_skipn, !length_app. f_equal. lia.
Qed.

Lemma storeCriticalLog_last100 (s : list LogEntry) (e : LogEntry) :
  storeCriticalLog s e = skipn (length (s ++ [e]) - 100) (s ++ [e]).
Proof.
  unfold storeCriticalLog. destruct (Nat.ltb_spec 100 (length (s ++ [e]))) as [H|H];
    [reflexivity|]. symmetry. apply last100_small. exact H.
Qed.

Lemma log_fields (lg : Logger) (l m : string) :
  logLevel (log lg l m) = logLevel lg /\ metrics (log lg l m) = metrics lg
  /\ stored (log lg l m) =
     if (logLevel lg <? getNumericLevel l)%nat then stored lg
     else if String.eqb l "error" || String.eqb l "warn"
          then storeCriticalLog (stored lg) {| level := l; message := m |}
          else stored lg.
Proof.
  unfold log. destruct (logLevel lg <? getNumericLevel l)%nat; [repeat split|].
  destruct (String.eqb l "error" || String.eqb l "warn"); repeat split.
Qed.

Lemma metric_incr_errors (m : Metrics) (metric : string) :
  match metric_incr m metric with
  | Some m' => errors m' = errors m + (if String.eqb metric "errors" then 1 else 0)
  | None => String.eqb metric "errors" = false
  end.
Proof.
  unfold metric_incr.
  destruct (String.eqb_spec metric "dataLoads") as [->|_]; [cbn; lia|].
  destruct (String.eqb_spec metric "chartUpdates") as [->|_]; [cbn; lia|].
  destruct (String.eqb_spec metric "searches") as [->|_]; [cbn; lia|].
  destruct (String.eqb_spec metric "exports") as [->|_]; [cbn; lia|].
  destruct (String.eqb_spec metric "errors") as [->|Hne]; [cbn; lia|reflexivity].
Qed.

Lemma logger_step_inv (lg : Logger) (ev : LogEvent) :
  length (stored lg) <= 100 ->
  logLevel (logger_step lg ev) = logLevel lg
  /\ errors (metrics (logger_step lg ev))
     = errors (metrics lg)
       + (match ev with
          | EvWarn _ | EvError _ => 1
          | EvEndTimer d _ => if (100 <? d)%nat then 1 else 0
          | EvIncrement metric => if String.eqb metric "errors" then 1 else 0
          | _ => 0
          end)
  /\ length (stored (logger_step lg ev)) <= 100
  /\ (ev = EvClearLogs -> stored (logger_step lg ev) = [])
  /\ (ev <> EvClearLogs ->
      stored (logger_step lg ev)
      = skipn (length (stored lg ++ match ev with
                   | EvWarn m => if (2 <=? logLevel lg)%nat then [{| level := "warn"; message := m |}] else []
                   | EvError m => if (1 <=? logLevel lg)%nat then [{| level := "error"; message := m |}] else []
                   | EvEndTimer d op =>
                       if (100 <? d)%nat && (2 <=? logLevel lg)%nat
                       then [{| level := "warn"; message := ("Slow " ++ op)%string |}] else []
                   | _ => []
                   end) - 100)
              (stored lg ++ match ev with
                   | EvWarn m => if (2 <=? logLevel lg)%nat then [{| level := "warn"; message := m |}] else []
                   | EvError m => if (1 <=? logLevel lg)%nat then [{| level := "error"; message := m |}] else []
                   | EvEndTimer d op =>
                       if (100 <? d)%nat && (2 <=? logLevel lg)%nat
                       then [{| level := "warn"; message := ("Slow " ++ op)%string |}] else []
                   | _ => []
                   end)).
Proof.
  intros Hs.
  (* what a quiet log call ("debug" or "info") leaves *)
  assert (Hq : forall lg' l m, String.eqb l "error" || String.eqb l "warn" = false ->
             logLevel (log lg' l m) = logLevel lg' /\ metrics (log lg' l m) = metrics lg'
             /\ stored (log lg' l m) = stored lg').
  { intros lg' l m Hl. destruct (log_fields lg' l m) as (H1 & H2 & H3). rewrite Hl in H3.
    destruct (logLevel lg' <? getNumericLevel l)%nat; auto. }
  assert (Hw : forall lg' m,
             logLevel (warn lg' m) = logLevel lg'
             /\ errors (metrics (warn lg' m)) = S (errors (metrics lg'))
             /\ stored (warn lg' m) = if (2 <=? logLevel lg')%nat
                                      then storeCriticalLog (stored lg') {| level := "warn"; message := m |}
                                      else stored lg').
  { intros lg' m. unfold warn, with_metrics. cbn [logLevel metrics stored].
    destruct (log_fields lg' "warn" m) as (H1 & H2 & H3). rewrite H1, H2, H3.
    split; [reflexivity|]. split; [reflexivity|]. cbn [getNumericLevel String.eqb orb].
    change (getNumericLevel "warn") with 2.
    destruct (Nat.ltb_spec (logLevel lg') 2); destruct (Nat.leb_spec 2 (logLevel lg')); first [lia|reflexivity]. }
  assert (He : forall lg' m,
             logLevel (error lg' m) = logLevel lg'
             /\ errors (metrics (error lg' m)) = S (errors (metrics lg'))
             /\ stored (error lg' m) = if (1 <=? logLevel lg')%nat
                                       then storeCriticalLog (stored lg') {| level := "error"; message := m |}
                                       else stored lg').
  { intros lg' m. unfold error, with_metrics. cbn [logLevel metrics stored].
    destruct (log_fields lg' "error" m) as (H1 & H2 & H3). rewrite H1, H2, H3.
    split; [reflexivity|]. split; [reflexivity|]. cbn [String.eqb orb].
    change (getNumericLevel "error") with 1.
    destruct (Nat.ltb_spec (logLevel lg') 1); destruct (Nat.leb_spec 1 (logLevel lg')); first [lia|reflexivity]. }
  assert (Hinc : forall lg' metric,
             logLevel (incrementMetric lg' metric) = logLevel lg'
             /\ errors (metrics (incrementMetric lg' metric))
                = errors (metrics lg') + (if String.eqb metric "errors" then 1 else 0)
             /\ stored (incrementMetric lg' metric) = stored lg').
  { intros lg' metric. unfold incrementMetric. pose proof (metric_incr_errors (metrics lg') metric) as Hm.
    destruct (metric_incr (metrics lg') metric) as [m'|].
    - unfold debug. destruct (Hq (with_metrics lg' m') "debug" ("Metric incremented: " ++ metric)%string
                                 eq_refl) as (H1 & H2 & H3).
      rewrite H1, H2, H3. cbn. split; [reflexivity|]. split; [exact Hm|reflexivity].
    - rewrite Hm. split; [reflexivity|]. split; [lia|reflexivity]. }
  assert (Hstore : forall e, storeCriticalLog (stored lg) e
                             = skipn (length (stored lg ++ [e]) - 100) (stored lg ++ [e]))
    by (intros e; apply storeCriticalLog_last100).
  assert (Hkeep : stored lg = skipn (length (stored lg ++ []) - 100) (stored lg ++ []))
    by (rewrite app_nil_r; symmetry; apply last100_small; exact Hs).
  destruct ev as [m|m|m|m|m|metric| | | | |d op|]; cbn [logger_step].
  - destruct (Hq lg "debug" m eq_refl) as (H1 & H2 & H3). unfold debug. rewrite H1, H2, H3.
    repeat split; [lia|exact Hs|discriminate|intros _; exact Hkeep].
  - destruct (Hq lg "info" m eq_refl) as (H1 & H2 & H3). unfold info. rewrite H1, H2, H3.
    repeat split; [lia|exact Hs|discriminate|intros _; exact Hkeep].
  - destruct (Hw lg m) as (H1 & H2 & H3). rewrite H1, H2, H3. split; [reflexivity|]. split; [lia|].
    destruct (2 <=? logLevel lg)%nat; rewrite ?Hstore; (split; [|split; [discriminate|]]);
      first [apply last100_length | exact Hs | intros _; first [reflexivity | exact Hkeep]].
  - destruct (He lg m) as (H1 & H2 & H3). rewrite H1, H2, H3. split; [reflexivity|]. split; [lia|].
    destruct (1 <=? logLevel lg)%nat; rewrite ?Hstore; (split; [|split; [discriminate|]]);
      first [apply last100_length | exact Hs | intros _; first [reflexivity | exact Hkeep]].
  - destruct (Hq lg "info" ("✓ " ++ m)%string eq_refl) as (H1 & H2 & H3). unfold success.
    rewrite H1, H2, H3. repeat split; [lia|exact Hs|discriminate|intros _; exact Hkeep].
  - destruct (Hinc lg metric) as (H1 & H2 & H3). rewrite H1, H2, H3.
    repeat split; [exact Hs|discriminate|intros _; exact Hkeep].
  - unfold logDataLoad, success. destruct (Hinc lg "dataLoads") as (H1 & H2 & H3).
    destruct (Hq (incrementMetric lg "dataLoads") "info" ("✓ " ++ "Data loaded successfully")%string
                 eq_refl) as (H4 & H5 & H6).
    rewrite H4, H5, H6, H1, H2, H3. repeat split; [exact Hs|discriminate|intros _; exact Hkeep].
  - unfold logChartUpdate, debug. destruct (Hinc lg "chartUpdates") as (H1 & H2 & H3).
    destruct (Hq (incrementMetric lg "chartUpdates") "debug" "Chart updated" eq_refl) as (H4 & H5 & H6).
    rewrite H4, H5, H6, H1, H2, H3. repeat split; [exact Hs|discriminate|intros _; exact Hkeep].
  - unfold logSearch, debug. destruct (Hinc lg "searches") as (H1 & H2 & H3).
    destruct (Hq (incrementMetric lg "searches") "debug" "Search performed" eq_refl) as (H4 & H5 & H6).
    rewrite H4, H5, H6, H1, H2, H3. repeat split; [exact Hs|discriminate|intros _; exact Hkeep].
  - unfold logExport, success. destruct (Hinc lg "exports") as (H1 & H2 & H3).
    destruct (Hq (incrementMetric lg "exports") "info" ("✓ " ++ "Export completed")%string
                 eq_refl) as (H4 & H5 & H6).
    rewrite H4, H5, H6, H1, H2, H3. repeat split; [exact Hs|discriminate|intros _; exact Hkeep].
  - unfold endTimer. destruct (100 <? d)%nat; cbn [andb].
    + destruct (Hw lg ("Slow " ++ op)%string) as (H1 & H2 & H3). rewrite H1, H2, H3.
      split; [reflexivity|]. split; [lia|].
      destruct (2 <=? logLevel lg)%nat; rewrite ?Hstore; (split; [|split; [discriminate|]]);
        first [apply last100_length | exact Hs | intros _; first [reflexivity | exact Hkeep]].
    + destruct (Hq lg "debug" (op ++ " completed")%string eq_refl) as (H1 & H2 & H3). unfold debug.
      rewrite H1, H2, H3. repeat split; [lia|exact Hs|discriminate|intros _; exact Hkeep].
  - unfold clearLogs, info. destruct (Hq (with_stored lg []) "info" "Stored logs cleared" eq_refl)
      as (H1 & H2 & H3). rewrite H1, H2, H3. cbn. repeat split; [lia|lia|].
    intros Hc; exfalso; apply Hc; reflexivity.
Qed.

Lemma logger_run_inv (evs : list LogEvent) (lg : Logger) :
  length (stored lg) <= 100 ->
  logLevel (logger_run lg evs) = logLevel lg
  /\ errors (metrics (logger_run lg evs))
     = errors (metrics lg)
       + list_sum (map (fun ev => match ev with
                       | EvWarn _ | EvError _ => 1
                       | EvEndTimer d _ => if (100 <? d)%nat then 1 else 0
                       | EvIncrement metric => if String.eqb metric "errors" then 1 else 0
                       | _ => 0
                       end) evs)
  /\ length (stored (logger_run lg evs)) <= 100
  /\ ((forall ev, In ev evs -> ev <> EvClearLogs) ->
      stored (logger_run lg evs)
      = skipn (length (stored lg ++ flat_map (fun ev => match ev with
                   | EvWarn m => if (2 <=? logLevel lg)%nat then [{| level := "warn"; message := m |}] else []
                   | EvError m => if (1 <=? logLevel lg)%nat then [{| level := "error"; message := m |}] else []
                   | EvEndTimer d op =>
                       if (100 <? d)%nat && (2 <=? logLevel lg)%nat
                       then [{| level := "warn"; message := ("Slow " ++ op)%string |}] else []
                   | _ => []
                   end) evs) - 100)
              (stored lg ++ flat_map (fun ev => match ev with
                   | EvWarn m => if (2 <=? logLevel lg)%nat then [{| level := "warn"; message := m |}] else []
                   | EvError m => if (1 <=? logLevel lg)%nat then [{| level := "error"; message := m |}] else []
                   | EvEndTimer d op =>
                       if (100 <? d)%nat && (2 <=? logLevel lg)%nat
                       then [{| level := "warn"; message := ("Slow " ++ op)%string |}] else []
                   | _ => []
                   end) evs)).
Proof.
  revert lg. induction evs as [|ev evs IH]; intros lg Hs.
  - cbn. rewrite !app_nil_r. split; [reflexivity|]. split; [lia|]. split; [exact Hs|].
    intros _. symmetry. apply last100_small. exact Hs.
  - destruct (logger_step_inv lg ev Hs) as (H1 & H2 & H3 & H4 & H5).
    destruct (IH (logger_step lg ev) H3) as (I1 & I2 & I3 & I4).
    unfold logger_run in *. cbn [fold_left]. rewrite H1 in I4.
    split; [rewrite I1; exact H1|]. split; [rewrite I2, H2; cbn [map]; change (list_sum (?a :: ?l)) with (a + list_sum l); lia|].
    split; [exact I3|].
    intros Hnc. rewrite I4 by (intros e He; apply Hnc; right; exact He).
    rewrite H5 by (apply Hnc; left; reflexivity).
    cbn [flat_map]. rewrite last100_app, app_assoc. reflexivity.
Qed.

(** The logger: over any sequence of calls, the level never changes and
    the [errors] metric grows by one for every [warn] and [error] call (also
    the slow timers, which warn, and [incrementMetric('errors')]), whether
    or not the level lets the message through. The stored critical log
    never holds more than 100 entries. Without [clearLogs] it holds the
    last 100 of the earlier entries followed by the warnings (at level 2 or
    more) and errors (at level 1 or more) in call order; after the last
    [clearLogs] it holds the last 100 of those logged since. *)
Theorem logger_run_logs (lg : Logger) (evs : list LogEvent) (Hs : length (stored lg) <= 100) :
  logLevel (logger_run lg evs) = logLevel lg
  /\ errors (metrics (logger_run lg evs))
     = errors (metrics lg)
       + list_sum (map (fun ev => match ev with
                       | EvWarn _ | EvError _ => 1
                       | EvEndTimer d _ => if (100 <? d)%nat then 1 else 0
                       | EvIncrement metric => if String.eqb metric "errors" then 1 else 0
                       | _ => 0
                       end) evs)
  /\ length (stored (logger_run lg evs)) <= 100
  /\ ((forall ev, In ev evs -> ev <> EvClearLogs) ->
      stored (logger_run lg evs)
      = skipn (length (stored lg ++ flat_map (fun ev => match ev with
                   | EvWarn m => if (2 <=? logLevel lg)%nat then [{| level := "warn"; message := m |}] else []
                   | EvError m => if (1 <=? logLevel lg)%nat then [{| level := "error"; message := m |}] else []
                   | EvEndTimer d op =>
                       if (100 <? d)%nat && (2 <=? logLevel lg)%nat
                       then [{| level := "warn"; message := ("Slow " ++ op)%string |}] else []
                   | _ => []
                   end) evs) - 100)
              (stored lg ++ flat_map (fun ev => match ev with
                   | EvWarn m => if (2 <=? logLevel lg)%nat then [{| level := "warn"; message := m |}] else []
                   | EvError m => if (1 <=? logLevel lg)%nat then [{| level := "error"; message := m |}] else []
                   | EvEndTimer d op =>
                       if (100 <? d)%nat && (2 <=? logLevel lg)%nat
                       then [{| level := "warn"; message := ("Slow " ++ op)%string |}] else []
                   | _ => []
                   end) evs))
  /\ (forall pre post, evs = pre ++ EvClearLogs :: post -> (forall ev, In ev post -> ev <> EvClearLogs) ->
      stored (logger_run lg evs)
      = skipn (length (flat_map (fun ev => match ev with
                   | EvWarn m => if (2 <=? logLevel lg)%nat then [{| level := "warn"; message := m |}] else []
                   | EvError m => if (1 <=? logLevel lg)%nat then [{| level := "error"; message := m |}] else []
                   | EvEndTimer d op =>
                       if (100 <? d)%nat && (2 <=? logLevel lg)%nat
                       then [{| level := "warn"; message := ("Slow " ++ op)%string |}] else []
                   | _ => []
                   end) post) - 100)
              (flat_map (fun ev => match ev with
                   | EvWarn m => if (2 <=? logLevel lg)%nat then [{| level := "warn"; message := m |}] else []
                   | EvError m => if (1 <=? logLevel lg)%nat then [{| level := "error"; message := m |}] else []
                   | EvEndTimer d op =>
                       if (100 <? d)%nat && (2 <=? logLevel lg)%nat
                       then [{| level := "warn"; message := ("Slow " ++ op)%string |}] else []
                   | _ => []
                   end) post)).
Proof.
  destruct (logger_run_inv evs lg Hs) as (H1 & H2 & H3 & H4).
  split; [exact H1|]. split; [exact H2|]. split; [exact H3|]. split; [exact H4|].
  intros pre post -> Hpost.
  destruct (logger_run_inv pre lg Hs) as (P1 & _ & P3 & _).
  set (lgp := logger_run lg pre) in *.
  destruct (logger_step_inv lgp EvClearLogs P3) as (C1 & _ & C3 & C4 & _).
  destruct (logger_run_inv post (logger_step lgp EvClearLogs) C3) as (_ & _ & _ & Q4).
  assert (Heq : logger_run lg (pre ++ EvClearLogs :: post)
                = logger_run (logger_step lgp EvClearLogs) post)
    by (unfold logger_run, lgp; rewrite fold_left_app; reflexivity).
  rewrite Heq, (Q4 Hpost), (C4 eq_refl), C1, P1. reflexivity.
Qed.








Lemma logger_run_logs_witness :
  length (stored logger_sample) <= 100
  /\ (logLevel (logger_run logger_sample logger_events_sample) = logLevel logger_sample
  /\ errors (metrics (logger_run logger_sample logger_events_sample))
     = errors (metrics logger_sample)
       + list_sum (map (fun ev => match ev with
                       | EvWarn _ | EvError _ => 1
                       | EvEndTimer d _ => if (100 <? d)%nat then 1 else 0
                       | EvIncrement metric => if String.eqb metric "errors" then 1 else 0
                       | _ => 0
                       end) logger_events_sample)
  /\ length (stored (logger_run logger_sample logger_events_sample)) <= 100
  /\ ((forall ev, In ev logger_events_sample -> ev <> EvClearLogs) ->
      stored (logger_run logger_sample logger_events_sample)
      = skipn (length (stored logger_sample ++ flat_map (fun ev => match ev with
                   | EvWarn m => if (2 <=? logLevel logger_sample)%nat then [{| level := "warn"; message := m |}] else []
                   | EvError m => if (1 <=? logLevel logger_sample)%nat then [{| level := "error"; message := m |}] else []
                   | EvEndTimer d op =>
                       if (100 <? d)%nat && (2 <=? logLevel logger_sample)%nat
                       then [{| level := "warn"; message := ("Slow " ++ op)%string |}] else []
                   | _ => []
                   end) logger_events_sample) - 100)
              (stored logger_sample ++ flat_map (fun ev => match ev with
                   | EvWarn m => if (2 <=? logLevel logger_sample)%nat then [{| level := "warn"; message := m |}] else []
                   | EvError m => if (1 <=? logLevel logger_sample)%nat then [{| level := "error"; message := m |}] else []
                   | EvEndTimer d op =>
                       if (100 <? d)%nat && (2 <=? logLevel logger_sample)%nat
                       then [{| level := "warn"; message := ("Slow " ++ op)%string |}] else []
                   | _ => []
                   end) logger_events_sample))
  /\ (forall pre post, logger_events_sample = pre ++ EvClearLogs :: post -> (forall ev, In ev post -> ev <> EvClearLogs) ->
      stored (logger_run logger_sample logger_events_sample)
      = skipn (length (flat_map (fun ev => match ev with
                   | EvWarn m => if (2 <=? logLevel logger_sample)%nat then [{| level := "warn"; message := m |}] else []
                   | EvError m => if (1 <=? logLevel logger_sample)%nat then [{| level := "error"; message := m |}] else []
                   | EvEndTimer d op =>
                       if (100 <? d)%nat && (2 <=? logLevel logger_sample)%nat
                       then [{| level := "warn"; message := ("Slow " ++ op)%string |}] else []
                   | _ => []
                   end) post) - 100)
              (flat_map (fun ev => match ev with
                   | EvWarn m => if (2 <=? logLevel logger_sample)%nat then [{| level := "warn"; message := m |}] else []
                   | EvError m => if (1 <=? logLevel logger_sample)%nat then [{| level := "error"; message := m |}] else []
                   | EvEndTimer d op =>
                       if (100 <? d)%nat && (2 <=? logLevel logger_sample)%nat
                       then [{| level := "warn"; message := ("Slow " ++ op)%string |}] else []
                   | _ => []
                   end) post))).
Proof.
  assert (H : length (stored logger_sample) <= 100) by (cbn; lia).
  split; [exact H|]. exact (logger_run_logs logger_sample logger_events_sample H).
Defined.

(** ** The fields of a parsed transaction *)

Lemma validateNumericValue_bounds (s : string) (q : Q) :
  validateNumericValue s = Some q -> (0 <= q /\ q <= 100000)%Q.
Proof.
  unfold validateNumericValue.
  destruct (String.eqb s "" || String.eqb (trim s) ""); [discriminate|].
  destruct (parseFloat (trim s)) as [x| |]; try discriminate.
  destruct (Qlt_le_dec x 0); [discriminate|]. destruct (Qlt_le_dec 100000 x); [discriminate|].
  intros H; injection H as <-. split; assumption.
Qed.

Lemma fold_money_bounds (ms : list RawMoney) (ams : list Amount) (tot : Js.num) :
  Forall (fun a => (0 <= amount a /\ amount a <= 100000)%Q) ams ->
  Forall (fun a => (0 <= amount a /\ amount a <= 100000)%Q) (fst (fold_left money_step ms (ams, tot))).
Proof.
  revert ams tot. induction ms as [|m ms IH]; intros ams tot H; [exact H|].
  cbn [fold_left]. destruct (money_step (ams, tot) m) as [ams' tot'] eqn:E. apply IH.
  unfold money_step in E.
  destruct (Js.truthy (Js.Str (quantityText m)) && _); [|injection E as <- _; exact H].
  destruct (validateNumericValue (quantityText m)) as [a|] eqn:Ev; [|injection E as <- _; exact H].
  destruct (isValidCurrency _); injection E as <- _; [|exact H].
  apply Forall_app. split; [exact H|]. constructor; [|constructor].
  apply (validateNumericValue_bounds _ _ Ev).
Qed.

Lemma transaction_type_cases (e : string) :
  transaction_type e = "income" \/ transaction_type e = "expense" \/ transaction_type e = "trade".
Proof.
  unfold transaction_type.
  destruct (_ || _); [left; reflexivity|]. destruct (_ || _); [right; left|right; right]; reflexivity.
Qed.

Lemma extractPeopleAndPlaces_kept (env : Env) (text : string) :
  Forall (fun p => 2 < String.length p /\ ~ In p ["Item"; "Maii"; "Aprilis"; "Anno"])
         (extractPeopleAndPlaces env text).
Proof.
  apply Forall_forall. intros p Hp. unfold extractPeopleAndPlaces in Hp.
  apply filter_In in Hp as [_ Hp]. apply andb_true_iff in Hp as [Hl Hs].
  split; [apply Nat.ltb_lt; exact Hl|]. intros Hin. apply negb_true_iff in Hs.
  assert (existsb (String.eqb p) ["Item"; "Maii"; "Aprilis"; "Anno"] = true); [|congruence].
  apply existsb_exists. exists p. split; [exact Hin|apply String.eqb_refl].
Qed.

(** [parseXMLData]: every transaction it keeps has a non-empty entry; a
    type among "income", "expense" and "trade"; amounts between 0 and
    100000; and people of more than two code units, none of them "Item",
    "Maii", "Aprilis" or "Anno". Its [originalId] is "T" followed by the
    position of its record among all records, counted from 1, skipped
    records included. *)
Theorem parseXMLData_fields (env : Env) (recs : list RawTransaction) (t : Transaction)
  (Hin : In t (parseXMLData env recs)) :
  entry t <> ""
  /\ (type t = "income" \/ type t = "expense" \/ type t = "trade")
  /\ Forall (fun a => (0 <= amount a /\ amount a <= 100000)%Q) (amounts t)
  /\ Forall (fun p => 2 < String.length p /\ ~ In p ["Item"; "Maii"; "Aprilis"; "Anno"]) (people t)
  /\ exists j r, nth_error recs j = Some r /\ entry t = entryText r
                 /\ originalId t = ("T" ++ string_of_N (N.of_nat (j + 1)))%string.
Proof.
  assert (G : forall recs i ts, In t (parse_loop env i recs ts) ->
            In t ts \/ exists j len r, nth_error recs j = Some r
                                       /\ parse_record env (i + j) len r = Some t).
  { clear Hin recs. induction recs as [|r recs IH]; intros i ts H; [left; exact H|].
    cbn [parse_loop] in H. destruct (IH _ _ H) as [H'|(j & len & r' & Hj & E)].
    - unfold parse_step in H'. destruct (parse_record env i (length ts) r) eqn:E; [|left; exact H'].
      apply in_app_or in H' as [H'|[<-|[]]]; [left; exact H'|].
      right. exists 0, (length ts), r. rewrite Nat.add_0_r. split; [reflexivity|exact E].
    - right. exists (S j), len, r'. split; [exact Hj|]. rewrite <- Nat.add_succ_comm. exact E. }
  destruct (G recs 0 [] Hin) as [[]|(j & len & r & Hj & E)].
  cbn [Nat.add] in E. unfold parse_record in E.
  pose proof (fold_money_bounds (money r) [] (Js.Num 0) (Forall_nil _)) as Hb.
  destruct (fold_left money_step (money r) ([], Js.Num 0)) as [ams tot].
  destruct (Js.truthy (Js.Str (entryText r))) eqn:Ee; [|discriminate].
  injection E as <-. cbn [entry type amounts people originalId fst] in *.
  split; [intros Hx; rewrite Hx in Ee; discriminate|].
  split; [apply transaction_type_cases|]. split; [exact Hb|].
  split; [apply extractPeopleAndPlaces_kept|].
  exists j, r. split; [exact Hj|]. split; reflexivity.
Qed.

Lemma parseXMLData_fields_witness :
  In (hd tx_default (parseXMLData env_utc recs0)) (parseXMLData env_utc recs0)
  /\ (entry (hd tx_default (parseXMLData env_utc recs0)) <> ""
  /\ (type (hd tx_default (parseXMLData env_utc recs0)) = "income"
      \/ type (hd tx_default (parseXMLData env_utc recs0)) = "expense"
      \/ type (hd tx_default (parseXMLData env_utc recs0)) = "trade")
  /\ Forall (fun a => (0 <= amount a /\ amount a <= 100000)%Q)
            (amounts (hd tx_default (parseXMLData env_utc recs0)))
  /\ Forall (fun p => 2 < String.length p /\ ~ In p ["Item"; "Maii"; "Aprilis"; "Anno"])
            (people (hd tx_default (parseXMLData env_utc recs0)))
  /\ exists j r, nth_error recs0 j = Some r
                 /\ entry (hd tx_default (parseXMLData env_utc recs0)) = entryText r
                 /\ originalId (hd tx_default (parseXMLData env_utc recs0))
                    = ("T" ++ string_of_N (N.of_nat (j + 1)))%string).
Proof.
  assert (H : In (hd tx_default (parseXMLData env_utc recs0)) (parseXMLData env_utc recs0))
    by (vm_compute; left; reflexivity).
  split; [exact H|]. exact (parseXMLData_fields env_utc recs0 _ H).
Defined.

(** ** Page navigation *)

Lemma page_click_range (l : list Transaction) (p : Z) (b : PageButton) :
  (1 <= p <= Z.max 1 (totalPages l))%Z -> (1 <= page_click l p b <= Z.max 1 (totalPages l))%Z.
Proof.
  intros H. unfold page_click, updatePagination, changePage. cbn [prevDisabled nextDisabled].
  destruct b.
  - destruct (Z.leb_spec p 1); lia.
  - destruct (Z.leb_spec (totalPages l) p); lia.
Qed.

(** The "Previous" and "Next" buttons: starting from a page between 1 and
    the number of pages (at least 1), any sequence of clicks keeps the
    current page in that range, and every page of the range is reached
    from page 1 by clicking "Next". *)
Theorem page_clicks_in_range (l : list Transaction) (p0 : Z)
  (H : (1 <= p0 <= Z.max 1 (totalPages l))%Z) :
  (forall bs, (1 <= fold_left (page_click l) bs p0 <= Z.max 1 (totalPages l))%Z)
  /\ (forall q, (1 <= q <= Z.max 1 (totalPages l))%Z ->
        fold_left (page_click l) (repeat NextButton (Z.to_nat (q - 1))) 1%Z = q).
Proof.
  split.
  - intros bs. revert p0 H. induction bs as [|b bs IH]; intros p0 H; [exact H|].
    cbn [fold_left]. apply IH. apply page_click_range. exact H.
  - intros q Hq.
    assert (G : forall n p, (1 <= p)%Z -> (p + Z.of_nat n <= Z.max 1 (totalPages l))%Z ->
              fold_left (page_click l) (repeat NextButton n) p = (p + Z.of_nat n)%Z).
    { induction n as [|n IHn]; intros p Hp Hn; [cbn; lia|].
      cbn [repeat fold_left]. unfold page_click at 2, updatePagination, changePage.
      cbn [nextDisabled]. destruct (Z.leb_spec (totalPages l) p); [lia|].
      rewrite IHn; lia. }
    rewrite G; lia.
Qed.

Lemma page_clicks_in_range_witness :
  (1 <= 2 <= Z.max 1 (totalPages tx_page_sample))%Z
  /\ ((forall bs, (1 <= fold_left (page_click tx_page_sample) bs 2
                      <= Z.max 1 (totalPages tx_page_sample))%Z)
      /\ (forall q, (1 <= q <= Z.max 1 (totalPages tx_page_sample))%Z ->
            fold_left (page_click tx_page_sample) (repeat NextButton (Z.to_nat (q - 1))) 1%Z = q)).
Proof.
  assert (H : (1 <= 2 <= Z.max 1 (totalPages tx_page_sample))%Z) by (vm_compute; split; discriminate).
  split; [exact H|]. exact (page_clicks_in_range tx_page_sample 2 H).
Defined.
